(** * json-generator: a shallow embedding of [src/index.js]

    The development follows the class [JsonGenerator]:
    - strings are JavaScript strings restricted to code units below 256
      (Stdlib [string]); the host string methods the class calls
      ([trim], [toLowerCase], [startsWith], [split], [slice], [repeat],
      [replace] with the two regular expressions of [_cleanJsonString]) are
      written out as recursive functions;
    - numbers are decimal values (sign, digits, power of ten) together with
      the two zeros, [NaN] and the two infinities; what [parseInt] and
      [parseFloat] read is not rounded to binary64, and the properties that
      state the value of a number are stated for the numbers that binary64
      holds as they are written ([Num.held_exactly]);
    - values are the values [JSON.parse] builds, plus [undefined]; an object
      is the list of its own properties as [Object.entries] lists them; the
      members that a value inherits from [Object.prototype] and
      [Array.prototype] are no values here, and the properties of
      [key in data] and [data[key]] are stated for the keys that the data
      does not inherit ([Js.inherits]); an assignment to [__proto__] makes no
      own property, and a new property is added last, which is where an
      object lists it unless its key is written with digits only;
    - exceptions are an error monad; the model endpoint reached through
      [fetch] is an oracle indexed by the number of the call, and the
      requests sent are collected in a trace. *)

From Stdlib Require Import List Bool Arith ZArith Lia Permutation.
From Stdlib Require Import Ascii String.
From Stdlib Require Import DecimalString DecimalNat DecimalN.
Import ListNotations.

Open Scope string_scope.
Open Scope bool_scope.

(* ------------------------------------------------------------------ *)
(** ** Host strings *)
(* ------------------------------------------------------------------ *)

Module Str.

Definition chr (n : nat) : ascii := ascii_of_nat n.

Definition dquote : string := String (chr 34) EmptyString.
Definition newline : string := String (chr 10) EmptyString.
Definition backtick : ascii := chr 96.

(** WhiteSpace and LineTerminator code units below 256: TAB, LF, VT, FF, CR,
    SP and NBSP. *)
Definition is_whitespace (c : ascii) : bool :=
  let n := nat_of_ascii c in
  (Nat.eqb n 9 || Nat.eqb n 10 || Nat.eqb n 11 || Nat.eqb n 12
   || Nat.eqb n 13 || Nat.eqb n 32 || Nat.eqb n 160).

Definition is_digit (c : ascii) : bool :=
  let n := nat_of_ascii c in (Nat.leb 48 n && Nat.leb n 57).

Fixpoint all_chars (p : ascii -> bool) (s : string) : bool :=
  match s with
  | EmptyString => true
  | String c r => p c && all_chars p r
  end.

Fixpoint trimStart (s : string) : string :=
  match s with
  | EmptyString => EmptyString
  | String c r => if is_whitespace c then trimStart r else s
  end.

(** Drops the longest suffix whose characters all satisfy [p]. *)
Fixpoint drop_suffix_while (p : ascii -> bool) (s : string) : string :=
  match s with
  | EmptyString => EmptyString
  | String c r => if all_chars p s then EmptyString
                  else String c (drop_suffix_while p r)
  end.

Definition trimEnd (s : string) : string := drop_suffix_while is_whitespace s.

Definition trim (s : string) : string := trimEnd (trimStart s).

(** [s.startsWith(p)] *)
Definition startsWith (p s : string) : bool := String.prefix p s.

(** The rest of [s] after the prefix [p], when [p] is a prefix of [s]. *)
Fixpoint strip_prefix (p s : string) : option string :=
  match p, s with
  | EmptyString, _ => Some s
  | String a p', String b s' =>
      if Ascii.eqb a b then strip_prefix p' s' else None
  | String _ _, EmptyString => None
  end.

(** [c.toLowerCase()] on one code unit: A-Z, and the Latin-1 capitals
    192-222 other than the multiplication sign 215. *)
Definition lower_char (c : ascii) : ascii :=
  let n := nat_of_ascii c in
  if (Nat.leb 65 n && Nat.leb n 90)
     || (Nat.leb 192 n && Nat.leb n 222 && negb (Nat.eqb n 215))
  then ascii_of_nat (n + 32) else c.

Fixpoint toLowerCase (s : string) : string :=
  match s with
  | EmptyString => EmptyString
  | String c r => String (lower_char c) (toLowerCase r)
  end.

(** [s.repeat(n)] *)
Fixpoint repeat (s : string) (n : nat) : string :=
  match n with
  | O => EmptyString
  | S k => s ++ repeat s k
  end.

(** [s.split(sep)] for a non-empty separator, scanning left to right: [cur]
    is the piece being read, [skip] the characters of a separator still to
    pass over. *)
Fixpoint split_from (sep : string) (skip : nat) (cur : string) (s : string)
  : list string :=
  match s with
  | EmptyString => [cur]
  | String c r =>
      match skip with
      | S k => split_from sep k cur r
      | O =>
          if String.prefix sep s
          then cur :: split_from sep (String.length sep - 1) EmptyString r
          else split_from sep 0 (cur ++ String c EmptyString) r
      end
  end.

Definition split (sep s : string) : list string :=
  split_from sep 0 EmptyString s.

(** [l.join(sep)] *)
Definition join (sep : string) (l : list string) : string :=
  String.concat sep l.

(** [s.slice(a, -1)]: from position [a] to the last character, excluded. *)
Definition slice_to_last (a : nat) (s : string) : string :=
  String.substring a (String.length s - 1 - a) s.

Fixpoint contains (needle s : string) : bool :=
  String.prefix needle s ||
  match s with
  | EmptyString => false
  | String _ r => contains needle r
  end.

End Str.

(* ------------------------------------------------------------------ *)
(** ** Host numbers *)
(* ------------------------------------------------------------------ *)

Module Num.

(** [Fin neg ds e] is the number [(-1)^neg * ds * 10^e], where [ds] is a string
    of decimal digits with no leading and no trailing zero; the two zeros are
    [Fin false EmptyString 0] and [Fin true EmptyString 0]. A Number of the
    host is written with the digits that Number::toString prints for it. The
    arithmetic is that of decimals: what [parseInt] and [parseFloat] read
    is not rounded to binary64, so their result is the Number of the host
    where binary64 holds the decimal read as it is ([held_exactly]), and the
    properties that state a value are stated for such numbers. *)
Inductive JsNum : Type :=
| NaN
| Inf (neg : bool)
| Fin (neg : bool) (digits : string) (e : Z).

Definition zero : JsNum := Fin false EmptyString 0%Z.

Definition is_zero_char (c : ascii) : bool := Ascii.eqb c "0"%char.

Fixpoint take_while (p : ascii -> bool) (s : string) : string :=
  match s with
  | EmptyString => EmptyString
  | String c r => if p c then String c (take_while p r) else EmptyString
  end.

Fixpoint drop_while (p : ascii -> bool) (s : string) : string :=
  match s with
  | EmptyString => EmptyString
  | String c r => if p c then drop_while p r else s
  end.

(** The number denoted by the digits [ds] scaled by [10^e], in normal form. *)
Definition mk_num (neg : bool) (ds : string) (e : Z) : JsNum :=
  let ds1 := drop_while is_zero_char ds in
  let ds2 := Str.drop_suffix_while is_zero_char ds1 in
  match ds2 with
  | EmptyString => Fin neg EmptyString 0
  | String _ _ =>
      Fin neg ds2 (e + Z.of_nat (String.length ds1 - String.length ds2))
  end.

(** Binary64 holds the decimal as it is written: at most 15 significant
    digits, and a magnitude between [10^-300] and [10^300]. The
    nearest binary64 of such a decimal prints with the same digits. *)
Definition held_exactly (n : JsNum) : bool :=
  match n with
  | Fin _ ds e =>
      Nat.leb (String.length ds) 15
      && (-300 <=? e)%Z && (e + Z.of_nat (String.length ds) <=? 300)%Z
  | _ => true
  end.

(** [-0] *)
Definition is_negative_zero (n : JsNum) : bool :=
  match n with
  | Fin true EmptyString _ => true
  | _ => false
  end.

Definition N_to_digits (n : N) : string :=
  NilEmpty.string_of_uint (N.to_uint n).

Definition digits_to_N (ds : string) : N :=
  match NilEmpty.uint_of_string ds with
  | Some u => N.of_uint u
  | None => 0%N
  end.

Definition of_N (neg : bool) (n : N) : JsNum := mk_num neg (N_to_digits n) 0.
Definition of_nat (n : nat) : JsNum := of_N false (N.of_nat n).
Definition of_Z (z : Z) : JsNum := of_N (Z.ltb z 0) (Z.abs_N z).

Definition isNaN (n : JsNum) : bool :=
  match n with NaN => true | _ => false end.

Fixpoint zeros (n : nat) : string :=
  match n with
  | O => EmptyString
  | S k => String "0"%char (zeros k)
  end.

Definition take (n : nat) (s : string) : string := String.substring 0 n s.

Fixpoint drop (n : nat) (s : string) : string :=
  match n, s with
  | O, _ => s
  | S k, String _ r => drop k r
  | S _, EmptyString => EmptyString
  end.

(** Number::toString in radix 10: with [k] the number of digits and [n] the
    position of the decimal point after the first digit of [ds]. *)
Definition digits_to_string (ds : string) (e : Z) : string :=
  let k := Z.of_nat (String.length ds) in
  let n := (e + k)%Z in
  if (k <=? n)%Z && (n <=? 21)%Z then
    ds ++ zeros (Z.to_nat (n - k))
  else if (0 <? n)%Z && (n <=? 21)%Z then
    take (Z.to_nat n) ds ++ "." ++ drop (Z.to_nat n) ds
  else if (-6 <? n)%Z && (n <=? 0)%Z then
    "0." ++ zeros (Z.to_nat (- n)) ++ ds
  else
    let ex := (n - 1)%Z in
    let sign := if (ex <? 0)%Z then "-" else "+" in
    let mant := match ds with
                | String d EmptyString => ds
                | String d r => String d ("." ++ r)
                | EmptyString => EmptyString
                end in
    mant ++ "e" ++ sign ++ N_to_digits (Z.abs_N ex).

Definition sign_text (neg : bool) : string :=
  if neg then "-" else EmptyString.

Definition to_string (x : JsNum) : string :=
  match x with
  | NaN => "NaN"
  | Inf false => "Infinity"
  | Inf true => "-Infinity"
  | Fin _ EmptyString _ => "0"
  | Fin neg ds e => sign_text neg ++ digits_to_string ds e
  end.

(** An optional sign at the head of a numeric literal. *)
Definition read_sign (s : string) : bool * string :=
  match s with
  | String c r =>
      if Ascii.eqb c "-"%char then (true, r)
      else if Ascii.eqb c "+"%char then (false, r)
      else (false, s)
  | EmptyString => (false, s)
  end.

(** The value of an ExponentPart at the head of [s]; [0] when there is no
    complete one (an [e] with no digit after it belongs to the rest). *)
Definition read_exponent (s : string) : Z :=
  match s with
  | String c r =>
      if Ascii.eqb c "e"%char || Ascii.eqb c "E"%char then
        let '(neg, r1) := read_sign r in
        match take_while Str.is_digit r1 with
        | EmptyString => 0%Z
        | ds => if neg then (- Z.of_N (digits_to_N ds))%Z
                else Z.of_N (digits_to_N ds)
        end
      else 0%Z
  | EmptyString => 0%Z
  end.

(** [parseFloat] on a string: the longest prefix of the trimmed input that is
    a StrDecimalLiteral, with the decimal value it denotes. The host rounds
    that value to binary64: it is the result where [held_exactly] holds, and
    in every case the result is [NaN] exactly when this one is. *)
Definition parseFloat (s : string) : JsNum :=
  let '(neg, s2) := read_sign (Str.trimStart s) in
  if Str.startsWith "Infinity" s2 then Inf neg
  else
    let ip := take_while Str.is_digit s2 in
    let s3 := drop_while Str.is_digit s2 in
    let '(fp, s4) :=
      match s3 with
      | String c r =>
          if Ascii.eqb c "."%char
          then (take_while Str.is_digit r, drop_while Str.is_digit r)
          else (EmptyString, s3)
      | EmptyString => (EmptyString, s3)
      end in
    match ip ++ fp with
    | EmptyString => NaN
    | ds => mk_num neg ds (read_exponent s4 - Z.of_nat (String.length fp))
    end.

Definition hex_digit_value (c : ascii) : option N :=
  let n := nat_of_ascii c in
  if Nat.leb 48 n && Nat.leb n 57 then Some (N.of_nat (n - 48))
  else if Nat.leb 65 n && Nat.leb n 70 then Some (N.of_nat (n - 55))
  else if Nat.leb 97 n && Nat.leb n 102 then Some (N.of_nat (n - 87))
  else None.

(** The value of the longest prefix of hexadecimal digits, if not empty. *)
Fixpoint read_hex (acc : option N) (s : string) : option N :=
  match s with
  | EmptyString => acc
  | String c r =>
      match hex_digit_value c with
      | Some d =>
          read_hex (Some (match acc with
                          | Some a => a * 16 + d
                          | None => d
                          end)%N) r
      | None => acc
      end
  end.

Definition hex_marker (s : string) : option string :=
  match s with
  | String a (String b r) =>
      if Ascii.eqb a "0"%char && (Ascii.eqb b "x"%char || Ascii.eqb b "X"%char)
      then Some r else None
  | _ => None
  end.

(** [parseInt] on a string with no radix argument: radix 16 after a [0x]
    marker, radix 10 otherwise, with the integer that the digits denote. The
    host rounds that integer to binary64: it is the result where
    [held_exactly] holds, and in every case the result is [NaN] exactly when
    this one is. *)
Definition parseInt (s : string) : JsNum :=
  let '(neg, s1) := read_sign (Str.trimStart s) in
  match hex_marker s1 with
  | Some r =>
      match read_hex None r with
      | Some n => of_N neg n
      | None => NaN
      end
  | None =>
      match take_while Str.is_digit s1 with
      | EmptyString => NaN
      | ds => mk_num neg ds 0
      end
  end.

End Num.

(* ------------------------------------------------------------------ *)
(** ** Host values, errors and built-ins *)
(* ------------------------------------------------------------------ *)

Unset Elimination Schemes.

Inductive JsVal : Type :=
| VUndefined
| VNull
| VBool (b : bool)
| VNum (n : Num.JsNum)
| VStr (s : string)
| VArr (items : list JsVal)
| VObj (entries : list (string * JsVal)).

Set Elimination Schemes.

Inductive ErrorClass : Type := Error | TypeError | SyntaxError.

Record JsError : Type := mkError { err_class : ErrorClass; message : string }.

(** The completion of an evaluation: a value, or a thrown error. *)
Inductive Result (A : Type) : Type :=
| Ok (a : A)
| Throw (e : JsError).

Arguments Ok {A} a.
Arguments Throw {A} e.

Definition bind {A B : Type} (m : Result A) (k : A -> Result B) : Result B :=
  match m with
  | Ok a => k a
  | Throw e => Throw e
  end.

Notation "x <- m ;; k" := (bind m (fun x => k))
  (at level 61, m at next level, right associativity).

(** [items.map(f)] for an [f] that may throw: left to right, the first error
    ends the traversal. *)
Fixpoint map_result {A B : Type} (f : A -> Result B) (l : list A)
  : Result (list B) :=
  match l with
  | [] => Ok []
  | x :: r => y <- f x ;; ys <- map_result f r ;; Ok (y :: ys)
  end.

Module Js.

Definition nat_to_string (n : nat) : string := Num.N_to_digits (N.of_nat n).

(** ToString, as applied by [String(v)], by template literals and by the
    string built-ins to their argument. *)
Fixpoint to_string (v : JsVal) : string :=
  match v with
  | VUndefined => "undefined"
  | VNull => "null"
  | VBool true => "true"
  | VBool false => "false"
  | VNum n => Num.to_string n
  | VStr s => s
  | VArr items =>
      Str.join ","
        (map (fun x => match x with
                       | VUndefined | VNull => EmptyString
                       | _ => to_string x
                       end) items)
  | VObj _ => "[object Object]"
  end.

(** ToBoolean *)
Definition truthy (v : JsVal) : bool :=
  match v with
  | VUndefined | VNull => false
  | VBool b => b
  | VNum Num.NaN => false
  | VNum (Num.Fin _ EmptyString _) => false
  | VNum _ => true
  | VStr EmptyString => false
  | VStr _ => true
  | VArr _ | VObj _ => true
  end.

Fixpoint assoc (key : string) (es : list (string * JsVal)) : option JsVal :=
  match es with
  | [] => None
  | (k, v) :: r => if String.eqb key k then Some v else assoc key r
  end.

(** An own property is written: it keeps its place when it exists and is
    added last otherwise. *)
Fixpoint define (es : list (string * JsVal)) (key : string) (v : JsVal)
  : list (string * JsVal) :=
  match es with
  | [] => [(key, v)]
  | (k, w) :: r =>
      if String.eqb key k then (k, v) :: r else (k, w) :: define r key v
  end.

(** [o[key] = v] on an object that an object literal made, [es] being its
    own properties. The key [__proto__] is the accessor that the object
    inherits from [Object.prototype]: the assignment calls its setter, which
    exchanges the prototype when [v] is an object or [null] and does nothing
    otherwise; in both cases no own property is made. Every other key is
    written as an own property. *)
Definition obj_set (es : list (string * JsVal)) (key : string) (v : JsVal)
  : list (string * JsVal) :=
  if String.eqb key "__proto__" then es else define es key v.

(** The members of [Object.prototype] (ECMAScript, annex B included) and
    some that engines have shipped beside them. *)
Definition Object_prototype_names : list string :=
  ["constructor"; "hasOwnProperty"; "isPrototypeOf"; "propertyIsEnumerable";
   "toLocaleString"; "toString"; "valueOf"; "__proto__";
   "__defineGetter__"; "__defineSetter__"; "__lookupGetter__";
   "__lookupSetter__"; "toSource"; "watch"; "unwatch"].

(** The members of [Array.prototype], up to ECMAScript 2023, and some that
    engines have shipped beside them. *)
Definition Array_prototype_names : list string :=
  ["at"; "concat"; "copyWithin"; "entries"; "every"; "fill"; "filter";
   "find"; "findIndex"; "findLast"; "findLastIndex"; "flat"; "flatMap";
   "forEach"; "includes"; "indexOf"; "join"; "keys"; "lastIndexOf"; "map";
   "pop"; "push"; "reduce"; "reduceRight"; "reverse"; "shift"; "slice";
   "some"; "sort"; "splice"; "toReversed"; "toSorted"; "toSpliced";
   "unshift"; "values"; "with"; "group"; "groupToMap"].

(** [key] names a member that objects or arrays inherit. *)
Definition inherited (key : string) : bool :=
  existsb (String.eqb key) (Object_prototype_names ++ Array_prototype_names).

(** The element of an array whose index is written [key]. *)
Fixpoint element (key : string) (i : nat) (items : list JsVal)
  : option JsVal :=
  match items with
  | [] => None
  | x :: r =>
      if String.eqb key (nat_to_string i) then Some x
      else element key (S i) r
  end.

(** The own property [key] of an object or an array. A value of the model
    holds own properties only: the members that it inherits from its
    prototype, functions for the most part, are no values of the model, and
    the properties of [key in data] and [data[key]] below are stated for
    keys that [data] does not inherit ([inherits]). *)
Definition own_property (data : JsVal) (key : string) : option JsVal :=
  match data with
  | VObj es => assoc key es
  | VArr items =>
      if String.eqb key "length"
      then Some (VNum (Num.of_nat (List.length items)))
      else element key 0 items
  | _ => None
  end.

(** [key] names a member that [data] inherits from its prototype:
    [Object.prototype] for an object, [Array.prototype] and then
    [Object.prototype] for an array. *)
Definition inherits (data : JsVal) (key : string) : bool :=
  match data with
  | VObj _ => existsb (String.eqb key) Object_prototype_names
  | VArr _ =>
      existsb (String.eqb key)
        (Object_prototype_names ++ Array_prototype_names)
  | _ => false
  end.

(** [key in data], for a key that [data] does not inherit. *)
Definition has_property (data : JsVal) (key : string) : bool :=
  match own_property data key with Some _ => true | None => false end.

(** [data[key]], for a key that [data] does not inherit. *)
Definition get (data : JsVal) (key : string) : JsVal :=
  match own_property data key with Some v => v | None => VUndefined end.

Fixpoint indexed (i : nat) (items : list JsVal) : list (string * JsVal) :=
  match items with
  | [] => []
  | x :: r => (nat_to_string i, x) :: indexed (S i) r
  end.

Fixpoint chars (i : nat) (s : string) : list (string * JsVal) :=
  match s with
  | EmptyString => []
  | String c r =>
      (nat_to_string i, VStr (String c EmptyString)) :: chars (S i) r
  end.

Definition null_to_object : JsError :=
  mkError TypeError "Cannot convert undefined or null to object".

(** [Object.entries(v)] *)
Definition Object_entries (v : JsVal) : Result (list (string * JsVal)) :=
  match v with
  | VObj es => Ok es
  | VArr items => Ok (indexed 0 items)
  | VStr s => Ok (chars 0 s)
  | VUndefined | VNull => Throw null_to_object
  | VBool _ | VNum _ => Ok []
  end.

(** [Object.keys(v)] *)
Definition Object_keys (v : JsVal) : Result (list string) :=
  es <- Object_entries v ;; Ok (map fst es).

(** [typeof data === 'object' && data !== null] *)
Definition is_object (data : JsVal) : bool :=
  match data with
  | VArr _ | VObj _ => true
  | _ => false
  end.

(** [parseFloat(v)] and [parseInt(v)]: the argument is converted to a string
    first. *)
Definition parseFloat (v : JsVal) : Num.JsNum := Num.parseFloat (to_string v).
Definition parseInt (v : JsVal) : Num.JsNum := Num.parseInt (to_string v).

(** [l.includes(v)] for a list of strings. *)
Definition includes (l : list string) (v : JsVal) : bool :=
  match v with
  | VStr s => existsb (String.eqb s) l
  | _ => false
  end.

End Js.

(** The built-ins whose result the host decides (the text of a [SyntaxError],
    the rendering of a value as JSON text). *)
Class Host : Type := {
  JSON_parse : string -> Result JsVal;
  JSON_stringify : JsVal -> string
}.

(* ------------------------------------------------------------------ *)
(** ** The class [JsonGenerator] *)
(* ------------------------------------------------------------------ *)

(** The argument of the constructor: every field may be left out. *)
Record Config : Type := {
  cfg_apiKey : option string;
  cfg_model : option string;
  cfg_referer : option string;
  cfg_appName : option string;
  cfg_maxRetries : option Z;
  cfg_delimiter : option string
}.

Record JsonGenerator : Type := {
  apiKey : string;
  model : string;
  referer : option string;
  appName : option string;
  maxRetries : Z;
  delimiter : string
}.

Definition default {A : Type} (o : option A) (d : A) : A :=
  match o with Some a => a | None => d end.

Definition constructor (c : Config) : Result JsonGenerator :=
  match cfg_apiKey c with
  | None | Some EmptyString =>
      Throw (mkError Error "OpenRouter API key is required")
  | Some key =>
      Ok {| apiKey := key;
            model := default (cfg_model c) "mistralai/mistral-nemo";
            referer := cfg_referer c;
            appName := cfg_appName c;
            maxRetries := default (cfg_maxRetries c) 3%Z;
            delimiter := default (cfg_delimiter c) "###" |}
  end.

(** A request sent to the model endpoint: the model and the two messages. *)
Record Request : Type := {
  req_model : string;
  req_system : string;
  req_user : string
}.

(** What the endpoint answers: no usable answer ([fetch] or
    [response.json()] rejects, or the body read has not the shape expected,
    with the error raised); a response that is not [ok], with the [message]
    member of its body and its status text; or an [ok] response, with the
    text [choices[0].message.content]. *)
Inductive FetchOutcome : Type :=
| FetchRejects (e : JsError)
| FetchNotOk (error_message : JsVal) (statusText : string)
| FetchOk (content : string).

(** The endpoint: its answer to the request, given how many came before. *)
Definition Endpoint : Type := nat -> Request -> FetchOutcome.

(** A custom validator returns [{valid, error}], or throws. *)
Inductive ValidatorOutcome : Type :=
| Verdict (valid : bool) (error : option string)
| ValidatorThrows (e : JsError).

Definition Validator : Type := JsVal -> ValidatorOutcome.

Record GenerateParams : Type := {
  prompt : string;
  schema : JsVal;
  systemPrompt : option string;
  customValidators : list Validator
}.

Section Generator.

Context {host : Host}.
Variable this : JsonGenerator.

Definition wrappedKey (level : nat) (key : string) : string :=
  Str.repeat (delimiter this) level ++ key ++ Str.repeat (delimiter this) level.

Fixpoint _wrapFormat (format : JsVal) (level : nat) : JsVal :=
  match format with
  | VArr items => VArr (map (fun item => _wrapFormat item (level + 1)) items)
  | VObj entries =>
      VObj ((fix each (es wrapped : list (string * JsVal)) :=
               match es with
               | [] => wrapped
               | (key, value) :: rest =>
                   each rest
                     (Js.obj_set wrapped (wrappedKey level key)
                        (_wrapFormat value (level + 1)))
               end) entries [])
  | _ => VStr ("<" ++ Js.to_string format ++ ">")
  end.

(** [type.split('type:')[1].trim()] *)
Definition type_name (type : string) : string :=
  Str.trim (nth 1 (Str.split "type:" type) EmptyString).

(** The options of [enum[a,b,...]]:
    [typeStr.slice(5, -1).split(',').map(v => v.trim())] *)
Definition enum_values (typeStr : string) : list string :=
  map Str.trim (Str.split "," (Str.slice_to_last 5 typeStr)).

Definition field_error (key what : string) : JsError :=
  mkError Error ("Field " ++ Str.dquote ++ key ++ Str.dquote ++ " must be " ++ what).

Definition is_one_of (s : string) (l : list string) : bool :=
  existsb (String.eqb s) l.

Definition _validateType (value : JsVal) (type : string) (key : string)
  : Result JsVal :=
  if negb (Str.startsWith "type:" type) then Ok value
  else
    let typeStr := type_name type in
    let kind := Str.toLowerCase typeStr in
    if is_one_of kind ["string"; "str"] then Ok (VStr (Js.to_string value))
    else if is_one_of kind ["number"; "float"] then
      let num := Js.parseFloat value in
      if Num.isNaN num then Throw (field_error key "a number")
      else Ok (VNum num)
    else if is_one_of kind ["integer"; "int"] then
      let int := Js.parseInt value in
      if Num.isNaN int then Throw (field_error key "an integer")
      else Ok (VNum int)
    else if is_one_of kind ["boolean"; "bool"] then
      match value with
      | VStr s =>
          if String.eqb (Str.toLowerCase s) "true" then Ok (VBool true)
          else if String.eqb (Str.toLowerCase s) "false" then Ok (VBool false)
          else Throw (field_error key "a boolean")
      | VBool _ => Ok value
      | _ => Throw (field_error key "a boolean")
      end
    else if is_one_of kind ["array"; "list"] then
      match value with
      | VArr _ => Ok value
      | _ =>
          match JSON_parse (Js.to_string value) with
          | Ok (VArr parsed) => Ok (VArr parsed)
          | _ => Throw (field_error key "an array")
          end
      end
    else if Str.startsWith "enum[" typeStr then
      let enumValues := enum_values typeStr in
      if Js.includes enumValues value then Ok value
      else Throw (field_error key ("one of: " ++ Str.join ", " enumValues))
    else Ok value.

(** The length of the match of [```(?:json)?\n?] at the head of [s]. *)
Definition match_fence (s : string) : option nat :=
  match Str.strip_prefix "```" s with
  | None => None
  | Some r =>
      let '(n1, r1) := match Str.strip_prefix "json" r with
                       | Some r' => (4, r')
                       | None => (0, r)
                       end in
      let n2 := if Str.startsWith Str.newline r1 then 1 else 0 in
      Some (3 + n1 + n2)
  end.

(** [str.replace(/```(?:json)?\n?/g, '')]: every match, found from left to
    right, is dropped; [skip] counts the characters of the current match
    still to drop. *)
Fixpoint remove_fences (skip : nat) (s : string) : string :=
  match s with
  | EmptyString => EmptyString
  | String c r =>
      match skip with
      | S k => remove_fences k r
      | O =>
          match match_fence s with
          | Some n => remove_fences (n - 1) r
          | None => String c (remove_fences 0 r)
          end
      end
  end.

Definition is_backtick (c : ascii) : bool := Ascii.eqb c Str.backtick.

(** [str.replace(/`+$/, '')] *)
Definition remove_trailing_backticks (s : string) : string :=
  Str.drop_suffix_while is_backtick s.

Definition _cleanJsonString (str : string) : string :=
  let str := remove_fences 0 str in
  let str := remove_trailing_backticks str in
  let str := Str.trim str in
  str.

Fixpoint _formatValue (value : JsVal) : string :=
  match value with
  | VStr s => Str.dquote ++ s ++ Str.dquote
  | VArr items => "[" ++ Str.join ", " (map _formatValue items) ++ "]"
  | _ => Js.to_string value
  end.

(** The default [example] argument of [_createStructuredPrompt]. *)
Definition default_example : JsVal :=
  VObj [("string", VStr "example_text");
        ("integer", VNum (Num.of_Z 42));
        ("float", VNum (Num.mk_num false "425" (-1)));
        ("boolean", VBool true);
        ("array", VArr [VStr "item1"; VStr "item2"])].

(** [a || b] *)
Definition or_else (a b : JsVal) : JsVal := if Js.truthy a then a else b.

Section StructuredPrompt.

Variable example : JsVal.

Definition currentPath (path key : string) : string :=
  match path with
  | EmptyString => key
  | _ => path ++ "." ++ key
  end.

(** The inner function [formatField]; [Object.entries] throws on [null]. *)
Fixpoint formatField (key : string) (type : JsVal) (path : string)
  : Result string :=
  let here := currentPath path key in
  match type with
  | VStr t =>
      if Str.startsWith "type:" t then
        let baseType := type_name t in
        if Str.startsWith "enum[" baseType then
          let options := enum_values baseType in
          Ok (here ++ "="
                ++ _formatValue (match options with
                                 | o :: _ => VStr o
                                 | [] => VUndefined
                                 end))
        else
          Ok (here ++ "="
                ++ _formatValue
                     (or_else (Js.get example (Str.toLowerCase baseType))
                        (Js.get example "string")))
      else Ok (here ++ "=" ++ _formatValue (Js.get example "array"))
  | VObj entries =>
      parts <- (fix each (es : list (string * JsVal)) : Result (list string) :=
                  match es with
                  | [] => Ok []
                  | (k, v) :: rest =>
                      p <- formatField k v here ;;
                      ps <- each rest ;; Ok (p :: ps)
                  end) entries ;;
      Ok (Str.join ", " parts)
  | VNull => Throw Js.null_to_object
  | _ => Ok (here ++ "=" ++ _formatValue (Js.get example "array"))
  end.

Definition _createStructuredPrompt (userPrompt : string) (schema : JsVal)
  : Result string :=
  entries <- Js.Object_entries schema ;;
  parts <- map_result (fun kv => formatField (fst kv) (snd kv) EmptyString)
             entries ;;
  Ok (userPrompt ++ Str.newline
        ++ "Return a raw JSON object (no markdown, no code blocks) with exactly these fields and values as a template: "
        ++ Str.join ", " parts).

End StructuredPrompt.

(** The loop of [_validateSchema] over [Object.entries(schema)], given the
    validation of one value against one node; [validated] is the object
    under construction. *)
Fixpoint validate_fields (validate : JsVal -> JsVal -> Result JsVal)
  (data : JsVal) (es validated : list (string * JsVal)) : Result JsVal :=
  match es with
  | [] => Ok (VObj validated)
  | (key, schemaValue) :: rest =>
      if negb (Js.has_property data key) then
        Throw (mkError Error ("Missing required field: " ++ key))
      else
        v <- validate (Js.get data key) schemaValue ;;
        validate_fields validate data rest (Js.obj_set validated key v)
  end.

Fixpoint _validateSchema (data schema : JsVal) : Result JsVal :=
  match schema with
  | VStr s =>
      if Str.startsWith "type:" s then _validateType data s "field"
      else Ok data
  | VArr elems =>
      match data with
      | VArr items =>
          validated <-
            map_result
              (fun item =>
                 match elems with
                 | first :: _ => _validateSchema item first
                 | [] => Ok item
                 end) items ;;
          Ok (VArr validated)
      | _ => Throw (mkError Error "Expected an array")
      end
  | VObj entries =>
      match data with
      | VArr _ | VObj _ => validate_fields _validateSchema data entries []
      | _ => Throw (mkError Error "Expected an object")
      end
  | _ => Ok data
  end.

(** [a || b] where [a] is a string that may be [undefined]. *)
Definition string_or (a : option string) (b : string) : string :=
  match a with
  | Some (String _ _ as s) => s
  | _ => b
  end.

(** The class declares no member [_makeRequest], on itself or on a parent:
    [this._makeRequest] evaluates to [undefined]. *)
Definition _makeRequest
  : option (string -> string -> list Request -> Result string * list Request)
  := None.

Definition baseSystemPrompt (schema : JsVal) : string :=
  "You are a JSON generator. Generate a raw JSON object (no markdown, no code blocks) that conforms to this schema: "
  ++ JSON_stringify schema ++ ". " ++ Str.newline
  ++ "Important:" ++ Str.newline
  ++ "- Return ONLY the raw JSON object, no markdown formatting or code blocks"
  ++ Str.newline
  ++ "- Ensure all fields are present and match their types exactly"
  ++ Str.newline
  ++ "- Do not include any explanation or additional text" ++ Str.newline
  ++ "- Use the field names and types exactly as specified".

(** The content of the system message:
    [finalSystemPrompt + (lastError ? `\nPrevious error: ${lastError}` : '')] *)
Definition system_content (finalSystemPrompt : string)
  (lastError : option string) : string :=
  finalSystemPrompt
  ++ match lastError with
     | Some (String _ _ as e) => Str.newline ++ "Previous error: " ++ e
     | _ => EmptyString
     end.

(** The loop over [customValidators]. *)
Fixpoint run_validators (validators : list Validator) (result : JsVal)
  : Result unit :=
  match validators with
  | [] => Ok tt
  | validator :: rest =>
      match validator result with
      | ValidatorThrows e => Throw e
      | Verdict valid error =>
          if negb valid then Throw (mkError Error (default error EmptyString))
          else run_validators rest result
      end
  end.

Section Generate.

Variable endpoint : Endpoint.

(** [fetch(...)] up to the text of the answer: the request joins the trace. *)
Definition send (request : Request) (trace : list Request)
  : Result string * list Request :=
  (match endpoint (List.length trace) request with
   | FetchRejects e => Throw e
   | FetchNotOk error_message statusText =>
       Throw (mkError Error
                ("OpenRouter API error: "
                   ++ Js.to_string (or_else error_message (VStr statusText))))
   | FetchOk content => Ok content
   end, (trace ++ [request])%list).

Section Loop.

Variable schema : JsVal.
Variable validators : list Validator.
Variables finalSystemPrompt structuredPrompt : string.

(** The body of the request of an attempt. *)
Definition request_of (lastError : option string) : Request :=
  {| req_model := model this;
     req_system := system_content finalSystemPrompt lastError;
     req_user := structuredPrompt |}.

(** The body of the [try] block of one attempt. *)
Definition attempt_body (lastError : option string) (trace : list Request)
  : Result JsVal * list Request :=
  let '(response, trace) := send (request_of lastError) trace in
  (content <- response ;;
   let cleanedJson := _cleanJsonString content in
   result <- JSON_parse cleanedJson ;;
   result <- _validateSchema result schema ;;
   _ <- run_validators validators result ;;
   Ok result,
   trace).

(** The [for] loop: [remaining] is the number of values of [attempt] below
    [maxRetries] still to run; with none left the loop ends and the function
    returns [undefined]. *)
Fixpoint attempts (remaining : nat) (attempt : Z) (lastError : option string)
  (trace : list Request) : Result JsVal * list Request :=
  match remaining with
  | O => (Ok VUndefined, trace)
  | S remaining =>
      match attempt_body lastError trace with
      | (Ok result, trace) => (Ok result, trace)
      | (Throw error, trace) =>
          if (attempt =? maxRetries this - 1)%Z then (Throw error, trace)
          else attempts remaining (attempt + 1)%Z (Some (message error)) trace
      end
  end.

End Loop.

Definition generate (p : GenerateParams) (trace : list Request)
  : Result JsVal * list Request :=
  let schema := match schema p with VUndefined => VObj [] | s => s end in
  match Js.Object_keys schema with
  | Throw e => (Throw e, trace)
  | Ok keys =>
      if Nat.eqb (List.length keys) 0 then
        match _makeRequest with
        | None =>
            (Throw (mkError TypeError "this._makeRequest is not a function"),
             trace)
        | Some makeRequest =>
            let '(response, trace) :=
              makeRequest (prompt p)
                (string_or (systemPrompt p)
                   "Generate a JSON object based on the prompt. Return only the raw JSON.")
                trace in
            (text <- response ;; JSON_parse text, trace)
        end
      else
        let wrappedSchema := _wrapFormat schema 1 in
        match _createStructuredPrompt default_example (prompt p) schema with
        | Throw e => (Throw e, trace)
        | Ok structuredPrompt =>
            let finalSystemPrompt :=
              string_or (systemPrompt p) (baseSystemPrompt schema) in
            attempts schema (customValidators p) finalSystemPrompt
              structuredPrompt (Z.to_nat (maxRetries this)) 0%Z None trace
        end
  end.

End Generate.

End Generator.

(* ------------------------------------------------------------------ *)
(** ** Well-formed values and schemas *)
(* ------------------------------------------------------------------ *)

Fixpoint distinct (keys : list string) : bool :=
  match keys with
  | [] => true
  | k :: r => negb (existsb (String.eqb k) r) && distinct r
  end.

(** The keys of every object of [v] are pairwise different, as those of a
    JavaScript object are. *)
Fixpoint unique_keys (v : JsVal) : bool :=
  match v with
  | VArr items => forallb unique_keys items
  | VObj entries =>
      distinct (map fst entries)
      && (fix all (es : list (string * JsVal)) : bool :=
            match es with
            | [] => true
            | (_, x) :: r => unique_keys x && all r
            end) entries
  | _ => true
  end.

(** [key] is no name of a member that objects or arrays inherit: in a
    value it is an own property or it is absent, and [o[key] = v] writes an
    own property. *)
Definition plain_key (key : string) : bool := negb (Js.inherited key).

(** No object of [v] has a key [__proto__]. *)
Fixpoint proto_free (v : JsVal) : bool :=
  match v with
  | VArr items => forallb proto_free items
  | VObj entries =>
      forallb (fun key => negb (String.eqb key "__proto__")) (map fst entries)
      && (fix all (es : list (string * JsVal)) : bool :=
            match es with
            | [] => true
            | (_, x) :: r => proto_free x && all r
            end) entries
  | _ => true
  end.

(** Every key of every object of [v] is a [plain_key]. *)
Fixpoint plain_keys (v : JsVal) : bool :=
  match v with
  | VArr items => forallb plain_keys items
  | VObj entries =>
      forallb plain_key (map fst entries)
      && (fix all (es : list (string * JsVal)) : bool :=
            match es with
            | [] => true
            | (_, x) :: r => plain_keys x && all r
            end) entries
  | _ => true
  end.

(** A node of a schema: an annotation, a nested schema, or an array of
    nodes. *)
Fixpoint is_schema_node (v : JsVal) : bool :=
  match v with
  | VStr _ => true
  | VArr elems => forallb is_schema_node elems
  | VObj entries =>
      (fix all (es : list (string * JsVal)) : bool :=
         match es with
         | [] => true
         | (_, x) :: r => is_schema_node x && all r
         end) entries
  | _ => false
  end.

(** A schema with at least one field. *)
Definition is_schema (v : JsVal) : bool :=
  match v with
  | VObj (_ :: _) => is_schema_node v
  | _ => false
  end.

(** [needle] occurs in [s]. *)
Definition occurs_in (needle s : string) : Prop :=
  exists before after, s = before ++ needle ++ after.

Section JsVal_induction.

Variable P : JsVal -> Prop.
Hypothesis P_undefined : P VUndefined.
Hypothesis P_null : P VNull.
Hypothesis P_bool : forall b, P (VBool b).
Hypothesis P_num : forall n, P (VNum n).
Hypothesis P_str : forall s, P (VStr s).
Hypothesis P_arr : forall items, Forall P items -> P (VArr items).
Hypothesis P_obj :
  forall entries, Forall (fun kv => P (snd kv)) entries -> P (VObj entries).

Fixpoint JsVal_ind (v : JsVal) : P v :=
  match v with
  | VUndefined => P_undefined
  | VNull => P_null
  | VBool b => P_bool b
  | VNum n => P_num n
  | VStr s => P_str s
  | VArr items =>
      P_arr items
        ((fix all (l : list JsVal) : Forall P l :=
            match l with
            | [] => Forall_nil P
            | x :: r => Forall_cons x (JsVal_ind x) (all r)
            end) items)
  | VObj entries =>
      P_obj entries
        ((fix all (l : list (string * JsVal))
            : Forall (fun kv => P (snd kv)) l :=
            match l with
            | [] => Forall_nil _
            | kv :: r => Forall_cons kv (JsVal_ind (snd kv)) (all r)
            end) entries)
  end.

End JsVal_induction.

(** Every attempt of a run of [n] attempts fails: the run starts with
    [lastError] and [trace], and ends with the error of attempt [n] and the
    trace it leaves. *)
Inductive all_fail {host : Host} (this : JsonGenerator) (endpoint : Endpoint)
  (schema : JsVal) (validators : list Validator) (final user : string)
  : nat -> option string -> list Request -> JsError -> list Request -> Prop :=
| all_fail_last lastError trace e trace' :
    attempt_body this endpoint schema validators final user lastError trace
    = (Throw e, trace') ->
    all_fail this endpoint schema validators final user
      1 lastError trace e trace'
| all_fail_next n lastError trace e trace' e' trace'' :
    attempt_body this endpoint schema validators final user lastError trace
    = (Throw e, trace') ->
    all_fail this endpoint schema validators final user
      (S n) (Some (message e)) trace' e' trace'' ->
    all_fail this endpoint schema validators final user
      (S (S n)) lastError trace e' trace''.

(* ------------------------------------------------------------------ *)
(** ** The wrapped template, as the specification words it *)
(* ------------------------------------------------------------------ *)

(** Every key of an object at depth [level] stands between [level] copies of
    the delimiter on each side, and its value is rendered one level deeper;
    the elements of an array are rendered one level deeper, with no key
    wrapped for the array itself; a leaf becomes its text between angle
    brackets. *)
Fixpoint wrapped_template (delim : string) (level : nat) (schema : JsVal)
  : JsVal :=
  match schema with
  | VObj entries =>
      VObj ((fix each (es : list (string * JsVal)) :=
               match es with
               | [] => []
               | (key, value) :: rest =>
                   (Str.repeat delim level ++ key ++ Str.repeat delim level,
                    wrapped_template delim (S level) value) :: each rest
               end) entries)
  | VArr items => VArr (map (wrapped_template delim (S level)) items)
  | leaf => VStr ("<" ++ Js.to_string leaf ++ ">")
  end.

(** One entry of the template of an object at depth [level]. *)
Definition template_entry (delim : string) (level : nat)
  (kv : string * JsVal) : string * JsVal :=
  (Str.repeat delim level ++ fst kv ++ Str.repeat delim level,
   wrapped_template delim (S level) (snd kv)).

(** A key written with digits only: objects list such keys, when they are
    array indices, before the others and in increasing order. *)
Definition is_digits (key : string) : bool :=
  match key with
  | EmptyString => false
  | _ => Str.all_chars Str.is_digit key
  end.

(** A key that [o[key] = v] adds after the properties that [o] has: it is
    neither [__proto__] nor written with digits only. *)
Definition ordinary_key (key : string) : bool :=
  negb (String.eqb key "__proto__") && negb (is_digits key).

(** Every key of the template of [schema] at depth [level] is an
    [ordinary_key]. *)
Fixpoint ordinary_wrapped_keys (delim : string) (level : nat) (schema : JsVal)
  : bool :=
  match schema with
  | VObj entries =>
      (fix all (es : list (string * JsVal)) : bool :=
         match es with
         | [] => true
         | (key, value) :: rest =>
             ordinary_key
               (Str.repeat delim level ++ key ++ Str.repeat delim level)
             && ordinary_wrapped_keys delim (S level) value
             && all rest
         end) entries
  | VArr items => forallb (ordinary_wrapped_keys delim (S level)) items
  | _ => true
  end.

(** A character that is neither a digit nor the underscore. *)
Definition ordinary_start (c : ascii) : bool :=
  negb (Str.is_digit c) && negb (Ascii.eqb c "_"%char).

Module SampleTemplate.

(** A generator whose delimiter is two underscores. *)
Definition underscores : JsonGenerator :=
  {| apiKey := "key"; model := "m"; referer := None; appName := None;
     maxRetries := 3; delimiter := "__" |}.

Definition proto_schema : JsVal := VObj [("proto", VStr "type:string")].

Definition nested_schema : JsVal :=
  VObj [("name", VStr "type:string");
        ("stats", VObj [("strength", VStr "type:integer")]);
        ("tags", VArr [VObj [("label", VStr "type:string")]])].

Definition nested_template : JsVal :=
  VObj [("###name###", VStr "<type:string>");
        ("###stats###", VObj [("######strength######", VStr "<type:integer>")]);
        ("###tags###",
         VArr [VObj [("#########label#########", VStr "<type:string>")]])].

End SampleTemplate.

(* ------------------------------------------------------------------ *)
(** ** Clean text *)
(* ------------------------------------------------------------------ *)

(** The last character of [s] satisfies [p]. *)
Fixpoint ends_with (p : ascii -> bool) (s : string) : bool :=
  match s with
  | EmptyString => false
  | String c EmptyString => p c
  | String _ r => ends_with p r
  end.

Definition begins_with (p : ascii -> bool) (s : string) : bool :=
  match s with
  | EmptyString => false
  | String c _ => p c
  end.

(** Text with no fence opener, no backtick at its end and no white space
    around it. *)
Definition is_clean (s : string) : bool :=
  negb (Str.contains "```" s)
  && negb (ends_with is_backtick s)
  && negb (begins_with Str.is_whitespace s)
  && negb (ends_with Str.is_whitespace s).

Module SampleText.

(** The text [{"a":1}]. *)
Definition object_text : string :=
  "{" ++ Str.dquote ++ "a" ++ Str.dquote ++ ":1}".

(** The same text inside a fenced block tagged [json]. *)
Definition fenced_text : string :=
  "```json" ++ Str.newline ++ object_text ++ Str.newline ++ "```".

End SampleText.

(* ------------------------------------------------------------------ *)
(** ** Numeric prefixes *)
(* ------------------------------------------------------------------ *)

Definition non_digit (c : ascii) : bool := negb (Str.is_digit c).

Definition is_hex_digit (c : ascii) : bool :=
  match Num.hex_digit_value c with Some _ => true | None => false end.

Definition is_x (c : ascii) : bool :=
  Ascii.eqb c "x"%char || Ascii.eqb c "X"%char.

Definition is_point (c : ascii) : bool := Ascii.eqb c "."%char.

(** The input without its leading white space and its sign. *)
Definition unsigned_part (s : string) : string :=
  snd (Num.read_sign (Str.trimStart s)).

(** [s] has an integer at its head: the marker [0x] or [0X] and then a
    hexadecimal digit, or, with no such marker, a decimal digit. *)
Definition has_integer_prefix (s : string) : bool :=
  match Num.hex_marker (unsigned_part s) with
  | Some r => begins_with is_hex_digit r
  | None => begins_with Str.is_digit (unsigned_part s)
  end.

(** [s] has a decimal literal at its head: [Infinity], a digit, or a point
    and then a digit. *)
Definition has_decimal_prefix (s : string) : bool :=
  Str.startsWith "Infinity" (unsigned_part s)
  || begins_with Str.is_digit (unsigned_part s)
  || match unsigned_part s with
     | String c r => is_point c && begins_with Str.is_digit r
     | EmptyString => false
     end.

(* ------------------------------------------------------------------ *)
(** ** Numbers in normal form and integer leaves *)
(* ------------------------------------------------------------------ *)

(** The digits of a non-zero number in normal form: decimal digits, the
    first and the last of which are not [0]. *)
Definition canonical (ds : string) : bool :=
  Str.all_chars Str.is_digit ds
  && begins_with Str.is_digit ds
  && negb (begins_with Num.is_zero_char ds)
  && negb (ends_with Num.is_zero_char ds).

(** The magnitude of [n] is below [10^21]: [n] prints with all its digits
    and no exponent. *)
Definition below_1e21 (n : Num.JsNum) : bool :=
  match n with
  | Num.Fin _ ds e => (Z.of_nat (String.length ds) + e <=? 21)%Z
  | _ => true
  end.

(** The annotation has the kind [integer] or [int]. *)
Definition is_integer_kind (annotation : string) : bool :=
  Str.startsWith "type:" annotation
  && is_one_of (Str.toLowerCase (type_name annotation)) ["integer"; "int"].

(** The annotation has the kind [number] or [float]. *)
Definition is_number_kind (annotation : string) : bool :=
  Str.startsWith "type:" annotation
  && is_one_of (Str.toLowerCase (type_name annotation)) ["number"; "float"].

(** A number that binary64 holds as it is written and that is not [-0]. *)
Definition steady (n : Num.JsNum) : bool :=
  Num.held_exactly n && negb (Num.is_negative_zero n).

(** The leaf [r] of an annotation: a number declared [number] or [float] is
    [steady]; a number declared [integer] or [int] is [steady] and below
    [10^21] in magnitude. *)
Definition stable_leaf (annotation : string) (r : JsVal) : bool :=
  match r with
  | VNum n =>
      if is_number_kind annotation then steady n
      else if is_integer_kind annotation then steady n && below_1e21 n
      else true
  | _ => true
  end.

(** Every leaf of [r] that the schema declares as a number or as an integer
    is a [stable_leaf]. *)
Fixpoint stable_numbers (r schema : JsVal) : bool :=
  match schema with
  | VStr annotation => stable_leaf annotation r
  | VArr (first :: _) =>
      match r with
      | VArr items =>
          forallb (fun item => stable_numbers item first) items
      | _ => true
      end
  | VObj entries =>
      (fix all (es : list (string * JsVal)) : bool :=
         match es with
         | [] => true
         | (key, node) :: rest =>
             stable_numbers (Js.get r key) node && all rest
         end) entries
  | _ => true
  end.

Module SampleNumbers.

(** [10^21], written with all its digits. *)
Definition sextillion_text : string := "1000000000000000000000".

Definition sextillion : JsVal := VNum (Num.Fin false "1" 21).

Definition one : JsVal := VNum (Num.Fin false "1" 0).

End SampleNumbers.

(* ------------------------------------------------------------------ *)
(** ** Sample hosts, generators and endpoints *)
(* ------------------------------------------------------------------ *)

Module Sample.

(** The text [{"name":"John","age":"30"}]. *)
Definition person_text : string :=
  "{" ++ Str.dquote ++ "name" ++ Str.dquote ++ ":"
      ++ Str.dquote ++ "John" ++ Str.dquote ++ ","
      ++ Str.dquote ++ "age" ++ Str.dquote ++ ":"
      ++ Str.dquote ++ "30" ++ Str.dquote ++ "}".

Definition person : JsVal :=
  VObj [("name", VStr "John"); ("age", VStr "30")].

Definition unexpected_token : JsError :=
  mkError SyntaxError "Unexpected token s in JSON at position 0".

(** A host that parses the texts used below. *)
Definition parse (text : string) : Result JsVal :=
  if String.eqb text person_text then Ok person
  else if String.eqb text "[1,2]"
  then Ok (VArr [VNum (Num.of_Z 1); VNum (Num.of_Z 2)])
  else Throw unexpected_token.

Definition host : Host :=
  {| JSON_parse := parse; JSON_stringify := fun _ => "{}" |}.

Definition person_schema : JsVal :=
  VObj [("name", VStr "type:string"); ("age", VStr "type:integer")].

Definition config (retries : option Z) : Config :=
  {| cfg_apiKey := Some "test-key"; cfg_model := None; cfg_referer := None;
     cfg_appName := None; cfg_maxRetries := retries; cfg_delimiter := None |}.

Definition generator (retries : Z) : JsonGenerator :=
  {| apiKey := "test-key"; model := "mistralai/mistral-nemo";
     referer := None; appName := None; maxRetries := retries;
     delimiter := "###" |}.

Definition params : GenerateParams :=
  {| prompt := "Generate John, aged 30."; schema := person_schema;
     systemPrompt := Some "Answer in JSON."; customValidators := [] |}.

(** Answers prose to the first request, an error status to the second and
    the fenced text of [person] from the third on. *)
Definition recovering : Endpoint :=
  fun calls _ =>
    match calls with
    | 0 => FetchOk "sorry"
    | 1 => FetchNotOk VUndefined "Too Many Requests"
    | _ => FetchOk ("```json" ++ Str.newline ++ person_text ++ Str.newline ++ "```")
    end.

(** Never answers with JSON text. *)
Definition failing : Endpoint :=
  fun calls _ =>
    match calls with
    | 0 => FetchOk "sorry"
    | _ => FetchNotOk VUndefined "Too Many Requests"
    end.

Definition user_message : string :=
  "Generate John, aged 30." ++ Str.newline
  ++ "Return a raw JSON object (no markdown, no code blocks) with exactly these fields and values as a template: name="
  ++ Str.dquote ++ "example_text" ++ Str.dquote ++ ", age=42".

Definition too_many_requests : JsError :=
  mkError Error "OpenRouter API error: Too Many Requests".

Definition requests : list Request :=
  [ {| req_model := "mistralai/mistral-nemo";
       req_system := "Answer in JSON.";
       req_user := user_message |};
    {| req_model := "mistralai/mistral-nemo";
       req_system := "Answer in JSON." ++ Str.newline
                     ++ "Previous error: Unexpected token s in JSON at position 0";
       req_user := user_message |};
    {| req_model := "mistralai/mistral-nemo";
       req_system := "Answer in JSON." ++ Str.newline
                     ++ "Previous error: OpenRouter API error: Too Many Requests";
       req_user := user_message |} ].

Definition validated_person : JsVal :=
  VObj [("name", VStr "John"); ("age", VNum (Num.of_Z 30))].

End Sample.

(* ------------------------------------------------------------------ *)
(** ** Runs of attempts that end in a success *)
(* ------------------------------------------------------------------ *)

(** Attempt [j + 1] succeeds after [j] failed attempts: the run starts with
    [lastError] and [trace], and ends with the result of the last attempt
    and the trace it leaves. *)
Inductive succeeds_after {host : Host} (this : JsonGenerator)
  (endpoint : Endpoint) (schema : JsVal) (validators : list Validator)
  (final user : string)
  : nat -> option string -> list Request -> JsVal -> list Request -> Prop :=
| succeeds_now lastError trace result trace' :
    attempt_body this endpoint schema validators final user lastError trace
    = (Ok result, trace') ->
    succeeds_after this endpoint schema validators final user
      0 lastError trace result trace'
| succeeds_later j lastError trace e trace' result trace'' :
    attempt_body this endpoint schema validators final user lastError trace
    = (Throw e, trace') ->
    succeeds_after this endpoint schema validators final user
      j (Some (message e)) trace' result trace'' ->
    succeeds_after this endpoint schema validators final user
      (S j) lastError trace result trace''.

(** The error [generate] builds for a response that is not [ok]. *)
Definition provider_error (error_message : JsVal) (statusText : string)
  : JsError :=
  mkError Error
    ("OpenRouter API error: "
       ++ Js.to_string (or_else error_message (VStr statusText))).

(** A request of [generate]: the model of the generator, the structured
    prompt as user message, and a system message that starts with the final
    system prompt. *)
Definition well_formed_request (this : JsonGenerator) (final user : string)
  (request : Request) : Prop :=
  req_model request = model this
  /\ req_user request = user
  /\ exists suffix, req_system request = final ++ suffix.


(* ------------------------------------------------------------------ *)
(** ** Fields that are [null] *)
(* ------------------------------------------------------------------ *)

(** [v] is [null], or an object one of whose fields, at any depth of
    nested objects, is [null]. *)
Fixpoint has_null_field (v : JsVal) : bool :=
  match v with
  | VNull => true
  | VObj entries =>
      (fix any (es : list (string * JsVal)) : bool :=
         match es with
         | [] => false
         | (_, x) :: r => has_null_field x || any r
         end) entries
  | _ => false
  end.

(** A validator that accepts [result]. *)
Definition accepts (result : JsVal) (validator : Validator) : Prop :=
  exists error, validator result = Verdict true error.

Module SampleValidators.

Definition adult : Validator :=
  fun data =>
    match Js.get data "age" with
    | VNum (Num.Fin false ds e) =>
        Verdict (Nat.leb 2 (String.length ds + Z.to_nat e))
          (Some "User must be 18 or older")
    | _ => Verdict false (Some "User must be 18 or older")
    end.

Definition named : Validator :=
  fun data =>
    match Js.get data "name" with
    | VStr (String _ _) => Verdict true (Some "Name is required")
    | _ => Verdict false None
    end.

Definition never : Validator := fun _ => Verdict false (Some "never valid").

Definition null_schema : JsVal :=
  VObj [("name", VStr "type:string");
        ("address", VObj [("zip", VNull)])].

End SampleValidators.


(* ------------------------------------------------------------------ *)
(** ** Values of the shape of a schema *)
(* ------------------------------------------------------------------ *)

(** [n] has no digit after the point: it is an integer, or an infinity,
    which is what binary64 makes of an integer too large for it. *)
Definition is_integer (n : Num.JsNum) : bool :=
  match n with
  | Num.Fin _ _ e => (0 <=? e)%Z
  | Num.Inf _ => true
  | Num.NaN => false
  end.

Fixpoint keys_eqb (l1 l2 : list string) : bool :=
  match l1, l2 with
  | [], [] => true
  | a :: r1, b :: r2 => String.eqb a b && keys_eqb r1 r2
  | _, _ => false
  end.

(** [r] has the native type the annotation names: a string, a number that
    is not [NaN], a number with no digit after the point, a boolean, an
    array, or one of the options of an enumeration; an annotation with no
    [type:] prefix or of another kind asks nothing. *)
Definition leaf_conforms (annotation : string) (r : JsVal) : bool :=
  if negb (Str.startsWith "type:" annotation) then true
  else
    let kind := Str.toLowerCase (type_name annotation) in
    if is_one_of kind ["string"; "str"] then
      match r with VStr _ => true | _ => false end
    else if is_one_of kind ["number"; "float"] then
      match r with VNum n => negb (Num.isNaN n) | _ => false end
    else if is_one_of kind ["integer"; "int"] then
      match r with VNum n => is_integer n | _ => false end
    else if is_one_of kind ["boolean"; "bool"] then
      match r with VBool _ => true | _ => false end
    else if is_one_of kind ["array"; "list"] then
      match r with VArr _ => true | _ => false end
    else if Str.startsWith "enum[" (type_name annotation) then
      Js.includes (enum_values (type_name annotation)) r
    else true.

(** [r] has the shape of [schema]: an object with the declared keys in the
    declared order and values of the shape of their nodes, an array of
    values of the shape of the first element of an array node, a leaf of the
    type of its annotation. *)
Fixpoint conforms (r schema : JsVal) : bool :=
  match schema with
  | VStr annotation => leaf_conforms annotation r
  | VArr elems =>
      match r with
      | VArr items =>
          match elems with
          | first :: _ => forallb (fun item => conforms item first) items
          | [] => true
          end
      | _ => false
      end
  | VObj entries =>
      match r with
      | VObj fields =>
          keys_eqb (map fst fields) (map fst entries)
          && (fix all (es : list (string * JsVal)) : bool :=
                match es with
                | [] => true
                | (key, node) :: rest =>
                    conforms (Js.get r key) node && all rest
                end) entries
      | _ => false
      end
  | _ => true
  end.

Module SampleShapes.

Definition team_schema : JsVal :=
  VObj [("team", VStr "type:string");
        ("members",
         VArr [VObj [("name", VStr "type:string");
                     ("age", VStr "type:int");
                     ("role", VStr "type:enum[dev, ops]");
                     ("active", VStr "type:bool")]])].

Definition team_data : JsVal :=
  VObj [("members",
         VArr [VObj [("active", VStr "TRUE"); ("role", VStr "ops");
                     ("age", VStr "41 years"); ("name", VStr "Ada");
                     ("extra", VNull)]]);
        ("team", VNum (Num.of_Z 7))].

Definition team_result : JsVal :=
  VObj [("team", VStr "7");
        ("members",
         VArr [VObj [("name", VStr "Ada");
                     ("age", VNum (Num.of_Z 41));
                     ("role", VStr "ops");
                     ("active", VBool true)]])].

End SampleShapes.


(* ------------------------------------------------------------------ *)
(** ** Fields and elements that pass or fail *)
(* ------------------------------------------------------------------ *)

(** The declared field [kv] is present in [data] and its value validates. *)
Definition field_passes {host : Host} (data : JsVal) (kv : string * JsVal)
  : Prop :=
  Js.has_property data (fst kv) = true
  /\ exists v, _validateSchema (Js.get data (fst kv)) (snd kv) = Ok v.

(** The declared field [key] is absent from [data], or its value is refused;
    [e] is the error raised. *)
Definition field_fails {host : Host} (data : JsVal) (key : string)
  (node : JsVal) (e : JsError) : Prop :=
  (Js.has_property data key = false
   /\ e = mkError Error ("Missing required field: " ++ key))
  \/ (Js.has_property data key = true
      /\ _validateSchema (Js.get data key) node = Throw e).

Definition element_passes {host : Host} (node item : JsVal) : Prop :=
  exists v, _validateSchema item node = Ok v.

Module SampleOrder.

Definition schema : JsVal :=
  VObj [("name", VStr "type:string"); ("age", VStr "type:integer")].

Definition fields : list (string * JsVal) :=
  [("name", VStr "Ada"); ("age", VStr "36"); ("city", VStr "London")].

Definition shuffled : list (string * JsVal) :=
  [("city", VStr "London"); ("age", VStr "36"); ("name", VStr "Ada")].

Definition pairs_schema : JsVal := VArr [VStr "type:integer"; VStr "type:boolean"].

End SampleOrder.


(* ------------------------------------------------------------------ *)
(** ** A generator with another delimiter *)
(* ------------------------------------------------------------------ *)

Definition with_delimiter (this : JsonGenerator) (d : string)
  : JsonGenerator :=
  {| apiKey := apiKey this;
     model := model this;
     referer := referer this;
     appName := appName this;
     maxRetries := maxRetries this;
     delimiter := d |}.

(** The text of the prompt that shows [example_text] as the value of the
    field at [path] and [key]. *)
Definition example_text_entry (path key : string) : string :=
  currentPath path key ++ "=" ++ Str.dquote ++ "example_text" ++ Str.dquote.


(* ------------------------------------------------------------------ *)
(** * Properties *)
(* ------------------------------------------------------------------ *)

(** ** The prompt of a schema *)

Lemma formatField_ok (example v : JsVal) :
  is_schema_node v = true ->
  forall key path, exists s, formatField example key v path = Ok s.
Proof.
  induction v using JsVal_ind; simpl; try discriminate; intros Hs key path.
  - destruct (Str.startsWith "type:" s); [|eauto].
    destruct (Str.startsWith "enum[" (type_name s)); eauto.
  - eauto.
  - set (here := currentPath path key). clearbody here.
    assert (Hparts : exists parts,
      (fix each (es : list (string * JsVal)) : Result (list string) :=
         match es with
         | [] => Ok []
         | (k, v) :: rest =>
             p <- formatField example k v here ;;
             ps <- each rest ;; Ok (p :: ps)
         end) entries = Ok parts).
    { induction entries as [|[k v] rest IH]; [eauto|].
      apply andb_prop in Hs. destruct Hs as [Hv Hrest].
      inversion H as [|? ? Hhead Htail]; subst. simpl in Hhead.
      destruct (Hhead Hv k here) as [p Hp]. rewrite Hp. simpl.
      destruct (IH Htail Hrest) as [ps Hps]. rewrite Hps. simpl. eauto. }
    destruct Hparts as [parts Hparts]. rewrite Hparts. simpl. eauto.
Qed.

Lemma createStructuredPrompt_ok (example : JsVal) (userPrompt : string)
  (schema : JsVal) :
  is_schema schema = true ->
  exists s, _createStructuredPrompt example userPrompt schema = Ok s.
Proof.
  destruct schema as [| | | | |items|entries]; try discriminate.
  destruct entries as [|kv0 rest0]; [discriminate|].
  unfold is_schema. generalize (kv0 :: rest0). clear kv0 rest0.
  intros entries Hs. unfold _createStructuredPrompt. simpl.
  assert (Hparts : exists parts,
    map_result (fun kv => formatField example (fst kv) (snd kv) EmptyString)
      entries = Ok parts).
  { induction entries as [|[k v] rest IH]; simpl; [eauto|].
    simpl in Hs. apply andb_prop in Hs. destruct Hs as [Hv Hrest].
    destruct (formatField_ok example v Hv k EmptyString) as [p Hp].
    rewrite Hp. simpl. destruct (IH Hrest) as [ps Hps]. rewrite Hps.
    simpl. eauto. }
  destruct Hparts as [parts Hparts]. rewrite Hparts. simpl. eauto.
Qed.

(** ** The schema-less path of [generate] *)

(** C1: with an empty schema (the default [{}], given or left out) [generate]
    calls [this._makeRequest], which the class does not define: it rejects
    with a [TypeError] and sends no request, whatever the endpoint, the
    prompt and the system prompt are. *)
Theorem generate_without_schema_rejects :
  forall (host : Host) (this : JsonGenerator) (endpoint : Endpoint)
    (prompt : string) (systemPrompt : option string)
    (validators : list Validator) (trace : list Request),
    generate this endpoint
      {| prompt := prompt; schema := VObj [];
         systemPrompt := systemPrompt; customValidators := validators |}
      trace
    = (Throw (mkError TypeError "this._makeRequest is not a function"), trace)
    /\
    generate this endpoint
      {| prompt := prompt; schema := VUndefined;
         systemPrompt := systemPrompt; customValidators := validators |}
      trace
    = (Throw (mkError TypeError "this._makeRequest is not a function"), trace).
Proof. intros. split; reflexivity. Qed.

(** ** The field named by a coercion error *)

Lemma validateSchema_object_eq {host : Host} (data : JsVal)
  (entries : list (string * JsVal)) :
  _validateSchema data (VObj entries)
  = if Js.is_object data
    then validate_fields _validateSchema data entries []
    else Throw (mkError Error "Expected an object").
Proof. destruct data; reflexivity. Qed.

Lemma occurs_in_middle (a key b : string) : occurs_in key (a ++ key ++ b).
Proof. exists a, b. reflexivity. Qed.

Lemma field_error_names_key (key what : string) :
  occurs_in key (message (field_error key what)).
Proof.
  unfold field_error. simpl.
  exists ("Field " ++ Str.dquote), (Str.dquote ++ " must be " ++ what).
  reflexivity.
Qed.

(** Called directly, [_validateType] names the field it was given. *)
Lemma validateType_error_names_key {host : Host} (value : JsVal)
  (type key : string) (e : JsError) :
  _validateType value type key = Throw e -> occurs_in key (message e).
Proof.
  unfold _validateType.
  repeat match goal with
         | |- context [if ?b then _ else _] => destruct b
         | |- context [match ?x with _ => _ end] => destruct x
         end;
    intros Heq; inversion Heq; subst; try apply field_error_names_key.
Qed.

(** Reached through [_validateSchema], the error of a leaf does not depend
    on the name of the field. *)
Lemma validateSchema_error_ignores_key {host : Host} (k1 k2 : string)
  (value : JsVal) (annotation : string) (e : JsError) :
  _validateSchema (VObj [(k1, value)]) (VObj [(k1, VStr annotation)]) = Throw e ->
  _validateSchema (VObj [(k2, value)]) (VObj [(k2, VStr annotation)]) = Throw e.
Proof.
  rewrite !validateSchema_object_eq. simpl.
  unfold Js.has_property, Js.get. simpl. rewrite !String.eqb_refl. simpl.
  destruct (if Str.startsWith "type:" annotation
            then _validateType value annotation "field"
            else Ok value); simpl; [discriminate|auto].
Qed.

(** C2: reached through [_validateSchema], a failing coercion is reported
    for a field called [field]: with the schema [{age: 'type:integer'}] and
    the data [{age: 'abc'}] the message does not mention [age], while the
    direct call with the key [age] does. *)
Theorem validateSchema_error_names_placeholder :
  forall host : Host,
    _validateSchema (VObj [("age", VStr "abc")])
      (VObj [("age", VStr "type:integer")])
    = Throw (field_error "field" "an integer")
    /\ Str.contains "age" (message (field_error "field" "an integer")) = false
    /\ _validateType (VStr "abc") "type:integer" "age"
       = Throw (field_error "age" "an integer")
    /\ Str.contains "age" (message (field_error "age" "an integer")) = true.
Proof. intros. repeat split; reflexivity. Qed.

(** ** The retry loop of [generate] *)

Lemma append_empty_r (s : string) : s ++ EmptyString = s.
Proof. induction s; simpl; congruence. Qed.

Lemma append_assoc (a b c : string) : (a ++ b) ++ c = a ++ b ++ c.
Proof. induction a; simpl; congruence. Qed.

Lemma constructor_maxRetries (c : Config) (this : JsonGenerator) :
  constructor c = Ok this ->
  maxRetries this = default (cfg_maxRetries c) 3%Z.
Proof.
  unfold constructor.
  destruct (cfg_apiKey c) as [[|a k]|]; intros Heq; inversion Heq; reflexivity.
Qed.

Section RetryLoop.

Context {host : Host}.
Variables (this : JsonGenerator) (endpoint : Endpoint).
Variables (schema : JsVal) (validators : list Validator).
Variables final user : string.

Let body := attempt_body this endpoint schema validators final user.
Let loop := attempts this endpoint schema validators final user.

Let request := request_of this final user.

Lemma attempt_body_trace lastError trace outcome trace' :
  body lastError trace = (outcome, trace') ->
  trace' = (trace ++ [request lastError])%list.
Proof.
  unfold body, attempt_body, send, request. intros Heq. inversion Heq.
  reflexivity.
Qed.

Lemma attempt_body_success lastError trace result trace' :
  body lastError trace = (Ok result, trace') ->
  exists content parsed,
    endpoint (List.length trace) (request lastError) = FetchOk content
    /\ JSON_parse (_cleanJsonString content) = Ok parsed
    /\ _validateSchema parsed schema = Ok result
    /\ run_validators validators result = Ok tt.
Proof.
  unfold body, attempt_body, send, request.
  destruct (endpoint (List.length trace) (request_of this final user lastError))
    as [e|m st|content]; simpl; intros Heq; try discriminate.
  injection Heq as Hres _.
  destruct (JSON_parse (_cleanJsonString content)) as [parsed|e] eqn:Hparse;
    simpl in Hres; [|discriminate].
  destruct (_validateSchema parsed schema) as [validated|e] eqn:Hvalid;
    simpl in Hres; [|discriminate].
  destruct (run_validators validators validated) as [[]|e] eqn:Hval;
    simpl in Hres; [|discriminate].
  injection Hres as <-. exists content, parsed. auto.
Qed.

Lemma system_content_carries_error (e : string) :
  occurs_in e (system_content final (Some e)).
Proof.
  unfold system_content. destruct e as [|c r].
  - exists final, EmptyString. reflexivity.
  - exists (final ++ Str.newline ++ "Previous error: "), EmptyString.
    rewrite append_empty_r, !append_assoc. reflexivity.
Qed.

Lemma attempts_zero attempt lastError trace :
  loop 0 attempt lastError trace = (Ok VUndefined, trace).
Proof. reflexivity. Qed.

Lemma attempts_step n attempt lastError trace :
  loop (S n) attempt lastError trace
  = match body lastError trace with
    | (Ok result, trace) => (Ok result, trace)
    | (Throw error, trace) =>
        if (attempt =? maxRetries this - 1)%Z then (Throw error, trace)
        else loop n (attempt + 1)%Z (Some (message error)) trace
    end.
Proof. reflexivity. Qed.

Lemma attempts_all_fail n lastError trace e trace' :
  all_fail this endpoint schema validators final user n lastError trace e trace' ->
  forall attempt, (attempt + Z.of_nat n = maxRetries this)%Z ->
    loop n attempt lastError trace = (Throw e, trace').
Proof.
  induction 1 as [lastError trace e trace' Hbody
                 |n lastError trace e trace' e' trace'' Hbody Hrest IH];
    intros attempt Hsum; rewrite attempts_step; fold body in Hbody;
    rewrite Hbody.
  - replace (attempt =? maxRetries this - 1)%Z with true; [reflexivity|].
    symmetry. apply Z.eqb_eq. lia.
  - replace (attempt =? maxRetries this - 1)%Z with false.
    + apply IH. lia.
    + symmetry. apply Z.eqb_neq. lia.
Qed.

Lemma attempts_third_succeeds e1 e2 result t0 t1 t2 t3 :
  (3 <= maxRetries this)%Z ->
  body None t0 = (Throw e1, t1) ->
  body (Some (message e1)) t1 = (Throw e2, t2) ->
  body (Some (message e2)) t2 = (Ok result, t3) ->
  loop (Z.to_nat (maxRetries this)) 0%Z None t0 = (Ok result, t3).
Proof.
  intros Hmax H1 H2 H3.
  destruct (Z.to_nat (maxRetries this)) as [|[|[|m]]] eqn:Hn; try lia.
  rewrite attempts_step, H1.
  replace (0 =? maxRetries this - 1)%Z with false
    by (symmetry; apply Z.eqb_neq; lia).
  rewrite attempts_step, H2.
  replace (0 + 1 =? maxRetries this - 1)%Z with false
    by (symmetry; apply Z.eqb_neq; lia).
  rewrite attempts_step, H3. reflexivity.
Qed.

End RetryLoop.

Lemma generate_enters_loop {host : Host} (this : JsonGenerator)
  (endpoint : Endpoint) (p : GenerateParams) (trace : list Request) :
  is_schema (schema p) = true ->
  exists user,
    _createStructuredPrompt default_example (prompt p) (schema p) = Ok user
    /\ generate this endpoint p trace
       = attempts this endpoint (schema p) (customValidators p)
           (string_or (systemPrompt p) (baseSystemPrompt (schema p))) user
           (Z.to_nat (maxRetries this)) 0%Z None trace.
Proof.
  intros Hs.
  destruct (createStructuredPrompt_ok default_example (prompt p) _ Hs)
    as [user Huser].
  exists user. split; [assumption|].
  unfold generate. destruct (schema p) as [| | | | |items|entries] eqn:Hsch;
    try discriminate.
  destruct entries as [|kv rest]; [discriminate|].
  simpl Js.Object_keys. cbv iota. simpl List.length. simpl Nat.eqb. cbv iota.
  rewrite Huser. reflexivity.
Qed.

(** C10: a generator built with [maxRetries <= 0] runs the loop body no
    time: for every schema with at least one field [generate] resolves to
    [undefined] and leaves the trace of requests as it found it, whatever the
    endpoint and the validators are. *)
Theorem generate_without_attempts :
  forall (host : Host) (c : Config) (this : JsonGenerator) (n : Z)
    (endpoint : Endpoint) (p : GenerateParams) (trace : list Request),
    constructor c = Ok this ->
    cfg_maxRetries c = Some n ->
    (n <= 0)%Z ->
    is_schema (schema p) = true ->
    generate this endpoint p trace = (Ok VUndefined, trace).
Proof.
  intros host c this n endpoint p trace Hnew Hcfg Hn Hs.
  destruct (generate_enters_loop this endpoint p trace Hs) as [user [_ Hgen]].
  rewrite Hgen. rewrite (constructor_maxRetries c this Hnew), Hcfg. simpl.
  replace (Z.to_nat n) with 0 by lia. reflexivity.
Qed.

(** C3: for a schema with at least one field, when attempts 1 and 2 fail
    and attempt 3 succeeds (with [maxRetries] at least 3, its default),
    [generate] returns the result of attempt 3, which is the validated
    content the endpoint sent, and the system message of attempt 3 contains
    the message of the error of attempt 2; when all [maxRetries] attempts
    fail, [generate] rejects with the error of the last one. *)
Theorem generate_retries :
  forall (host : Host) (this : JsonGenerator) (endpoint : Endpoint)
    (p : GenerateParams) (t0 : list Request),
    is_schema (schema p) = true ->
    exists user,
      _createStructuredPrompt default_example (prompt p) (schema p) = Ok user
      /\
      let final := string_or (systemPrompt p) (baseSystemPrompt (schema p)) in
      let body :=
        attempt_body this endpoint (schema p) (customValidators p) final user in
      (forall e1 e2 result t1 t2 t3,
          (3 <= maxRetries this)%Z ->
          body None t0 = (Throw e1, t1) ->
          body (Some (message e1)) t1 = (Throw e2, t2) ->
          body (Some (message e2)) t2 = (Ok result, t3) ->
          generate this endpoint p t0 = (Ok result, t3)
          /\ (exists content parsed,
                 endpoint (List.length t2)
                   (request_of this final user (Some (message e2)))
                 = FetchOk content
                 /\ JSON_parse (_cleanJsonString content) = Ok parsed
                 /\ _validateSchema parsed (schema p) = Ok result)
          /\ t3 = (t2 ++ [request_of this final user (Some (message e2))])%list
          /\ occurs_in (message e2)
               (req_system (request_of this final user (Some (message e2)))))
      /\
      (forall n e t',
          maxRetries this = Z.of_nat n ->
          all_fail this endpoint (schema p) (customValidators p) final user
            n None t0 e t' ->
          generate this endpoint p t0 = (Throw e, t')).
Proof.
  intros host this endpoint p t0 Hs.
  destruct (generate_enters_loop this endpoint p t0 Hs) as [user [Huser Hgen]].
  exists user. split; [assumption|]. intros final body. split.
  - intros e1 e2 result t1 t2 t3 Hmax H1 H2 H3. rewrite Hgen.
    split; [|split; [|split]].
    + eapply attempts_third_succeeds; eassumption.
    + destruct (attempt_body_success _ _ _ _ _ _ _ _ _ _ H3)
        as [content [parsed [Hfetch [Hparse [Hvalid _]]]]].
      exists content, parsed. auto.
    + eapply attempt_body_trace. exact H3.
    + simpl. apply system_content_carries_error.
  - intros n e t' Hmax Hall. rewrite Hgen, Hmax, Nat2Z.id.
    eapply attempts_all_fail; [exact Hall|lia].
Qed.

Lemma generate_without_attempts_witness :
  generate (host := Sample.host) (Sample.generator 0) Sample.recovering
    Sample.params []
  = (Ok VUndefined, []).
Proof.
  apply (generate_without_attempts Sample.host (Sample.config (Some 0%Z))
           (Sample.generator 0) 0%Z Sample.recovering Sample.params []).
  - reflexivity.
  - reflexivity.
  - lia.
  - reflexivity.
Defined.

Lemma generate_retries_witness :
  generate (host := Sample.host) (Sample.generator 3) Sample.recovering
    Sample.params []
  = (Ok Sample.validated_person, Sample.requests)
  /\ generate (host := Sample.host) (Sample.generator 3) Sample.failing
       Sample.params []
     = (Throw Sample.too_many_requests, Sample.requests).
Proof.
  split.
  - destruct (generate_retries Sample.host (Sample.generator 3)
                Sample.recovering Sample.params [] eq_refl)
      as [user [Huser [Hthird _]]].
    vm_compute in Huser. injection Huser as <-.
    refine (proj1 (Hthird Sample.unexpected_token Sample.too_many_requests
                     Sample.validated_person
                     (firstn 1 Sample.requests) (firstn 2 Sample.requests)
                     Sample.requests _ _ _ _)).
    + simpl. lia.
    + vm_compute. reflexivity.
    + vm_compute. reflexivity.
    + vm_compute. reflexivity.
  - destruct (generate_retries Sample.host (Sample.generator 3)
                Sample.failing Sample.params [] eq_refl)
      as [user [Huser [_ Hlast]]].
    vm_compute in Huser. injection Huser as <-.
    apply (Hlast 3%nat).
    + reflexivity.
    + apply all_fail_next with (e := Sample.unexpected_token)
                               (trace' := firstn 1 Sample.requests);
        [vm_compute; reflexivity|].
      apply all_fail_next with (e := Sample.too_many_requests)
                               (trace' := firstn 2 Sample.requests);
        [vm_compute; reflexivity|].
      apply all_fail_last. vm_compute. reflexivity.
Defined.

(** ** The wrapped template *)

Lemma existsb_eqb_In (k : string) (l : list string) :
  existsb (String.eqb k) l = true <-> In k l.
Proof.
  rewrite existsb_exists. split.
  - intros [x [Hin Heq]]. apply String.eqb_eq in Heq. subst. assumption.
  - intros Hin. exists k. split; [assumption|apply String.eqb_refl].
Qed.

Lemma distinct_NoDup (l : list string) : distinct l = true <-> NoDup l.
Proof.
  induction l as [|k r IH]; simpl.
  - split; [constructor|reflexivity].
  - rewrite andb_true_iff, negb_true_iff, IH. split.
    + intros [Hk Hr]. constructor; [|assumption].
      intros Hin. apply existsb_eqb_In in Hin. congruence.
    + intros Hnd. inversion Hnd as [|? ? Hk Hr]; subst. split; [|assumption].
      destruct (existsb (String.eqb k) r) eqn:He; [|reflexivity].
      apply existsb_eqb_In in He. contradiction.
Qed.

Lemma length_append (a b : string) :
  String.length (a ++ b) = String.length a + String.length b.
Proof. induction a; simpl; congruence. Qed.

Lemma append_inv_head (a x y : string) : a ++ x = a ++ y -> x = y.
Proof. induction a; simpl; intros H; [assumption|]. inversion H. auto. Qed.

Lemma append_inv_tail (b x y : string) : x ++ b = y ++ b -> x = y.
Proof.
  revert y. induction x as [|c x IH]; intros [|d y] H; simpl in H.
  - reflexivity.
  - apply (f_equal String.length) in H. simpl in H.
    rewrite length_append in H. lia.
  - apply (f_equal String.length) in H. simpl in H.
    rewrite length_append in H. lia.
  - inversion H. f_equal. auto.
Qed.

Lemma wrappedKey_injective (this : JsonGenerator) (level : nat)
  (k1 k2 : string) :
  wrappedKey this level k1 = wrappedKey this level k2 -> k1 = k2.
Proof.
  unfold wrappedKey. intros H. apply append_inv_head in H.
  apply append_inv_tail in H. assumption.
Qed.

Lemma define_fresh (es : list (string * JsVal)) (key : string) (v : JsVal) :
  ~ In key (map fst es) -> Js.define es key v = (es ++ [(key, v)])%list.
Proof.
  induction es as [|[k w] r IH]; simpl; intros Hfresh; [reflexivity|].
  destruct (String.eqb key k) eqn:Heq.
  - apply String.eqb_eq in Heq. subst. tauto.
  - rewrite IH; [reflexivity|tauto].
Qed.

Lemma obj_set_defines (es : list (string * JsVal)) (key : string) (v : JsVal) :
  key <> "__proto__" -> Js.obj_set es key v = Js.define es key v.
Proof.
  intros Hne. unfold Js.obj_set.
  destruct (String.eqb key "__proto__") eqn:Heq; [|reflexivity].
  apply String.eqb_eq in Heq. contradiction.
Qed.

Lemma obj_set_fresh (es : list (string * JsVal)) (key : string) (v : JsVal) :
  key <> "__proto__" ->
  ~ In key (map fst es) -> Js.obj_set es key v = (es ++ [(key, v)])%list.
Proof.
  intros Hne Hfresh. rewrite obj_set_defines by assumption.
  apply define_fresh. assumption.
Qed.

Lemma ordinary_key_proto (key : string) :
  ordinary_key key = true -> key <> "__proto__".
Proof.
  unfold ordinary_key. intros H ->. discriminate H.
Qed.

Lemma repeat_begins (d : string) (n : nat) (rest : string) (c : ascii)
  (d' : string) :
  d = String c d' ->
  exists tail, Str.repeat d (S n) ++ rest = String c tail.
Proof. intros ->. simpl. eexists. reflexivity. Qed.

Lemma ordinary_start_key (c : ascii) (tail : string) :
  ordinary_start c = true -> ordinary_key (String c tail) = true.
Proof.
  unfold ordinary_start, ordinary_key. rewrite !andb_true_iff, !negb_true_iff.
  intros [Hdigit Hunder]. split.
  - simpl. now rewrite Hunder.
  - simpl. now rewrite Hdigit.
Qed.

(** With a delimiter that begins with a character that is neither a digit
    nor the underscore, every key of a template is ordinary from depth 1
    on. *)
Lemma ordinary_start_wrapped (d : string) (schema : JsVal) :
  begins_with ordinary_start d = true ->
  forall level, 1 <= level -> ordinary_wrapped_keys d level schema = true.
Proof.
  intros Hd. destruct d as [|c d']; [discriminate|]. simpl in Hd.
  induction schema as [| | | | |items IH|entries IH] using JsVal_ind;
    intros level Hlevel; try reflexivity.
  - simpl. apply forallb_forall. intros item Hin.
    rewrite Forall_forall in IH. apply IH; [assumption|lia].
  - simpl. induction entries as [|[k v] rest IHrest]; [reflexivity|].
    inversion IH as [|? ? Hv Hrest]; subst. simpl in Hv.
    destruct level as [|n]; [lia|].
    destruct (repeat_begins (String c d') n (k ++ Str.repeat (String c d') (S n))
                c d' eq_refl) as [tail Htail].
    rewrite Htail, (ordinary_start_key c tail Hd).
    rewrite (Hv (S (S n))) by lia. simpl. apply IHrest. assumption.
Qed.

Section WrapFormat.

Variable this : JsonGenerator.

Let entry : nat -> string * JsVal -> string * JsVal :=
  template_entry (delimiter this).

Lemma wrapped_template_entries (level : nat) (es : list (string * JsVal)) :
  (fix each (es : list (string * JsVal)) :=
     match es with
     | [] => []
     | (key, value) :: rest =>
         (Str.repeat (delimiter this) level ++ key
            ++ Str.repeat (delimiter this) level,
          wrapped_template (delimiter this) (S level) value) :: each rest
     end) es
  = map (entry level) es.
Proof. induction es as [|[k v] r IH]; simpl; [reflexivity|]. now rewrite IH. Qed.

Lemma ordinary_wrapped_entries (level : nat) (es : list (string * JsVal)) :
  (fix all (es : list (string * JsVal)) : bool :=
     match es with
     | [] => true
     | (key, value) :: rest =>
         ordinary_key
           (Str.repeat (delimiter this) level ++ key
              ++ Str.repeat (delimiter this) level)
         && ordinary_wrapped_keys (delimiter this) (S level) value
         && all rest
     end) es = true ->
  Forall (fun kv =>
            ordinary_key (wrappedKey this level (fst kv)) = true
            /\ ordinary_wrapped_keys (delimiter this) (S level) (snd kv)
               = true) es.
Proof.
  induction es as [|[k v] r IH]; intros H; constructor.
  - apply andb_prop in H. destruct H as [H _]. apply andb_prop in H.
    exact H.
  - apply IH. apply andb_prop in H. tauto.
Qed.

Lemma wrapFormat_entries (level : nat) (es done : list (string * JsVal)) :
  NoDup (map fst (done ++ es)) ->
  Forall (fun kv => ordinary_key (wrappedKey this level (fst kv)) = true) es ->
  Forall (fun kv => _wrapFormat this (snd kv) (level + 1)
                    = wrapped_template (delimiter this) (S level) (snd kv)) es ->
  (fix each (es wrapped : list (string * JsVal)) :=
     match es with
     | [] => wrapped
     | (key, value) :: rest =>
         each rest
           (Js.obj_set wrapped (wrappedKey this level key)
              (_wrapFormat this value (level + 1)))
     end) es (map (entry level) done)
  = map (entry level) (done ++ es).
Proof.
  revert done. induction es as [|[k v] r IH]; intros done Hnd Hord Hall.
  - now rewrite app_nil_r.
  - inversion Hall as [|? ? Hv Hr]; subst. simpl in Hv.
    inversion Hord as [|? ? Hk Hrest]; subst. simpl in Hk.
    rewrite obj_set_fresh.
    + rewrite Hv.
      change (map (entry level) done
                ++ [(wrappedKey this level k,
                     wrapped_template (delimiter this) (S level) v)])%list
        with (map (entry level) done ++ map (entry level) [(k, v)])%list.
      rewrite <- map_app. rewrite IH.
      * now rewrite <- app_assoc.
      * now rewrite <- app_assoc.
      * assumption.
      * assumption.
    + apply ordinary_key_proto. assumption.
    + rewrite map_map. simpl. intros Hin. apply in_map_iff in Hin.
      destruct Hin as [[k' v'] [Hk' Hin]]. simpl in Hk'.
      apply wrappedKey_injective in Hk'. subst k'.
      rewrite map_app in Hnd. simpl in Hnd.
      apply NoDup_remove_2 in Hnd. apply Hnd. apply in_or_app. left.
      apply in_map_iff. exists (k, v'). auto.
Qed.

Lemma unique_keys_entries (es : list (string * JsVal)) :
  (fix all (es : list (string * JsVal)) : bool :=
     match es with
     | [] => true
     | (_, x) :: r => unique_keys x && all r
     end) es = true ->
  Forall (fun kv => unique_keys (snd kv) = true) es.
Proof.
  induction es as [|[k v] r IH]; intros H; constructor.
  - apply andb_prop in H. tauto.
  - apply IH. apply andb_prop in H. tauto.
Qed.

Lemma wrapFormat_refines (schema : JsVal) :
  unique_keys schema = true ->
  forall level,
    ordinary_wrapped_keys (delimiter this) level schema = true ->
    _wrapFormat this schema level
    = wrapped_template (delimiter this) level schema.
Proof.
  induction schema as [| | | | |items IH|entries IH] using JsVal_ind;
    intros Hu level Hord; try reflexivity.
  - simpl. f_equal. simpl in Hu, Hord. rewrite forallb_forall in Hu, Hord.
    apply map_ext_in. intros item Hin. rewrite Forall_forall in IH.
    rewrite Nat.add_1_r.
    rewrite <- (IH item Hin (Hu item Hin) (S level) (Hord item Hin)).
    reflexivity.
  - simpl in Hu. apply andb_prop in Hu. destruct Hu as [Hd Hvals].
    apply distinct_NoDup in Hd. apply unique_keys_entries in Hvals.
    apply ordinary_wrapped_entries in Hord.
    change (_wrapFormat this (VObj entries) level)
      with (VObj ((fix each (es wrapped : list (string * JsVal)) :=
                     match es with
                     | [] => wrapped
                     | (key, value) :: rest =>
                         each rest
                           (Js.obj_set wrapped (wrappedKey this level key)
                              (_wrapFormat this value (level + 1)))
                     end) entries (map (entry level) []))).
    rewrite wrapFormat_entries.
    + simpl. f_equal. symmetry. apply wrapped_template_entries.
    + assumption.
    + rewrite Forall_forall in *. intros kv Hin. apply Hord. assumption.
    + rewrite Forall_forall in *. intros kv Hin.
      rewrite Nat.add_1_r. apply IH; auto. apply Hord. assumption.
Qed.

End WrapFormat.

(** C7 does not hold as the specification states it: with the delimiter [__] the key
    [proto] is rewritten to [__proto__], and assigning to that key of the
    object under construction calls the setter of its prototype: the
    template has no property of that name. *)
Lemma wrapFormat_proto_counterexample :
  ~ (forall (this : JsonGenerator) (schema : JsVal),
        unique_keys schema = true ->
        _wrapFormat this schema 1
        = wrapped_template (delimiter this) 1 schema).
Proof.
  intros claim.
  specialize (claim SampleTemplate.underscores SampleTemplate.proto_schema
                eq_refl).
  vm_compute in claim. discriminate claim.
Qed.

(** C7, amended: for every schema tree (the keys of an object being
    pairwise different) none of whose rewritten keys is [__proto__] or is
    written with digits only, [_wrapFormat] builds the template of the
    specification: each key between [level] copies of the delimiter on both
    sides, the level being 1 at the root and one more in every nested
    object; the elements of an array one level deeper, with no key wrapped
    for the array; every leaf annotation between angle brackets. This is so
    for every schema tree when the delimiter begins with a character that
    is neither a digit nor the underscore, as the default [###] does. *)
Theorem wrapFormat_template :
  forall (this : JsonGenerator) (schema : JsVal),
    unique_keys schema = true ->
    (forall level,
        ordinary_wrapped_keys (delimiter this) level schema = true ->
        _wrapFormat this schema level
        = wrapped_template (delimiter this) level schema)
    /\ (begins_with ordinary_start (delimiter this) = true ->
        forall level,
          1 <= level ->
          _wrapFormat this schema level
          = wrapped_template (delimiter this) level schema)
    /\ (forall annotation level,
          _wrapFormat this (VStr annotation) level
          = VStr ("<" ++ annotation ++ ">")).
Proof.
  intros this schema Hu. split; [|split].
  - intros level Hord. apply wrapFormat_refines; assumption.
  - intros Hd level Hlevel. apply wrapFormat_refines; [assumption|].
    apply ordinary_start_wrapped; assumption.
  - reflexivity.
Qed.

Lemma wrapFormat_template_witness :
  _wrapFormat (Sample.generator 3) SampleTemplate.nested_schema 1
  = SampleTemplate.nested_template.
Proof.
  rewrite (proj1 (proj2 (wrapFormat_template (Sample.generator 3)
                           SampleTemplate.nested_schema eq_refl))
             eq_refl 1 (le_n 1)).
  reflexivity.
Defined.

(** ** Objects validated against an object schema *)

Lemma define_keys (es : list (string * JsVal)) (key : string) (v : JsVal)
  (x : string) :
  In x (map fst (Js.define es key v)) <-> In x (map fst es) \/ x = key.
Proof.
  induction es as [|[k w] r IH]; simpl.
  - intuition.
  - destruct (String.eqb key k) eqn:Heq; simpl.
    + apply String.eqb_eq in Heq. subst. intuition.
    + rewrite IH. intuition.
Qed.

Lemma obj_set_keys (es : list (string * JsVal)) (key : string) (v : JsVal)
  (x : string) :
  key <> "__proto__" ->
  In x (map fst (Js.obj_set es key v)) <-> In x (map fst es) \/ x = key.
Proof.
  intros Hne. rewrite obj_set_defines by assumption. apply define_keys.
Qed.

Lemma proto_free_declared (entries : list (string * JsVal)) :
  proto_free (VObj entries) = true ->
  Forall (fun kv => fst kv <> "__proto__") entries.
Proof.
  simpl. intros H. apply andb_prop in H. destruct H as [H _].
  rewrite forallb_forall in H. apply Forall_forall. intros kv Hin Heq.
  specialize (H (fst kv) (in_map fst _ _ Hin)). rewrite Heq in H.
  discriminate H.
Qed.

Lemma proto_free_entries (entries : list (string * JsVal)) :
  proto_free (VObj entries) = true ->
  Forall (fun kv => proto_free (snd kv) = true) entries.
Proof.
  simpl. intros H. apply andb_prop in H. destruct H as [_ H].
  induction entries as [|[k v] r IH]; constructor.
  - apply andb_prop in H. tauto.
  - apply IH. apply andb_prop in H. tauto.
Qed.

(** An object or an array inherits [__proto__]. *)
Lemma inherits_proto (data : JsVal) :
  Js.is_object data = true -> Js.inherits data "__proto__" = true.
Proof. destruct data; try discriminate; reflexivity. Qed.

Lemma not_inherited_declared (data : JsVal) (entries : list (string * JsVal)) :
  Js.is_object data = true ->
  (forall key, In key (map fst entries) -> Js.inherits data key = false) ->
  Forall (fun kv => fst kv <> "__proto__") entries.
Proof.
  intros Hobj Hnone. apply Forall_forall. intros kv Hin Heq.
  specialize (Hnone (fst kv) (in_map fst _ _ Hin)).
  rewrite Heq, (inherits_proto data Hobj) in Hnone. discriminate Hnone.
Qed.

Section ValidateFields.

Variable validate : JsVal -> JsVal -> Result JsVal.
Variable data : JsVal.

Lemma validate_fields_keys es validated r :
  Forall (fun kv => fst kv <> "__proto__") es ->
  validate_fields validate data es validated = Ok r ->
  exists res,
    r = VObj res
    /\ (forall x, In x (map fst res)
                  <-> In x (map fst validated) \/ In x (map fst es))
    /\ Forall (fun kv => Js.has_property data (fst kv) = true) es.
Proof.
  revert validated. induction es as [|[k sv] rest IH]; simpl;
    intros acc Hplain H.
  - injection H as <-. exists acc. intuition.
  - destruct (Js.has_property data k) eqn:Hk; simpl in H; [|discriminate].
    destruct (validate (Js.get data k) sv) as [v|e]; simpl in H;
      [|discriminate].
    inversion Hplain as [|? ? Hkey Hrest]; subst. simpl in Hkey.
    destruct (IH _ Hrest H) as [res [Hr [Hkeys Hall]]].
    exists res. split; [assumption|]. split.
    + intros x. rewrite Hkeys, obj_set_keys by exact Hkey.
      intuition.
    + constructor; assumption.
Qed.

Lemma validate_fields_missing es validated key :
  In key (map fst es) ->
  Js.has_property data key = false ->
  exists e, validate_fields validate data es validated = Throw e.
Proof.
  revert validated. induction es as [|[k sv] rest IH]; simpl;
    intros acc Hin Hmiss; [contradiction|].
  destruct (Js.has_property data k) eqn:Hk; simpl; [|eauto].
  destruct (validate (Js.get data k) sv) as [v|e]; simpl; [|eauto].
  apply IH; [|assumption]. destruct Hin as [->|Hin]; [congruence|assumption].
Qed.

Lemma validate_fields_first_missing before key sv after validated :
  Forall (fun kv => Js.has_property data (fst kv) = true
                    /\ exists v, validate (Js.get data (fst kv)) (snd kv) = Ok v)
    before ->
  Js.has_property data key = false ->
  validate_fields validate data (before ++ (key, sv) :: after) validated
  = Throw (mkError Error ("Missing required field: " ++ key)).
Proof.
  revert validated.
  induction before as [|[k s] rest IH]; simpl; intros acc Hok Hmiss.
  - rewrite Hmiss. reflexivity.
  - inversion Hok as [|? ? [Hk [v Hv]] Hrest]; subst. simpl in Hk, Hv.
    rewrite Hk, Hv. simpl. apply IH; assumption.
Qed.

Lemma validate_fields_agree (other : JsVal) es validated :
  (forall key, In key (map fst es) ->
               Js.own_property data key = Js.own_property other key) ->
  validate_fields validate data es validated
  = validate_fields validate other es validated.
Proof.
  revert validated. induction es as [|[k sv] rest IH]; simpl;
    intros acc Hagree; [reflexivity|].
  unfold Js.has_property, Js.get. rewrite (Hagree k) by auto.
  destruct (Js.own_property other k) as [w|]; simpl; [|reflexivity].
  destruct (validate w sv) as [v|e]; simpl; [|reflexivity].
  apply IH. auto.
Qed.

End ValidateFields.

Lemma assoc_skip (key k : string) (v : JsVal)
  (es1 es2 : list (string * JsVal)) :
  key <> k ->
  Js.assoc key (es1 ++ (k, v) :: es2) = Js.assoc key (es1 ++ es2).
Proof.
  intros Hne. induction es1 as [|[k1 v1] r IH]; simpl.
  - destruct (String.eqb key k) eqn:Heq; [|reflexivity].
    apply String.eqb_eq in Heq. contradiction.
  - now rewrite IH.
Qed.

(** C4 does not hold as the specification states it: a declared key may be absent from the
    data while validation fails with another message, raised for a field
    declared before it. *)
Lemma missing_field_message_counterexample :
  ~ (forall (host : Host) (data : JsVal) (entries : list (string * JsVal))
       (key : string),
        In key (map fst entries) ->
        Js.has_property data key = false ->
        _validateSchema data (VObj entries)
        = Throw (mkError Error ("Missing required field: " ++ key))).
Proof.
  intros claim.
  specialize (claim Sample.host (VObj [("a", VStr "abc")])
                [("a", VStr "type:integer"); ("b", VStr "type:string")] "b").
  simpl in claim. specialize (claim (or_intror (or_introl eq_refl)) eq_refl).
  vm_compute in claim. discriminate claim.
Qed.

(** C4, amended: for an object schema none of whose keys names a member
    that the data inherits from its prototype ([toString], [constructor],
    [__proto__] and the like for an object, [map] and the like besides for
    an array), a successful validation returns an object whose keys are
    exactly the declared ones, every one of them being present in the data;
    if a declared key is absent validation fails, and it fails with
    [Missing required field: <key>] when the data is an object, the key is
    the first absent one and the values of the keys declared before it
    validate; a key of the data that the schema does not declare is not
    copied and changes nothing to the outcome. *)
Theorem validateSchema_declared_keys :
  forall (host : Host) (data : JsVal) (entries : list (string * JsVal)),
    (forall key, In key (map fst entries) -> Js.inherits data key = false) ->
    (forall r,
        _validateSchema data (VObj entries) = Ok r ->
        exists fields,
          r = VObj fields
          /\ (forall key, In key (map fst fields) <-> In key (map fst entries))
          /\ (forall key, In key (map fst entries) ->
                          Js.has_property data key = true))
    /\ (forall key,
          In key (map fst entries) ->
          Js.has_property data key = false ->
          exists e, _validateSchema data (VObj entries) = Throw e)
    /\ (forall before key node after,
          entries = (before ++ (key, node) :: after)%list ->
          Js.is_object data = true ->
          Js.has_property data key = false ->
          Forall (fun kv =>
                    Js.has_property data (fst kv) = true
                    /\ exists v,
                         _validateSchema (Js.get data (fst kv)) (snd kv) = Ok v)
            before ->
          _validateSchema data (VObj entries)
          = Throw (mkError Error ("Missing required field: " ++ key)))
    /\ (forall own1 own2 extra v,
          data = VObj (own1 ++ own2) ->
          ~ In extra (map fst entries) ->
          _validateSchema (VObj (own1 ++ (extra, v) :: own2)) (VObj entries)
          = _validateSchema data (VObj entries)).
Proof.
  intros host data entries Hplain. rewrite validateSchema_object_eq.
  split; [|split; [|split]].
  - intros r Hr. destruct (Js.is_object data) eqn:Hobj; [|discriminate].
    destruct (validate_fields_keys _ _ _ _ _
                (not_inherited_declared _ _ Hobj Hplain) Hr)
      as [res [Hres [Hkeys Hall]]].
    exists res. split; [assumption|]. split.
    + intros key. rewrite Hkeys. simpl. tauto.
    + intros key Hin. rewrite Forall_forall in Hall.
      apply in_map_iff in Hin. destruct Hin as [kv [<- Hin]]. auto.
  - intros key Hin Hmiss. destruct (Js.is_object data); [|eauto].
    apply validate_fields_missing with (key := key); assumption.
  - intros before key node after -> Hobj Hmiss Hok. rewrite Hobj.
    apply validate_fields_first_missing; assumption.
  - intros own1 own2 extra v -> Hextra.
    rewrite validateSchema_object_eq. simpl.
    apply validate_fields_agree. intros key Hin. simpl.
    apply assoc_skip. intros ->. contradiction.
Qed.

Lemma validateSchema_declared_keys_witness :
  (exists fields,
      Sample.validated_person = VObj fields
      /\ forall key, In key (map fst fields) <-> In key ["name"; "age"])
  /\ (exists e,
        _validateSchema (host := Sample.host) (VObj [("name", VStr "John")])
          Sample.person_schema = Throw e)
  /\ _validateSchema (host := Sample.host) (VObj [("name", VStr "John")])
       Sample.person_schema
     = Throw (mkError Error "Missing required field: age")
  /\ _validateSchema (host := Sample.host)
       (VObj [("name", VStr "John"); ("city", VStr "Oslo"); ("age", VStr "30")])
       Sample.person_schema
     = Ok Sample.validated_person.
Proof.
  assert (Hown : forall data key,
             In key ["name"; "age"] -> Js.inherits data key = false).
  { intros data key [<-|[<-|[]]]; destruct data; reflexivity. }
  pose proof (fun data =>
                validateSchema_declared_keys Sample.host data
                  [("name", VStr "type:string"); ("age", VStr "type:integer")]
                  (Hown data))
    as H.
  split; [|split; [|split]].
  - destruct (proj1 (H Sample.person) Sample.validated_person eq_refl)
      as [fields [Hr [Hkeys _]]].
    exists fields. split; [exact Hr|exact Hkeys].
  - refine (proj1 (proj2 (H (VObj [("name", VStr "John")])))
              "age" _ eq_refl).
    simpl. auto.
  - refine (proj1 (proj2 (proj2 (H (VObj [("name", VStr "John")]))))
              [("name", VStr "type:string")] "age" (VStr "type:integer") []
              eq_refl eq_refl eq_refl _).
    constructor; [|constructor]. split; [reflexivity|].
    exists (VStr "John"). reflexivity.
  - transitivity (_validateSchema (host := Sample.host) Sample.person
                    Sample.person_schema); [|reflexivity].
    apply (proj2 (proj2 (proj2 (H Sample.person)))
             [("name", VStr "John")] [("age", VStr "30")] "city"
             (VStr "Oslo") eq_refl).
    simpl. intros [Hc|[Hc|[]]]; discriminate.
Defined.

(** ** The sanitizer *)

Lemma strip_prefix_none (p s : string) :
  String.prefix p s = false -> Str.strip_prefix p s = None.
Proof.
  revert s. induction p as [|a p IH]; intros [|b s]; simpl;
    try discriminate; try reflexivity.
  destruct (Ascii.ascii_dec a b) as [->|Hne].
  - rewrite Ascii.eqb_refl. apply IH.
  - intros _. destruct (Ascii.eqb a b) eqn:Heq; [|reflexivity].
    apply Ascii.eqb_eq in Heq. contradiction.
Qed.

Lemma remove_fences_none (s : string) :
  Str.contains "```" s = false -> remove_fences 0 s = s.
Proof.
  induction s as [|c r IH]; [reflexivity|].
  intros Hc. change (Str.contains "```" (String c r))
    with (String.prefix "```" (String c r) || Str.contains "```" r) in Hc.
  apply orb_false_elim in Hc. destruct Hc as [Hp Hr].
  change (remove_fences 0 (String c r))
    with (match match_fence (String c r) with
          | Some n => remove_fences (n - 1) r
          | None => String c (remove_fences 0 r)
          end).
  unfold match_fence. rewrite (strip_prefix_none _ _ Hp).
  now rewrite IH.
Qed.

Lemma all_chars_ends_with (p : ascii -> bool) (c : ascii) (r : string) :
  Str.all_chars p (String c r) = true -> ends_with p (String c r) = true.
Proof.
  revert c. induction r as [|d r IH]; intros c H; simpl in *.
  - now rewrite andb_true_r in H.
  - apply andb_prop in H. destruct H as [_ H]. apply IH. exact H.
Qed.

Lemma drop_suffix_while_none (p : ascii -> bool) (s : string) :
  ends_with p s = false -> Str.drop_suffix_while p s = s.
Proof.
  induction s as [|c r IH]; [reflexivity|]. intros He.
  change (Str.drop_suffix_while p (String c r))
    with (if Str.all_chars p (String c r) then EmptyString
          else String c (Str.drop_suffix_while p r)).
  destruct (Str.all_chars p (String c r)) eqn:Hall.
  - apply all_chars_ends_with in Hall. congruence.
  - f_equal. destruct r as [|d r']; [reflexivity|]. apply IH. exact He.
Qed.

Lemma trimStart_none (s : string) :
  begins_with Str.is_whitespace s = false -> Str.trimStart s = s.
Proof. destruct s as [|c r]; simpl; [reflexivity|]. now intros ->. Qed.

Lemma cleanJsonString_fixes_clean (s : string) :
  is_clean s = true -> _cleanJsonString s = s.
Proof.
  unfold is_clean. rewrite !andb_true_iff, !negb_true_iff.
  intros [[[Hfence Htick] Hhead] Htail].
  unfold _cleanJsonString, remove_trailing_backticks, Str.trim, Str.trimEnd.
  rewrite (remove_fences_none s Hfence).
  rewrite (drop_suffix_while_none is_backtick s Htick).
  rewrite (trimStart_none s Hhead).
  apply drop_suffix_while_none. assumption.
Qed.

(** C5 does not hold as the specification states it: the sanitizer is not idempotent.
    Trimming can uncover a backtick, which a second pass removes. *)
Lemma cleanJsonString_not_idempotent :
  ~ (forall s, _cleanJsonString (_cleanJsonString s) = _cleanJsonString s).
Proof.
  intros claim. specialize (claim "x` "). vm_compute in claim.
  discriminate claim.
Qed.

Lemma prefix_cons (a b : ascii) (p s : string) :
  String.prefix (String a p) (String b s) = Ascii.eqb b a && String.prefix p s.
Proof.
  change (String.prefix (String a p) (String b s))
    with (if ascii_dec a b then String.prefix p s else false).
  destruct (ascii_dec a b) as [<-|Hne].
  - now rewrite Ascii.eqb_refl.
  - replace (Ascii.eqb b a) with false; [reflexivity|].
    symmetry. apply Ascii.eqb_neq. congruence.
Qed.

Lemma prefix_fence (s : string) :
  String.prefix "```" s
  = match s with
    | String a (String b (String c _)) =>
        is_backtick a && is_backtick b && is_backtick c
    | _ => false
    end.
Proof.
  unfold is_backtick.
  destruct s as [|a [|b [|c r]]]; [reflexivity|..]; rewrite !prefix_cons.
  - apply andb_false_r.
  - change (String.prefix "`" EmptyString) with false.
    now rewrite !andb_false_r.
  - replace (String.prefix EmptyString r) with true
      by (destruct r; reflexivity).
    now rewrite andb_true_r, andb_assoc.
Qed.

Lemma remove_fences_step (c : ascii) (r : string) :
  String.prefix "```" (String c r) = false ->
  remove_fences 0 (String c r) = String c (remove_fences 0 r).
Proof.
  intros Hp.
  change (remove_fences 0 (String c r))
    with (match match_fence (String c r) with
          | Some n => remove_fences (n - 1) r
          | None => String c (remove_fences 0 r)
          end).
  unfold match_fence. now rewrite (strip_prefix_none _ _ Hp).
Qed.

(** Text with no fence opener that does not end with a backtick is kept,
    whatever follows it. *)
Lemma remove_fences_append (s t : string) :
  Str.contains "```" s = false ->
  ends_with is_backtick s = false ->
  remove_fences 0 (s ++ t) = s ++ remove_fences 0 t.
Proof.
  induction s as [|c r IH]; [reflexivity|]. intros Hc He.
  change (Str.contains "```" (String c r))
    with (String.prefix "```" (String c r) || Str.contains "```" r) in Hc.
  apply orb_false_elim in Hc. destruct Hc as [Hp Hr].
  change (String c r ++ t) with (String c (r ++ t)).
  rewrite remove_fences_step.
  - change (String c r ++ remove_fences 0 t)
      with (String c (r ++ remove_fences 0 t)).
    f_equal. apply IH; [assumption|].
    destruct r as [|d r']; [reflexivity|exact He].
  - rewrite prefix_fence in *.
    destruct r as [|d [|e r']]; simpl in *.
    + rewrite He. destruct t as [|? [|? ?]]; reflexivity.
    + rewrite He. rewrite andb_false_r.
      destruct t as [|? ?]; reflexivity.
    + assumption.
Qed.

Lemma remove_fences_backticks (q r : nat) :
  r < 3 ->
  remove_fences 0 (Str.repeat "`" (3 * q + r)) = Str.repeat "`" r.
Proof.
  intros Hr. induction q as [|q IH].
  - simpl. destruct r as [|[|[|r]]]; try lia; reflexivity.
  - replace (3 * S q + r) with (S (S (S (3 * q + r)))) by lia.
    rewrite <- IH. generalize (3 * q + r). intros [|n]; reflexivity.
Qed.

Lemma all_chars_append (p : ascii -> bool) (s t : string) :
  Str.all_chars p (s ++ t) = Str.all_chars p s && Str.all_chars p t.
Proof.
  induction s as [|c r IH]; simpl; [reflexivity|].
  now rewrite IH, andb_assoc.
Qed.

Lemma all_chars_backticks (n : nat) :
  Str.all_chars is_backtick (Str.repeat "`" n) = true.
Proof. induction n; simpl; auto. Qed.

Lemma drop_suffix_while_all (p : ascii -> bool) (s : string) :
  Str.all_chars p s = true -> Str.drop_suffix_while p s = EmptyString.
Proof. destruct s; simpl; [reflexivity|]. now intros ->. Qed.

Lemma drop_suffix_while_append (p : ascii -> bool) (s t : string) :
  ends_with p s = false ->
  Str.all_chars p t = true ->
  Str.drop_suffix_while p (s ++ t) = s.
Proof.
  intros He Ht. induction s as [|c r IH].
  - apply drop_suffix_while_all. assumption.
  - change (String c r ++ t) with (String c (r ++ t)).
    change (Str.drop_suffix_while p (String c (r ++ t)))
      with (if Str.all_chars p (String c (r ++ t)) then EmptyString
            else String c (Str.drop_suffix_while p (r ++ t))).
    destruct (Str.all_chars p (String c (r ++ t))) eqn:Hall.
    + change (String c (r ++ t)) with (String c r ++ t) in Hall.
      rewrite all_chars_append in Hall. apply andb_prop in Hall.
      destruct Hall as [Hall _]. apply all_chars_ends_with in Hall.
      congruence.
    + f_equal. destruct r as [|d r'].
      * apply drop_suffix_while_all. assumption.
      * apply IH. exact He.
Qed.

Lemma trimmed_begin (s : string) :
  begins_with Str.is_whitespace (Str.trim s) = false.
Proof.
  unfold Str.trim, Str.trimEnd.
  assert (Hstart : begins_with Str.is_whitespace (Str.trimStart s) = false).
  { induction s as [|c r IH]; simpl; [reflexivity|].
    destruct (Str.is_whitespace c) eqn:Hc; [assumption|]. simpl. exact Hc. }
  destruct (Str.trimStart s) as [|c r]; [reflexivity|].
  change (Str.drop_suffix_while Str.is_whitespace (String c r))
    with (if Str.all_chars Str.is_whitespace (String c r) then EmptyString
          else String c (Str.drop_suffix_while Str.is_whitespace r)).
  destruct (Str.all_chars Str.is_whitespace (String c r)); [reflexivity|].
  exact Hstart.
Qed.

Lemma drop_suffix_while_end (p : ascii -> bool) (s : string) :
  ends_with p (Str.drop_suffix_while p s) = false.
Proof.
  induction s as [|c r IH]; [reflexivity|].
  change (Str.drop_suffix_while p (String c r))
    with (if Str.all_chars p (String c r) then EmptyString
          else String c (Str.drop_suffix_while p r)).
  destruct (Str.all_chars p (String c r)) eqn:Hall; [reflexivity|].
  destruct (Str.drop_suffix_while p r) as [|d r'] eqn:Hd.
  - simpl. destruct (p c) eqn:Hc; [|reflexivity].
    simpl in Hall. rewrite Hc in Hall. simpl in Hall.
    destruct r as [|d r']; [discriminate|].
    change (Str.drop_suffix_while p (String d r'))
      with (if Str.all_chars p (String d r') then EmptyString
            else String d (Str.drop_suffix_while p r')) in Hd.
    rewrite Hall in Hd. discriminate.
  - exact IH.
Qed.

(** C5, amended: the sanitizer drops a fence opener at the head of the text,
    with or without the tag [json], drops the backticks at the end and trims:
    a fenced block holding [{"a":1}] comes out as that text, clean text
    followed by any number of backticks comes out as the clean text, and the
    result has no white space around it; on text that is already clean (no
    fence opener, no backtick at the end, no white space around) it changes
    nothing. *)
Theorem cleanJsonString_sanitizes :
  _cleanJsonString SampleText.fenced_text = SampleText.object_text
  /\ (forall rest,
        _cleanJsonString ("```json" ++ Str.newline ++ rest)
        = _cleanJsonString rest
        /\ _cleanJsonString ("```" ++ Str.newline ++ rest)
           = _cleanJsonString rest)
  /\ (forall s,
        begins_with Str.is_whitespace (_cleanJsonString s) = false
        /\ ends_with Str.is_whitespace (_cleanJsonString s) = false)
  /\ (forall s n, is_clean s = true ->
                  _cleanJsonString (s ++ Str.repeat "`" n) = s)
  /\ (forall s, is_clean s = true -> _cleanJsonString s = s).
Proof.
  split; [reflexivity|].
  split; [intros rest; split; destruct rest; reflexivity|].
  split; [|split].
  - intros s. split.
    + apply trimmed_begin.
    + apply drop_suffix_while_end.
  - intros s n Hclean. pose proof Hclean as Hparts. unfold is_clean in Hparts.
    rewrite !andb_true_iff, !negb_true_iff in Hparts.
    destruct Hparts as [[[Hfence Htick] Hhead] Htail].
    unfold _cleanJsonString, remove_trailing_backticks.
    rewrite (remove_fences_append s _ Hfence Htick).
    rewrite (Nat.div_mod_eq n 3).
    rewrite remove_fences_backticks by (apply Nat.mod_upper_bound; lia).
    rewrite (drop_suffix_while_append is_backtick s _ Htick
               (all_chars_backticks _)).
    unfold Str.trim, Str.trimEnd. rewrite (trimStart_none s Hhead).
    apply drop_suffix_while_none. assumption.
  - apply cleanJsonString_fixes_clean.
Qed.

Lemma cleanJsonString_sanitizes_witness :
  is_clean SampleText.object_text = true
  /\ _cleanJsonString (SampleText.object_text ++ "``") = SampleText.object_text
  /\ _cleanJsonString SampleText.object_text = SampleText.object_text.
Proof.
  split; [reflexivity|]. split.
  - apply (proj1 (proj2 (proj2 (proj2 cleanJsonString_sanitizes)))
             SampleText.object_text 2 eq_refl).
  - apply (proj2 (proj2 (proj2 (proj2 cleanJsonString_sanitizes)))
             SampleText.object_text eq_refl).
Defined.

(** ** Numeric prefixes of strings *)

Lemma digit_facts (c : ascii) :
  Str.is_digit c = true ->
  Str.is_whitespace c = false
  /\ Ascii.eqb c "-"%char = false
  /\ Ascii.eqb c "+"%char = false
  /\ Ascii.eqb c "I"%char = false
  /\ is_x c = false
  /\ is_point c = false.
Proof.
  destruct c as [[] [] [] [] [] [] [] []]; intros H;
    try discriminate H; repeat split; reflexivity.
Qed.

Lemma prefix_empty (s : string) : String.prefix EmptyString s = true.
Proof. destruct s; reflexivity. Qed.

Lemma take_while_append (p : ascii -> bool) (ds rest : string) :
  Str.all_chars p ds = true ->
  begins_with p rest = false ->
  Num.take_while p (ds ++ rest) = ds.
Proof.
  intros Hds Hrest. induction ds as [|c r IH]; simpl in *.
  - destruct rest as [|d rest]; [reflexivity|]. simpl in *. now rewrite Hrest.
  - apply andb_prop in Hds. destruct Hds as [Hc Hr]. rewrite Hc.
    now rewrite IH.
Qed.

Lemma drop_while_append (p : ascii -> bool) (ds rest : string) :
  Str.all_chars p ds = true ->
  begins_with p rest = false ->
  Num.drop_while p (ds ++ rest) = rest.
Proof.
  intros Hds Hrest. induction ds as [|c r IH]; simpl in *.
  - destruct rest as [|d rest]; [reflexivity|]. simpl in *. now rewrite Hrest.
  - apply andb_prop in Hds. destruct Hds as [Hc Hr]. rewrite Hc. now apply IH.
Qed.

Lemma take_while_none (p : ascii -> bool) (s : string) :
  begins_with p s = false -> Num.take_while p s = EmptyString.
Proof. destruct s as [|c r]; simpl; [reflexivity|]. now intros ->. Qed.

Lemma drop_while_none (p : ascii -> bool) (s : string) :
  begins_with p s = false -> Num.drop_while p s = s.
Proof. destruct s as [|c r]; simpl; [reflexivity|]. now intros ->. Qed.

Lemma mk_num_not_NaN (neg : bool) (ds : string) (e : Z) :
  Num.isNaN (Num.mk_num neg ds e) = false.
Proof.
  unfold Num.mk_num.
  destruct (Str.drop_suffix_while Num.is_zero_char
              (Num.drop_while Num.is_zero_char ds)); reflexivity.
Qed.

Lemma trimStart_digits (ds rest : string) :
  begins_with Str.is_digit ds = true ->
  Str.trimStart (ds ++ rest) = ds ++ rest.
Proof.
  destruct ds as [|c r]; simpl; [discriminate|]. intros Hc.
  destruct (digit_facts c Hc) as [Hws _]. now rewrite Hws.
Qed.

Lemma read_sign_digits (ds rest : string) :
  begins_with Str.is_digit ds = true ->
  Num.read_sign (ds ++ rest) = (false, ds ++ rest).
Proof.
  destruct ds as [|c r]; simpl; [discriminate|]. intros Hc.
  destruct (digit_facts c Hc) as [_ [Hm [Hp _]]]. now rewrite Hm, Hp.
Qed.

Lemma all_chars_begins (p : ascii -> bool) (s : string) :
  s <> EmptyString -> Str.all_chars p s = true -> begins_with p s = true.
Proof.
  destruct s as [|c r]; [congruence|]. simpl. intros _ H.
  apply andb_prop in H. tauto.
Qed.

Lemma hex_marker_digits (ds rest : string) :
  begins_with Str.is_digit ds = true ->
  Str.all_chars Str.is_digit ds = true ->
  (ds = "0" -> begins_with is_x rest = false) ->
  Num.hex_marker (ds ++ rest) = None.
Proof.
  intros Hb Hds Hx. destruct ds as [|a [|b r]]; [discriminate| |].
  - destruct rest as [|x rest]; [reflexivity|]. simpl.
    destruct (Ascii.eqb a "0") eqn:Ha; [|reflexivity].
    apply Ascii.eqb_eq in Ha. subst a. specialize (Hx eq_refl). simpl in Hx.
    unfold is_x in Hx. now rewrite Hx.
  - simpl in Hds. apply andb_prop in Hds. destruct Hds as [_ Hds].
    apply andb_prop in Hds. destruct Hds as [Hbd _].
    destruct (digit_facts b Hbd) as [_ [_ [_ [_ [Hxb _]]]]].
    simpl. unfold is_x in Hxb. rewrite Hxb. now rewrite andb_false_r.
Qed.

Lemma parseInt_digits (ds rest : string) :
  begins_with Str.is_digit ds = true ->
  Str.all_chars Str.is_digit ds = true ->
  begins_with Str.is_digit rest = false ->
  (ds = "0" -> begins_with is_x rest = false) ->
  Num.parseInt (ds ++ rest) = Num.mk_num false ds 0.
Proof.
  intros Hb Hds Hrest Hx. unfold Num.parseInt.
  rewrite (trimStart_digits ds rest Hb), (read_sign_digits ds rest Hb).
  rewrite (hex_marker_digits ds rest Hb Hds Hx).
  rewrite (take_while_append _ ds rest Hds Hrest).
  destruct ds; [discriminate|reflexivity].
Qed.

Lemma begins_non_digit (s : string) :
  Str.all_chars non_digit s = true -> begins_with Str.is_digit s = false.
Proof.
  destruct s as [|c r]; simpl; [reflexivity|]. unfold non_digit.
  intros H. apply andb_prop in H. destruct H as [H _].
  now apply negb_true_iff in H.
Qed.

Lemma read_exponent_none (s : string) :
  Str.all_chars non_digit s = true -> Num.read_exponent s = 0%Z.
Proof.
  destruct s as [|c r]; [reflexivity|]. simpl. intros H.
  apply andb_prop in H. destruct H as [_ Hr].
  destruct (Ascii.eqb c "e" || Ascii.eqb c "E"); [|reflexivity].
  assert (Hsign : Str.all_chars non_digit (snd (Num.read_sign r)) = true).
  { destruct r as [|d r']; [reflexivity|]. simpl.
    simpl in Hr. pose proof Hr as Hr'. apply andb_prop in Hr'.
    destruct (Ascii.eqb d "-"); [tauto|].
    destruct (Ascii.eqb d "+"); [tauto|]. exact Hr. }
  destruct (Num.read_sign r) as [neg r1]. simpl in Hsign.
  now rewrite (take_while_none _ _ (begins_non_digit _ Hsign)).
Qed.

Lemma startsWith_Infinity_digits (ds rest : string) :
  begins_with Str.is_digit ds = true ->
  Str.startsWith "Infinity" (ds ++ rest) = false.
Proof.
  destruct ds as [|c r]; [discriminate|]. intros Hc. simpl in Hc.
  unfold Str.startsWith. change (String c r ++ rest) with (String c (r ++ rest)).
  rewrite prefix_cons.
  destruct (digit_facts c Hc) as [_ [_ [_ [HI _]]]]. now rewrite HI.
Qed.

Lemma parseFloat_digits (ds rest : string) :
  begins_with Str.is_digit ds = true ->
  Str.all_chars Str.is_digit ds = true ->
  Str.all_chars non_digit rest = true ->
  Num.parseFloat (ds ++ rest) = Num.mk_num false ds 0.
Proof.
  intros Hb Hds Hrest. unfold Num.parseFloat.
  rewrite (trimStart_digits ds rest Hb), (read_sign_digits ds rest Hb).
  rewrite (startsWith_Infinity_digits ds rest Hb).
  rewrite (take_while_append _ ds rest Hds (begins_non_digit _ Hrest)).
  rewrite (drop_while_append _ ds rest Hds (begins_non_digit _ Hrest)).
  assert (Hpair :
    (match rest with
     | String c r =>
         if Ascii.eqb c "."%char
         then (Num.take_while Str.is_digit r, Num.drop_while Str.is_digit r)
         else (EmptyString, rest)
     | EmptyString => (EmptyString, rest)
     end) = (EmptyString, match rest with
                          | String c r =>
                              if Ascii.eqb c "."%char then r else rest
                          | EmptyString => rest
                          end)).
  { destruct rest as [|c r]; [reflexivity|].
    destruct (Ascii.eqb c "."); [|reflexivity].
    simpl in Hrest. apply andb_prop in Hrest. destruct Hrest as [_ Hr].
    rewrite (take_while_none _ _ (begins_non_digit _ Hr)).
    now rewrite (drop_while_none _ _ (begins_non_digit _ Hr)). }
  rewrite Hpair. rewrite append_empty_r.
  assert (Hexp : Num.read_exponent
                   (match rest with
                    | String c r => if Ascii.eqb c "."%char then r else rest
                    | EmptyString => rest
                    end) = 0%Z).
  { apply read_exponent_none. destruct rest as [|c r]; [reflexivity|].
    destruct (Ascii.eqb c "."); [|assumption].
    simpl in Hrest. apply andb_prop in Hrest. tauto. }
  rewrite Hexp. destruct ds; [discriminate|reflexivity].
Qed.

Lemma parseFloat_fraction (ds fs rest : string) :
  begins_with Str.is_digit ds = true ->
  Str.all_chars Str.is_digit ds = true ->
  Str.all_chars Str.is_digit fs = true ->
  Str.all_chars non_digit rest = true ->
  Num.parseFloat (ds ++ "." ++ fs ++ rest)
  = Num.mk_num false (ds ++ fs) (- Z.of_nat (String.length fs)).
Proof.
  intros Hb Hds Hfs Hrest. unfold Num.parseFloat.
  rewrite (trimStart_digits ds _ Hb), (read_sign_digits ds _ Hb).
  rewrite (startsWith_Infinity_digits ds _ Hb).
  rewrite (take_while_append _ ds _ Hds) by reflexivity.
  rewrite (drop_while_append _ ds _ Hds) by reflexivity.
  change ("." ++ fs ++ rest) with (String "."%char (fs ++ rest)).
  cbv iota. change (Ascii.eqb "." ".") with true. cbv iota.
  rewrite (take_while_append _ fs rest Hfs (begins_non_digit _ Hrest)).
  rewrite (drop_while_append _ fs rest Hfs (begins_non_digit _ Hrest)).
  rewrite (read_exponent_none rest Hrest).
  destruct ds; [discriminate|reflexivity].
Qed.

Lemma read_hex_some (a : N) (s : string) :
  exists n, Num.read_hex (Some a) s = Some n.
Proof.
  revert a. induction s as [|c r IH]; intros a; simpl; [eauto|].
  destruct (Num.hex_digit_value c); [apply IH|eauto].
Qed.

Lemma parseInt_NaN (s : string) :
  Num.isNaN (Num.parseInt s) = negb (has_integer_prefix s).
Proof.
  unfold Num.parseInt, has_integer_prefix, unsigned_part.
  destruct (Num.read_sign (Str.trimStart s)) as [neg u]. simpl snd.
  destruct (Num.hex_marker u) as [r|].
  - destruct r as [|c r]; [reflexivity|]. simpl. unfold is_hex_digit.
    destruct (Num.hex_digit_value c) as [d|]; [|reflexivity].
    destruct (read_hex_some d r) as [n Hn]. rewrite Hn.
    apply mk_num_not_NaN.
  - destruct u as [|c r]; [reflexivity|]. simpl.
    destruct (Str.is_digit c); [apply mk_num_not_NaN|reflexivity].
Qed.

Lemma parseFloat_NaN (s : string) :
  Num.isNaN (Num.parseFloat s) = negb (has_decimal_prefix s).
Proof.
  unfold Num.parseFloat, has_decimal_prefix, unsigned_part.
  destruct (Num.read_sign (Str.trimStart s)) as [neg u]. simpl snd.
  destruct (Str.startsWith "Infinity" u); [reflexivity|]. simpl orb.
  destruct u as [|c r]; [reflexivity|]. simpl.
  destruct (Str.is_digit c) eqn:Hc.
  - simpl.
    destruct (match Num.drop_while Str.is_digit r with
              | EmptyString => (EmptyString, Num.drop_while Str.is_digit r)
              | String c0 r0 =>
                  if Ascii.eqb c0 "."
                  then (Num.take_while Str.is_digit r0,
                        Num.drop_while Str.is_digit r0)
                  else (EmptyString, Num.drop_while Str.is_digit r)
              end) as [fp s4].
    simpl. apply mk_num_not_NaN.
  - simpl. unfold is_point. destruct (Ascii.eqb c "."); [|reflexivity].
    simpl. destruct r as [|d r']; [reflexivity|]. simpl.
    destruct (Str.is_digit d); [apply mk_num_not_NaN|reflexivity].
Qed.

Lemma validateType_integer_eq {host : Host} (value : JsVal) (key : string) :
  _validateType value "type:integer" key
  = (if Num.isNaN (Js.parseInt value)
     then Throw (field_error key "an integer")
     else Ok (VNum (Js.parseInt value)))
  /\ _validateType value "type:int" key
     = _validateType value "type:integer" key.
Proof. split; reflexivity. Qed.

Lemma validateType_number_eq {host : Host} (value : JsVal) (key : string) :
  _validateType value "type:number" key
  = (if Num.isNaN (Js.parseFloat value)
     then Throw (field_error key "a number")
     else Ok (VNum (Js.parseFloat value)))
  /\ _validateType value "type:float" key
     = _validateType value "type:number" key.
Proof. split; reflexivity. Qed.

(** C9 does not hold as the specification states it: [0xyz] begins with a digit followed
    by characters that are no digits, and its coercion to an integer fails,
    the marker [0x] being followed by no hexadecimal digit. *)
Lemma integer_prefix_counterexample :
  ~ (forall (host : Host) (ds rest key : string),
        ds <> EmptyString ->
        Str.all_chars Str.is_digit ds = true ->
        rest <> EmptyString ->
        Str.all_chars non_digit rest = true ->
        exists v, _validateType (VStr (ds ++ rest)) "type:integer" key = Ok v).
Proof.
  intros claim.
  destruct (claim Sample.host "0" "xyz" "n") as [v Hv];
    try reflexivity; try discriminate.
Qed.

(** C9, amended: for a string made of at most 15 decimal digits followed
    by a character that is no digit, the kinds [integer] and [int] return
    the number the digits denote, unless the digits are the single [0] and
    [x] or [X] follows (the marker of radix 16); for digits, or digits, a
    point and digits, 15 at most in all, followed by characters none of which
    is a digit, the kinds [number] and [float] return the number the digits
    denote. A string is refused exactly when its parse is [NaN], and a
    number is returned otherwise: it is refused for [integer] and [int]
    when, after leading white space and a sign, it starts with [0x] or [0X]
    and no hexadecimal digit follows, or it has no such marker and does not
    start with a digit; for [number] and [float], when it starts neither
    with [Infinity], nor with a digit, nor with a point and a digit. *)
Theorem numeric_prefix_coercion :
  forall (host : Host) (key : string),
    (forall ds rest,
        ds <> EmptyString ->
        Str.all_chars Str.is_digit ds = true ->
        String.length ds <= 15 ->
        begins_with Str.is_digit rest = false ->
        (ds = "0" -> begins_with is_x rest = false) ->
        _validateType (VStr (ds ++ rest)) "type:integer" key
        = Ok (VNum (Num.mk_num false ds 0))
        /\ _validateType (VStr (ds ++ rest)) "type:int" key
           = Ok (VNum (Num.mk_num false ds 0)))
    /\ (forall ds rest,
          ds <> EmptyString ->
          Str.all_chars Str.is_digit ds = true ->
          String.length ds <= 15 ->
          Str.all_chars non_digit rest = true ->
          _validateType (VStr (ds ++ rest)) "type:number" key
          = Ok (VNum (Num.mk_num false ds 0))
          /\ _validateType (VStr (ds ++ rest)) "type:float" key
             = Ok (VNum (Num.mk_num false ds 0)))
    /\ (forall ds fs rest,
          ds <> EmptyString ->
          Str.all_chars Str.is_digit ds = true ->
          Str.all_chars Str.is_digit fs = true ->
          String.length ds + String.length fs <= 15 ->
          Str.all_chars non_digit rest = true ->
          _validateType (VStr (ds ++ "." ++ fs ++ rest)) "type:number" key
          = Ok (VNum (Num.mk_num false (ds ++ fs)
                        (- Z.of_nat (String.length fs))))
          /\ _validateType (VStr (ds ++ "." ++ fs ++ rest)) "type:float" key
             = Ok (VNum (Num.mk_num false (ds ++ fs)
                           (- Z.of_nat (String.length fs)))))
    /\ (forall s,
          (has_integer_prefix s = true ->
           exists n,
             Num.isNaN n = false
             /\ _validateType (VStr s) "type:integer" key = Ok (VNum n))
          /\ (has_integer_prefix s = false ->
              _validateType (VStr s) "type:integer" key
              = Throw (field_error key "an integer"))
          /\ _validateType (VStr s) "type:int" key
             = _validateType (VStr s) "type:integer" key)
    /\ (forall s,
          (has_decimal_prefix s = true ->
           exists n,
             Num.isNaN n = false
             /\ _validateType (VStr s) "type:number" key = Ok (VNum n))
          /\ (has_decimal_prefix s = false ->
              _validateType (VStr s) "type:number" key
              = Throw (field_error key "a number"))
          /\ _validateType (VStr s) "type:float" key
             = _validateType (VStr s) "type:number" key).
Proof.
  intros host key. split; [|split; [|split; [|split]]].
  - intros ds rest Hne Hds _ Hrest Hx.
    pose proof (all_chars_begins _ ds Hne Hds) as Hb.
    rewrite (proj2 (validateType_integer_eq _ key)).
    rewrite (proj1 (validateType_integer_eq _ key)).
    change (Js.parseInt (VStr ?x)) with (Num.parseInt x).
    rewrite (parseInt_digits ds rest Hb Hds Hrest Hx), mk_num_not_NaN. auto.
  - intros ds rest Hne Hds _ Hrest.
    pose proof (all_chars_begins _ ds Hne Hds) as Hb.
    rewrite (proj2 (validateType_number_eq _ key)).
    rewrite (proj1 (validateType_number_eq _ key)).
    change (Js.parseFloat (VStr ?x)) with (Num.parseFloat x).
    rewrite (parseFloat_digits ds rest Hb Hds Hrest), mk_num_not_NaN. auto.
  - intros ds fs rest Hne Hds Hfs _ Hrest.
    pose proof (all_chars_begins _ ds Hne Hds) as Hb.
    rewrite (proj2 (validateType_number_eq _ key)).
    rewrite (proj1 (validateType_number_eq _ key)).
    change (Js.parseFloat (VStr ?x)) with (Num.parseFloat x).
    rewrite (parseFloat_fraction ds fs rest Hb Hds Hfs Hrest), mk_num_not_NaN.
    auto.
  - intros s. split; [|split; [|apply validateType_integer_eq]].
    + intros Hprefix. exists (Num.parseInt s).
      rewrite (proj1 (validateType_integer_eq _ key)).
      change (Js.parseInt (VStr ?x)) with (Num.parseInt x).
      rewrite parseInt_NaN, Hprefix. auto.
    + intros Hprefix. rewrite (proj1 (validateType_integer_eq _ key)).
      change (Js.parseInt (VStr ?x)) with (Num.parseInt x).
      rewrite parseInt_NaN, Hprefix. reflexivity.
  - intros s. split; [|split; [|apply validateType_number_eq]].
    + intros Hprefix. exists (Num.parseFloat s).
      rewrite (proj1 (validateType_number_eq _ key)).
      change (Js.parseFloat (VStr ?x)) with (Num.parseFloat x).
      rewrite parseFloat_NaN, Hprefix. auto.
    + intros Hprefix. rewrite (proj1 (validateType_number_eq _ key)).
      change (Js.parseFloat (VStr ?x)) with (Num.parseFloat x).
      rewrite parseFloat_NaN, Hprefix. reflexivity.
Qed.

Lemma numeric_prefix_coercion_witness :
  _validateType (host := Sample.host) (VStr "30abc") "type:integer" "age"
  = Ok (VNum (Num.of_Z 30))
  /\ _validateType (host := Sample.host) (VStr "3.5xyz") "type:float" "price"
     = Ok (VNum (Num.mk_num false "35" (-1)))
  /\ _validateType (host := Sample.host) (VStr "30abc") "type:number" "age"
     = Ok (VNum (Num.of_Z 30)).
Proof.
  pose proof (numeric_prefix_coercion Sample.host) as H.
  split; [|split].
  - refine (proj1 (proj1 (H "age") "30" "abc" _ eq_refl _ eq_refl _));
      [discriminate|simpl; lia|discriminate].
  - refine (proj2 (proj1 (proj2 (proj2 (H "price"))) "3" "5" "xyz"
                     _ eq_refl eq_refl _ eq_refl));
      [discriminate|simpl; lia].
  - refine (proj1 (proj1 (proj2 (H "age")) "30" "abc" _ eq_refl _ eq_refl));
      [discriminate|simpl; lia].
Defined.

(** ** Enumerations *)

Lemma contains_cons (needle : string) (c : ascii) (r : string) :
  Str.contains needle (String c r)
  = String.prefix needle (String c r) || Str.contains needle r.
Proof. reflexivity. Qed.

Lemma split_from_whole (sep s cur : string) :
  Str.contains sep s = false ->
  Str.split_from sep 0 cur s = [cur ++ s].
Proof.
  revert cur. induction s as [|c r IH]; intros cur Hc.
  - simpl. now rewrite append_empty_r.
  - rewrite contains_cons in Hc. apply orb_false_elim in Hc.
    destruct Hc as [Hp Hr].
    change (Str.split_from sep 0 cur (String c r))
      with (if String.prefix sep (String c r)
            then cur :: Str.split_from sep (String.length sep - 1)
                          EmptyString r
            else Str.split_from sep 0 (cur ++ String c EmptyString) r).
    rewrite Hp, (IH _ Hr), append_assoc. reflexivity.
Qed.

Lemma prefix_append_other (p s : string) (c : ascii) :
  Str.all_chars (fun a => negb (Ascii.eqb c a)) p = true ->
  String.prefix p (s ++ String c EmptyString) = String.prefix p s.
Proof.
  revert s. induction p as [|a p IH]; intros s Hp.
  - now rewrite !prefix_empty.
  - simpl in Hp. apply andb_prop in Hp. destruct Hp as [Ha Hp].
    apply negb_true_iff in Ha. destruct s as [|b s].
    + change (EmptyString ++ String c EmptyString) with (String c EmptyString).
      rewrite prefix_cons, Ha. reflexivity.
    + change (String b s ++ String c EmptyString)
        with (String b (s ++ String c EmptyString)).
      rewrite !prefix_cons, IH by assumption. reflexivity.
Qed.

Lemma contains_append_other (needle s : string) (c : ascii) :
  needle <> EmptyString ->
  Str.all_chars (fun a => negb (Ascii.eqb c a)) needle = true ->
  Str.contains needle s = false ->
  Str.contains needle (s ++ String c EmptyString) = false.
Proof.
  intros Hne Hp. induction s as [|b s IH]; intros Hc.
  - change (EmptyString ++ String c EmptyString) with (String c EmptyString).
    rewrite contains_cons.
    destruct needle as [|a needle]; [congruence|].
    rewrite prefix_cons. simpl in Hp. apply andb_prop in Hp.
    destruct Hp as [Ha _]. apply negb_true_iff in Ha. rewrite Ha. reflexivity.
  - rewrite contains_cons in Hc. apply orb_false_elim in Hc.
    destruct Hc as [Hb Hs].
    change (String b s ++ String c EmptyString)
      with (String b (s ++ String c EmptyString)).
    rewrite contains_cons.
    change (String b (s ++ String c EmptyString))
      with (String b s ++ String c EmptyString).
    rewrite prefix_append_other, Hb by assumption. simpl. auto.
Qed.

Lemma ends_with_append_char (p : ascii -> bool) (s : string) (c : ascii) :
  ends_with p (s ++ String c EmptyString) = p c.
Proof.
  induction s as [|b s IH]; [reflexivity|].
  change (String b s ++ String c EmptyString)
    with (String b (s ++ String c EmptyString)).
  destruct s as [|b' s']; [reflexivity|]. exact IH.
Qed.

Lemma substring_whole (s t : string) :
  String.substring 0 (String.length s) (s ++ t) = s.
Proof.
  induction s as [|c r IH]; simpl.
  - destruct t; reflexivity.
  - now rewrite IH.
Qed.

Lemma type_name_enum (body : string) :
  Str.contains "type:" body = false ->
  type_name ("type:enum[" ++ body ++ "]") = "enum[" ++ body ++ "]".
Proof.
  intros Hbody. unfold type_name, Str.split.
  assert (Hrest : Str.contains "type:" ("enum[" ++ body ++ "]") = false).
  { change ("enum[" ++ body ++ "]")
      with (String "e" (String "n" (String "u" (String "m" (String "["
              (body ++ "]")))))).
    rewrite !contains_cons, !prefix_cons. simpl.
    apply contains_append_other; [discriminate|reflexivity|assumption]. }
  change ("type:enum[" ++ body ++ "]")
    with (String "t" ("ype:" ++ "enum[" ++ body ++ "]")).
  change (Str.split_from "type:" 0 EmptyString
            (String "t" ("ype:" ++ "enum[" ++ body ++ "]")))
    with (if String.prefix "type:" ("type:" ++ "enum[" ++ body ++ "]")
          then EmptyString
               :: Str.split_from "type:" 0 EmptyString ("enum[" ++ body ++ "]")
          else Str.split_from "type:" 0 "t" ("ype:" ++ "enum[" ++ body ++ "]")).
  change ("type:" ++ "enum[" ++ body ++ "]")
    with (String "t" (String "y" (String "p" (String "e" (String ":"
            ("enum[" ++ body ++ "]")))))).
  rewrite !prefix_cons, prefix_empty. simpl andb. cbv iota.
  rewrite (split_from_whole _ _ _ Hrest). simpl nth.
  unfold Str.trim, Str.trimEnd.
  change (Str.trimStart (EmptyString ++ "enum[" ++ body ++ "]"))
    with ("enum[" ++ body ++ "]").
  apply drop_suffix_while_none.
  change ("enum[" ++ body ++ "]") with (("enum[" ++ body) ++ "]").
  replace ("enum[" ++ body ++ "]") with (("enum[" ++ body) ++ "]")
    by (now rewrite append_assoc).
  apply ends_with_append_char.
Qed.

Lemma slice_enum (body : string) :
  Str.slice_to_last 5 ("enum[" ++ body ++ "]") = body.
Proof.
  unfold Str.slice_to_last.
  replace (String.length ("enum[" ++ body ++ "]") - 1 - 5)
    with (String.length body).
  - change (String.substring 5 (String.length body) ("enum[" ++ body ++ "]"))
      with (String.substring 0 (String.length body) (body ++ "]")).
    apply substring_whole.
  - rewrite !length_append. simpl. lia.
Qed.

(** When the text between the brackets does not contain [type:], the kind
    [enum[...]] accepts exactly the strings equal to one of the trimmed,
    comma-separated options and refuses every other value with a message
    that lists all the options. *)
Lemma validateType_enum_options {host : Host} (body : string) (value : JsVal)
  (key : string) :
  Str.contains "type:" body = false ->
  let options := map Str.trim (Str.split "," body) in
  _validateType value ("type:enum[" ++ body ++ "]") key
  = if Js.includes options value then Ok value
    else Throw (field_error key ("one of: " ++ Str.join ", " options)).
Proof.
  intros Hbody options. unfold _validateType.
  change (Str.startsWith "type:" ("type:enum[" ++ body ++ "]"))
    with (String.prefix "type:"
            (String "t" (String "y" (String "p" (String "e" (String ":"
               ("enum[" ++ body ++ "]"))))))).
  rewrite !prefix_cons, prefix_empty. simpl negb. cbv iota.
  rewrite (type_name_enum body Hbody).
  change (is_one_of (Str.toLowerCase ("enum[" ++ body ++ "]")) ["string"; "str"])
    with false.
  change (is_one_of (Str.toLowerCase ("enum[" ++ body ++ "]")) ["number"; "float"])
    with false.
  change (is_one_of (Str.toLowerCase ("enum[" ++ body ++ "]")) ["integer"; "int"])
    with false.
  change (is_one_of (Str.toLowerCase ("enum[" ++ body ++ "]")) ["boolean"; "bool"])
    with false.
  change (is_one_of (Str.toLowerCase ("enum[" ++ body ++ "]")) ["array"; "list"])
    with false.
  cbv iota.
  change (Str.startsWith "enum[" ("enum[" ++ body ++ "]"))
    with (String.prefix "enum["
            (String "e" (String "n" (String "u" (String "m" (String "["
               (body ++ "]"))))))).
  rewrite !prefix_cons, prefix_empty. simpl andb. cbv iota.
  unfold enum_values. rewrite slice_enum. reflexivity.
Qed.

(** C6: an option that contains [type:] is cut off: with the annotation
    [type:enum[subtype:a,b]] the only value accepted is [su], and [b], one of
    the two options, is refused with a message that lists [su] alone. The
    annotation [type:enum[red,green,blue]] behaves as claimed. *)
Theorem enum_option_with_marker :
  forall host : Host,
    _validateType (VStr "b") "type:enum[subtype:a,b]" "f"
    = Throw (field_error "f" "one of: su")
    /\ _validateType (VStr "subtype:a") "type:enum[subtype:a,b]" "f"
       = Throw (field_error "f" "one of: su")
    /\ _validateType (VStr "su") "type:enum[subtype:a,b]" "f" = Ok (VStr "su")
    /\ _validateType (VStr "red") "type:enum[red,green,blue]" "color"
       = Ok (VStr "red")
    /\ _validateType (VStr "green") "type:enum[red,green,blue]" "color"
       = Ok (VStr "green")
    /\ _validateType (VStr "blue") "type:enum[red,green,blue]" "color"
       = Ok (VStr "blue")
    /\ _validateType (VStr "purple") "type:enum[red,green,blue]" "color"
       = Throw (field_error "color" "one of: red, green, blue").
Proof. intros. repeat split; reflexivity. Qed.

(** ** Numbers printed and parsed again *)

Lemma N_digits_roundtrip (n : N) : Num.digits_to_N (Num.N_to_digits n) = n.
Proof.
  unfold Num.digits_to_N, Num.N_to_digits.
  rewrite NilEmpty.usu. apply DecimalN.Unsigned.of_to.
Qed.

Lemma string_of_uint_digits (u : Decimal.uint) :
  Str.all_chars Str.is_digit (NilEmpty.string_of_uint u) = true.
Proof. induction u; simpl; auto. Qed.

Lemma N_to_digits_digits (n : N) :
  Str.all_chars Str.is_digit (Num.N_to_digits n) = true.
Proof. apply string_of_uint_digits. Qed.

Lemma N_to_digits_not_empty (n : N) : Num.N_to_digits n <> EmptyString.
Proof.
  intros Hempty. pose proof (N_digits_roundtrip n) as Hn.
  rewrite Hempty in Hn. subst n. discriminate Hempty.
Qed.

Lemma all_chars_drop_while (p q : ascii -> bool) (s : string) :
  Str.all_chars p s = true -> Str.all_chars p (Num.drop_while q s) = true.
Proof.
  induction s as [|c r IH]; simpl; [reflexivity|]. intros H.
  destruct (q c); [|exact H]. apply andb_prop in H. tauto.
Qed.

Lemma all_chars_drop_suffix_while (p q : ascii -> bool) (s : string) :
  Str.all_chars p s = true ->
  Str.all_chars p (Str.drop_suffix_while q s) = true.
Proof.
  induction s as [|c r IH]; [reflexivity|]. intros H.
  change (Str.drop_suffix_while q (String c r))
    with (if Str.all_chars q (String c r) then EmptyString
          else String c (Str.drop_suffix_while q r)).
  destruct (Str.all_chars q (String c r)); [reflexivity|].
  simpl in *. apply andb_prop in H. destruct H as [Hc Hr].
  now rewrite Hc, IH.
Qed.

Lemma begins_drop_while (p : ascii -> bool) (s : string) :
  begins_with p (Num.drop_while p s) = false.
Proof.
  induction s as [|c r IH]; simpl; [reflexivity|].
  destruct (p c) eqn:Hc; [exact IH|]. simpl. exact Hc.
Qed.

Lemma begins_drop_suffix_while (p q : ascii -> bool) (s : string) (c : ascii)
  (r : string) :
  Str.drop_suffix_while p s = String c r -> begins_with q s = q c.
Proof.
  destruct s as [|d s']; [discriminate|].
  change (Str.drop_suffix_while p (String d s'))
    with (if Str.all_chars p (String d s') then EmptyString
          else String d (Str.drop_suffix_while p s')).
  destruct (Str.all_chars p (String d s')); [discriminate|].
  intros H. injection H as -> _. reflexivity.
Qed.

Lemma drop_suffix_while_length (p : ascii -> bool) (s : string) :
  String.length (Str.drop_suffix_while p s) <= String.length s.
Proof.
  induction s as [|c r IH]; [simpl; lia|].
  change (Str.drop_suffix_while p (String c r))
    with (if Str.all_chars p (String c r) then EmptyString
          else String c (Str.drop_suffix_while p r)).
  destruct (Str.all_chars p (String c r)); simpl; lia.
Qed.

(** [mk_num] returns a zero or a number in normal form, whose exponent is
    not below the one given. *)
Lemma mk_num_cases (neg : bool) (ds : string) (e : Z) :
  Str.all_chars Str.is_digit ds = true ->
  Num.mk_num neg ds e = Num.Fin neg EmptyString 0
  \/ exists ds' j,
       Num.mk_num neg ds e = Num.Fin neg ds' (e + Z.of_nat j)
       /\ canonical ds' = true.
Proof.
  intros Hds. unfold Num.mk_num.
  set (ds1 := Num.drop_while Num.is_zero_char ds).
  destruct (Str.drop_suffix_while Num.is_zero_char ds1) as [|c r] eqn:Hds2;
    [left; reflexivity|].
  right. exists (String c r), (String.length ds1 - String.length (String c r)).
  split; [reflexivity|].
  assert (Hall : Str.all_chars Str.is_digit (String c r) = true).
  { rewrite <- Hds2. apply all_chars_drop_suffix_while.
    apply all_chars_drop_while. assumption. }
  unfold canonical. rewrite Hall.
  rewrite <- Hds2 at 3. rewrite drop_suffix_while_end.
  pose proof (begins_drop_suffix_while _ Num.is_zero_char _ _ _ Hds2) as Hz.
  unfold ds1 in Hz. rewrite begins_drop_while in Hz.
  simpl in Hall. apply andb_prop in Hall. destruct Hall as [Hc _].
  simpl. rewrite Hc, <- Hz. reflexivity.
Qed.

Lemma canonical_parts (ds : string) :
  canonical ds = true ->
  Str.all_chars Str.is_digit ds = true
  /\ begins_with Str.is_digit ds = true
  /\ begins_with Num.is_zero_char ds = false
  /\ ends_with Num.is_zero_char ds = false.
Proof.
  unfold canonical. rewrite !andb_true_iff, !negb_true_iff. tauto.
Qed.

Lemma all_chars_zeros (n : nat) :
  Str.all_chars Num.is_zero_char (Num.zeros n) = true
  /\ Str.all_chars Str.is_digit (Num.zeros n) = true.
Proof. induction n; simpl; tauto. Qed.

Lemma length_zeros (n : nat) : String.length (Num.zeros n) = n.
Proof. induction n; simpl; congruence. Qed.

Lemma drop_while_zeros (n : nat) (s : string) :
  begins_with Num.is_zero_char s = false ->
  Num.drop_while Num.is_zero_char (Num.zeros n ++ s) = s.
Proof.
  intros Hs. induction n as [|n IH]; simpl; [|exact IH].
  apply drop_while_none. assumption.
Qed.

Lemma begins_with_append (p : ascii -> bool) (s t : string) :
  s <> EmptyString -> begins_with p (s ++ t) = begins_with p s.
Proof. destruct s; [congruence|reflexivity]. Qed.

(** Zeros before and after digits in normal form are dropped; those after
    them are counted in the exponent. *)
Lemma mk_num_padded (neg : bool) (ds : string) (e : Z) (before after : nat) :
  canonical ds = true ->
  Num.mk_num neg (Num.zeros before ++ ds ++ Num.zeros after) e
  = Num.Fin neg ds (e + Z.of_nat after).
Proof.
  intros Hc. destruct (canonical_parts ds Hc) as [Hall [Hb [Hz He]]].
  assert (Hne : ds <> EmptyString) by (destruct ds; [discriminate|congruence]).
  unfold Num.mk_num.
  rewrite drop_while_zeros
    by (rewrite begins_with_append; assumption).
  rewrite (drop_suffix_while_append _ ds _ He (proj1 (all_chars_zeros after))).
  rewrite length_append, length_zeros.
  replace (String.length ds + after - String.length ds) with after by lia.
  destruct ds; [congruence|reflexivity].
Qed.

Lemma mk_num_canonical (neg : bool) (ds : string) (e : Z) :
  canonical ds = true -> Num.mk_num neg ds e = Num.Fin neg ds e.
Proof.
  intros Hc. pose proof (mk_num_padded neg ds e 0 0 Hc) as H.
  simpl in H. rewrite append_empty_r, Z.add_0_r in H. exact H.
Qed.

Lemma take_while_all (p : ascii -> bool) (s : string) :
  Str.all_chars p s = true -> Num.take_while p s = s.
Proof.
  intros H. rewrite <- (append_empty_r s) at 1.
  apply take_while_append; [assumption|reflexivity].
Qed.

Lemma drop_while_all (p : ascii -> bool) (s : string) :
  Str.all_chars p s = true -> Num.drop_while p s = EmptyString.
Proof.
  intros H. rewrite <- (append_empty_r s) at 1.
  apply drop_while_append; [assumption|reflexivity].
Qed.

Lemma read_sign_printed (neg : bool) (body : string) :
  begins_with Str.is_digit body = true ->
  Num.read_sign (Str.trimStart (Num.sign_text neg ++ body)) = (neg, body).
Proof.
  intros Hb. destruct neg; [reflexivity|]. simpl.
  rewrite <- (append_empty_r body).
  rewrite (trimStart_digits body EmptyString Hb).
  apply read_sign_digits. assumption.
Qed.

Lemma startsWith_Infinity_digit (body : string) :
  begins_with Str.is_digit body = true ->
  Str.startsWith "Infinity" body = false.
Proof.
  intros Hb. rewrite <- (append_empty_r body).
  apply startsWith_Infinity_digits. assumption.
Qed.

(** A printed number with no point: an integer part and a tail. *)
Lemma parseFloat_plain (neg : bool) (ip tail : string) :
  begins_with Str.is_digit ip = true ->
  Str.all_chars Str.is_digit ip = true ->
  begins_with Str.is_digit tail = false ->
  begins_with is_point tail = false ->
  Num.parseFloat (Num.sign_text neg ++ ip ++ tail)
  = Num.mk_num neg ip (Num.read_exponent tail).
Proof.
  intros Hb Hip Htail Hpoint. unfold Num.parseFloat.
  assert (Hbody : begins_with Str.is_digit (ip ++ tail) = true).
  { rewrite begins_with_append; [assumption|].
    destruct ip; [discriminate|congruence]. }
  rewrite (read_sign_printed neg _ Hbody).
  rewrite (startsWith_Infinity_digit _ Hbody).
  rewrite (take_while_append _ ip tail Hip Htail).
  rewrite (drop_while_append _ ip tail Hip Htail).
  assert (Hpair :
    (match tail with
     | String c r =>
         if Ascii.eqb c "."%char
         then (Num.take_while Str.is_digit r, Num.drop_while Str.is_digit r)
         else (EmptyString, tail)
     | EmptyString => (EmptyString, tail)
     end) = (EmptyString, tail)).
  { destruct tail as [|c r]; [reflexivity|]. simpl in Hpoint.
    unfold is_point in Hpoint. now rewrite Hpoint. }
  rewrite Hpair, append_empty_r. simpl String.length.
  rewrite Z.sub_0_r. destruct ip; [discriminate|reflexivity].
Qed.

(** A printed number with a point: an integer part, a fraction and a
    tail. *)
Lemma parseFloat_point (neg : bool) (ip fp tail : string) :
  begins_with Str.is_digit ip = true ->
  Str.all_chars Str.is_digit ip = true ->
  Str.all_chars Str.is_digit fp = true ->
  begins_with Str.is_digit tail = false ->
  Num.parseFloat (Num.sign_text neg ++ ip ++ "." ++ fp ++ tail)
  = Num.mk_num neg (ip ++ fp)
      (Num.read_exponent tail - Z.of_nat (String.length fp)).
Proof.
  intros Hb Hip Hfp Htail. unfold Num.parseFloat.
  assert (Hbody : begins_with Str.is_digit (ip ++ "." ++ fp ++ tail) = true).
  { rewrite begins_with_append; [assumption|].
    destruct ip; [discriminate|congruence]. }
  rewrite (read_sign_printed neg _ Hbody).
  rewrite (startsWith_Infinity_digit _ Hbody).
  rewrite (take_while_append _ ip _ Hip) by reflexivity.
  rewrite (drop_while_append _ ip _ Hip) by reflexivity.
  change ("." ++ fp ++ tail) with (String "."%char (fp ++ tail)).
  cbv iota. change (Ascii.eqb "." ".") with true. cbv iota.
  rewrite (take_while_append _ fp tail Hfp Htail).
  rewrite (drop_while_append _ fp tail Hfp Htail).
  destruct ip; [discriminate|reflexivity].
Qed.

Lemma read_exponent_printed (ex : Z) :
  Num.read_exponent
    ("e" ++ (if (ex <? 0)%Z then "-" else "+") ++ Num.N_to_digits (Z.abs_N ex))
  = ex.
Proof.
  assert (Hdigits : forall sg : string,
    (sg = "-" \/ sg = "+") ->
    Num.read_exponent ("e" ++ sg ++ Num.N_to_digits (Z.abs_N ex))
    = if String.eqb sg "-" then (- Z.of_N (Z.abs_N ex))%Z
      else Z.of_N (Z.abs_N ex)).
  { intros sg Hsg.
    assert (Hread : Num.read_sign (sg ++ Num.N_to_digits (Z.abs_N ex))
                    = (String.eqb sg "-", Num.N_to_digits (Z.abs_N ex)))
      by (destruct Hsg as [->| ->]; reflexivity).
    change (Num.read_exponent ("e" ++ sg ++ Num.N_to_digits (Z.abs_N ex)))
      with (let '(neg, r1) :=
              Num.read_sign (sg ++ Num.N_to_digits (Z.abs_N ex)) in
            match Num.take_while Str.is_digit r1 with
            | EmptyString => 0%Z
            | String c r =>
                if neg then (- Z.of_N (Num.digits_to_N (String c r)))%Z
                else Z.of_N (Num.digits_to_N (String c r))
            end).
    rewrite Hread. rewrite (take_while_all _ _ (N_to_digits_digits _)).
    pose proof (N_to_digits_not_empty (Z.abs_N ex)) as Hne.
    pose proof (N_digits_roundtrip (Z.abs_N ex)) as Hrt.
    destruct (Num.N_to_digits (Z.abs_N ex)) as [|c r]; [congruence|].
    rewrite Hrt. reflexivity. }
  destruct (ex <? 0)%Z eqn:Hneg.
  - rewrite (Hdigits "-") by auto. simpl. rewrite N2Z.inj_abs_N.
    apply Z.ltb_lt in Hneg. lia.
  - rewrite (Hdigits "+") by auto. simpl. rewrite N2Z.inj_abs_N.
    apply Z.ltb_ge in Hneg. lia.
Qed.

Lemma take_drop (n : nat) (s : string) : Num.take n s ++ Num.drop n s = s.
Proof.
  revert s. induction n as [|n IH]; intros [|c r]; try reflexivity.
  unfold Num.take. simpl. f_equal. apply IH.
Qed.

Lemma all_chars_take_drop (p : ascii -> bool) (n : nat) (s : string) :
  Str.all_chars p s = true ->
  Str.all_chars p (Num.take n s) = true
  /\ Str.all_chars p (Num.drop n s) = true.
Proof.
  intros H. rewrite <- (take_drop n s), all_chars_append in H.
  apply andb_prop in H. exact H.
Qed.

Lemma length_drop (n : nat) (s : string) :
  String.length (Num.drop n s) = String.length s - n.
Proof.
  revert s. induction n as [|n IH]; intros [|c r]; simpl; try lia. apply IH.
Qed.

Lemma begins_with_take (p : ascii -> bool) (n : nat) (s : string) :
  0 < n -> begins_with p (Num.take n s) = begins_with p s.
Proof. destruct n; [lia|]. destruct s; reflexivity. Qed.

Section PrintedNumbers.

Variables (neg : bool) (ds : string) (e : Z).
Hypothesis Hcanonical : canonical ds = true.

Let k : Z := Z.of_nat (String.length ds).
Let n : Z := (e + k)%Z.

Lemma printed_plain :
  (k <= n)%Z ->
  Num.parseFloat (Num.sign_text neg ++ ds ++ Num.zeros (Z.to_nat (n - k)))
  = Num.Fin neg ds e.
Proof.
  intros Hn. destruct (canonical_parts ds Hcanonical) as [Hall [Hb [Hz He]]].
  assert (Hne : ds <> EmptyString) by (destruct ds; [discriminate|congruence]).
  rewrite <- (append_empty_r (ds ++ Num.zeros (Z.to_nat (n - k)))).
  rewrite parseFloat_plain; try reflexivity.
  - change (ds ++ Num.zeros (Z.to_nat (n - k)))
      with (Num.zeros 0 ++ ds ++ Num.zeros (Z.to_nat (n - k))).
    rewrite (mk_num_padded _ _ _ _ _ Hcanonical). simpl Num.read_exponent.
    f_equal. unfold n in *. lia.
  - rewrite begins_with_append; assumption.
  - rewrite all_chars_append, Hall. apply all_chars_zeros.
Qed.

Lemma printed_point :
  (0 < n)%Z -> (n < k)%Z ->
  Num.parseFloat
    (Num.sign_text neg ++ Num.take (Z.to_nat n) ds ++ "."
       ++ Num.drop (Z.to_nat n) ds)
  = Num.Fin neg ds e.
Proof.
  intros Hpos Hlt.
  destruct (canonical_parts ds Hcanonical) as [Hall [Hb [Hz He]]].
  destruct (all_chars_take_drop _ (Z.to_nat n) ds Hall) as [Htake Hdrop].
  rewrite <- (append_empty_r (Num.drop (Z.to_nat n) ds)).
  rewrite parseFloat_point; try reflexivity; try assumption.
  - rewrite take_drop, (mk_num_canonical _ _ _ Hcanonical).
    f_equal. rewrite length_drop. simpl Num.read_exponent.
    unfold n, k in *. lia.
  - rewrite begins_with_take by lia. assumption.
Qed.

Lemma printed_small :
  (n <= 0)%Z ->
  Num.parseFloat
    (Num.sign_text neg ++ "0." ++ Num.zeros (Z.to_nat (- n)) ++ ds)
  = Num.Fin neg ds e.
Proof.
  intros Hn. destruct (canonical_parts ds Hcanonical) as [Hall [Hb [Hz He]]].
  assert (Hshape : "0." ++ Num.zeros (Z.to_nat (- n)) ++ ds
                   = "0" ++ "." ++ (Num.zeros (Z.to_nat (- n)) ++ ds)
                       ++ EmptyString)
    by (rewrite append_empty_r; reflexivity).
  rewrite Hshape. rewrite parseFloat_point; try reflexivity.
  - assert (Hpad : "0" ++ Num.zeros (Z.to_nat (- n)) ++ ds
                   = Num.zeros (S (Z.to_nat (- n))) ++ ds ++ Num.zeros 0)
      by (simpl; rewrite append_empty_r; reflexivity).
    rewrite Hpad, (mk_num_padded _ _ _ _ _ Hcanonical).
    f_equal. rewrite length_append, length_zeros. simpl Num.read_exponent.
    unfold n, k in *. lia.
  - rewrite all_chars_append, Hall. now rewrite (proj2 (all_chars_zeros _)).
Qed.

Lemma printed_exponent :
  Num.parseFloat
    (Num.sign_text neg
       ++ match ds with
          | String d EmptyString => ds
          | String d r => String d ("." ++ r)
          | EmptyString => EmptyString
          end
       ++ "e" ++ (if (n - 1 <? 0)%Z then "-" else "+")
       ++ Num.N_to_digits (Z.abs_N (n - 1)))
  = Num.Fin neg ds e.
Proof.
  destruct (canonical_parts ds Hcanonical) as [Hall [Hb [Hz He]]].
  set (tail := "e" ++ (if (n - 1 <? 0)%Z then "-" else "+")
               ++ Num.N_to_digits (Z.abs_N (n - 1))).
  assert (Htail : Num.read_exponent tail = (n - 1)%Z)
    by apply read_exponent_printed.
  destruct ds as [|d [|d' r]] eqn:Hds; [discriminate| |].
  - rewrite parseFloat_plain; try reflexivity; try assumption.
    rewrite Htail, (mk_num_canonical _ _ _ Hcanonical).
    f_equal. unfold n, k. simpl. lia.
  - change (String d ("." ++ String d' r) ++ tail)
      with (String d EmptyString ++ "." ++ String d' r ++ tail).
    simpl in Hall. apply andb_prop in Hall. destruct Hall as [Hd Hr].
    rewrite parseFloat_point; try reflexivity; try assumption.
    + change (String d EmptyString ++ String d' r) with (String d (String d' r)).
      rewrite Htail, (mk_num_canonical _ _ _ Hcanonical).
      f_equal. unfold n, k. simpl String.length. lia.
    + simpl. now rewrite Hd.
Qed.

(** Number::toString followed by [parseFloat] is the identity on numbers
    in normal form. *)
Lemma parseFloat_to_string_canonical :
  Num.parseFloat (Num.to_string (Num.Fin neg ds e)) = Num.Fin neg ds e.
Proof.
  assert (Hne : ds <> EmptyString)
    by (destruct ds; [discriminate Hcanonical|congruence]).
  assert (Hprint : Num.to_string (Num.Fin neg ds e)
                   = Num.sign_text neg ++ Num.digits_to_string ds e)
    by (destruct ds; [congruence|reflexivity]).
  rewrite Hprint. unfold Num.digits_to_string. fold k. fold n.
  destruct ((k <=? n)%Z && (n <=? 21)%Z) eqn:Hplain.
  { apply andb_prop in Hplain. destruct Hplain as [Hle _].
    apply Z.leb_le in Hle. apply printed_plain. assumption. }
  destruct ((0 <? n)%Z && (n <=? 21)%Z) eqn:Hpoint.
  { apply andb_prop in Hpoint. destruct Hpoint as [Hpos Hle].
    apply Z.ltb_lt in Hpos. apply Z.leb_le in Hle.
    apply printed_point; [assumption|].
    apply andb_false_iff in Hplain. destruct Hplain as [H|H].
    - apply Z.leb_gt in H. assumption.
    - apply Z.leb_gt in H. lia. }
  destruct ((-6 <? n)%Z && (n <=? 0)%Z) eqn:Hsmall.
  { apply andb_prop in Hsmall. destruct Hsmall as [_ Hle].
    apply Z.leb_le in Hle. apply printed_small. assumption. }
  apply printed_exponent.
Qed.

(** Number::toString followed by [parseInt] is the identity on integers in
    normal form below [10^21]. *)
Lemma parseInt_to_string_canonical :
  (0 <= e)%Z -> (n <= 21)%Z ->
  Num.parseInt (Num.to_string (Num.Fin neg ds e)) = Num.Fin neg ds e.
Proof.
  intros He Hn.
  destruct (canonical_parts ds Hcanonical) as [Hall [Hb [Hz Hend]]].
  assert (Hne : ds <> EmptyString) by (destruct ds; [discriminate|congruence]).
  assert (Hprint : Num.to_string (Num.Fin neg ds e)
                   = Num.sign_text neg ++ ds ++ Num.zeros (Z.to_nat (n - k))).
  { transitivity (Num.sign_text neg ++ Num.digits_to_string ds e);
      [destruct ds; [congruence|reflexivity]|].
    unfold Num.digits_to_string. fold k. fold n.
    replace ((k <=? n)%Z && (n <=? 21)%Z) with true; [reflexivity|].
    symmetry. apply andb_true_intro. split; apply Z.leb_le; unfold n; lia. }
  rewrite Hprint. unfold Num.parseInt.
  set (body := ds ++ Num.zeros (Z.to_nat (n - k))).
  assert (Hbody : begins_with Str.is_digit body = true)
    by (unfold body; rewrite begins_with_append; assumption).
  rewrite (read_sign_printed neg body Hbody).
  assert (Hhex : Num.hex_marker body = None).
  { unfold body. destruct ds as [|c r]; [congruence|]. simpl in Hz.
    unfold Num.is_zero_char in Hz.
    change (String c r ++ Num.zeros (Z.to_nat (n - k)))
      with (String c (r ++ Num.zeros (Z.to_nat (n - k)))).
    destruct (r ++ Num.zeros (Z.to_nat (n - k))); [reflexivity|].
    simpl. now rewrite Hz. }
  rewrite Hhex.
  assert (Hdigits : Str.all_chars Str.is_digit body = true).
  { unfold body. rewrite all_chars_append, Hall. apply all_chars_zeros. }
  rewrite (take_while_all _ _ Hdigits).
  assert (Hvalue : Num.mk_num neg body 0 = Num.Fin neg ds e).
  { unfold body.
    change (ds ++ Num.zeros (Z.to_nat (n - k)))
      with (Num.zeros 0 ++ ds ++ Num.zeros (Z.to_nat (n - k))).
    rewrite (mk_num_padded _ _ _ _ _ Hcanonical). f_equal. unfold n. lia. }
  destruct body; [discriminate Hbody|exact Hvalue].
Qed.

End PrintedNumbers.

Lemma all_chars_take_while (p : ascii -> bool) (s : string) :
  Str.all_chars p (Num.take_while p s) = true.
Proof.
  induction s as [|c r IH]; simpl; [reflexivity|].
  destruct (p c) eqn:Hc; simpl; [now rewrite Hc|reflexivity].
Qed.

Lemma parseFloat_cases (s : string) :
  Num.parseFloat s = Num.NaN
  \/ (exists neg, Num.parseFloat s = Num.Inf neg)
  \/ (exists neg ds e,
         Str.all_chars Str.is_digit ds = true
         /\ Num.parseFloat s = Num.mk_num neg ds e).
Proof.
  unfold Num.parseFloat.
  destruct (Num.read_sign (Str.trimStart s)) as [neg u].
  destruct (Str.startsWith "Infinity" u); [right; left; eauto|].
  set (ip := Num.take_while Str.is_digit u).
  assert (Hip : Str.all_chars Str.is_digit ip = true)
    by apply all_chars_take_while.
  destruct (match Num.drop_while Str.is_digit u with
            | EmptyString => (EmptyString, Num.drop_while Str.is_digit u)
            | String c r =>
                if Ascii.eqb c "."
                then (Num.take_while Str.is_digit r,
                      Num.drop_while Str.is_digit r)
                else (EmptyString, Num.drop_while Str.is_digit u)
            end) as [fp s4] eqn:Hpair.
  assert (Hfp : Str.all_chars Str.is_digit fp = true).
  { destruct (Num.drop_while Str.is_digit u) as [|c r].
    - injection Hpair as <- _. reflexivity.
    - destruct (Ascii.eqb c ".").
      + injection Hpair as <- _. apply all_chars_take_while.
      + injection Hpair as <- _. reflexivity. }
  destruct (ip ++ fp) as [|c r] eqn:Hds; [left; reflexivity|].
  right. right.
  exists neg, (String c r),
    (Num.read_exponent s4 - Z.of_nat (String.length fp))%Z.
  split; [|reflexivity].
  rewrite <- Hds, all_chars_append, Hip, Hfp. reflexivity.
Qed.

Lemma parseInt_cases (s : string) :
  Num.parseInt s = Num.NaN
  \/ exists neg ds,
       Str.all_chars Str.is_digit ds = true
       /\ Num.parseInt s = Num.mk_num neg ds 0.
Proof.
  unfold Num.parseInt.
  destruct (Num.read_sign (Str.trimStart s)) as [neg u].
  destruct (Num.hex_marker u) as [r|].
  - destruct (Num.read_hex None r) as [n|]; [|left; reflexivity].
    right. exists neg, (Num.N_to_digits n). split; [|reflexivity].
    apply N_to_digits_digits.
  - destruct (Num.take_while Str.is_digit u) as [|c r] eqn:Hds;
      [left; reflexivity|].
    right. exists neg, (String c r). split; [|reflexivity].
    rewrite <- Hds. apply all_chars_take_while.
Qed.

(** A number that [parseFloat] returned, [-0] apart, prints to a text that
    parses to the same number. *)
Lemma parseFloat_stable (s : string) :
  Num.is_negative_zero (Num.parseFloat s) = false ->
  Num.parseFloat (Num.to_string (Num.parseFloat s)) = Num.parseFloat s.
Proof.
  destruct (parseFloat_cases s) as [->|[[neg ->]|[neg [ds [e [Hds ->]]]]]].
  - reflexivity.
  - destruct neg; reflexivity.
  - destruct (mk_num_cases neg ds e Hds) as [->|[ds' [j [-> Hc]]]].
    + destruct neg; [discriminate|reflexivity].
    + intros _. apply parseFloat_to_string_canonical. assumption.
Qed.

(** An integer below [10^21] that [parseInt] returned, [-0] apart, prints
    to a text that parses to the same integer. *)
Lemma parseInt_stable (s : string) :
  Num.is_negative_zero (Num.parseInt s) = false ->
  below_1e21 (Num.parseInt s) = true ->
  Num.parseInt (Num.to_string (Num.parseInt s)) = Num.parseInt s.
Proof.
  destruct (parseInt_cases s) as [->|[neg [ds [Hds ->]]]]; [reflexivity|].
  destruct (mk_num_cases neg ds 0 Hds) as [->|[ds' [j [-> Hc]]]].
  - destruct neg; [discriminate|reflexivity].
  - simpl. intros _ Hsmall. apply Z.leb_le in Hsmall.
    apply parseInt_to_string_canonical; [assumption|lia|lia].
Qed.

Lemma steady_parts (n : Num.JsNum) :
  steady n = true -> Num.is_negative_zero n = false.
Proof.
  unfold steady. intros H. apply andb_prop in H. destruct H as [_ H].
  now apply negb_true_iff in H.
Qed.

(** ** Validation of validated data *)

(** A coerced leaf coerces to itself, a number provided it is not [-0] and,
    when it is declared an integer, it is below [10^21]. *)
Lemma validateType_stable {host : Host} (data : JsVal) (type key : string)
  (r : JsVal) :
  _validateType data type key = Ok r ->
  stable_leaf type r = true ->
  _validateType r type key = Ok r.
Proof.
  unfold _validateType.
  destruct (Str.startsWith "type:" type) eqn:Htype; simpl negb; cbv iota;
    [|intros H _; injection H as <-; reflexivity].
  set (kind := Str.toLowerCase (type_name type)).
  destruct (is_one_of kind ["string"; "str"]).
  { intros H _. injection H as <-. reflexivity. }
  destruct (is_one_of kind ["number"; "float"]) eqn:Hnum.
  { destruct (Num.isNaN (Js.parseFloat data)) eqn:Hnan; [discriminate|].
    intros H Hsteady. injection H as <-.
    unfold stable_leaf, is_number_kind in Hsteady. unfold kind in Hnum.
    rewrite Htype, Hnum in Hsteady.
    change (steady (Js.parseFloat data) = true) in Hsteady.
    apply steady_parts in Hsteady.
    change (Js.parseFloat (VNum (Js.parseFloat data)))
      with (Num.parseFloat
              (Num.to_string (Num.parseFloat (Js.to_string data)))).
    rewrite parseFloat_stable by exact Hsteady.
    fold (Js.parseFloat data). now rewrite Hnan. }
  destruct (is_one_of kind ["integer"; "int"]) eqn:Hint.
  { destruct (Num.isNaN (Js.parseInt data)) eqn:Hnan; [discriminate|].
    intros H Hsmall. injection H as <-.
    unfold stable_leaf, is_number_kind, is_integer_kind in Hsmall.
    unfold kind in Hnum, Hint. rewrite Htype, Hnum, Hint in Hsmall.
    change (steady (Js.parseInt data) && below_1e21 (Js.parseInt data) = true)
      in Hsmall.
    apply andb_prop in Hsmall. destruct Hsmall as [Hsteady Hsmall].
    apply steady_parts in Hsteady.
    change (Js.parseInt (VNum (Js.parseInt data)))
      with (Num.parseInt (Num.to_string (Num.parseInt (Js.to_string data)))).
    rewrite parseInt_stable by assumption.
    fold (Js.parseInt data). now rewrite Hnan. }
  destruct (is_one_of kind ["boolean"; "bool"]).
  { intros H _. destruct data as [| |b|n|s|items|entries];
      try discriminate H.
    - injection H as <-. reflexivity.
    - destruct (String.eqb (Str.toLowerCase s) "true").
      { injection H as <-. reflexivity. }
      destruct (String.eqb (Str.toLowerCase s) "false");
        [injection H as <-; reflexivity|discriminate]. }
  destruct (is_one_of kind ["array"; "list"]).
  { intros H _.
    assert (Harr : exists items, r = VArr items).
    { destruct data as [| |b|n|s|items|entries];
        try (destruct (JSON_parse _) as [[| | | | |parsed|]|];
             try discriminate H; injection H as <-; eauto).
      injection H as <-. eauto. }
    destruct Harr as [items ->]. reflexivity. }
  destruct (Str.startsWith "enum[" (type_name type)).
  { destruct (Js.includes (enum_values (type_name type)) data) eqn:Hin;
      [|discriminate].
    intros H _. injection H as <-. now rewrite Hin. }
  intros H _. injection H as <-. reflexivity.
Qed.

Lemma map_result_Forall2 {A B : Type} (f : A -> Result B) (l : list A)
  (ys : list B) :
  map_result f l = Ok ys -> Forall2 (fun x y => f x = Ok y) l ys.
Proof.
  revert ys. induction l as [|x r IH]; simpl; intros ys H.
  - injection H as <-. constructor.
  - destruct (f x) as [y|e] eqn:Hx; simpl in H; [|discriminate].
    destruct (map_result f r) as [ys'|e]; simpl in H; [|discriminate].
    injection H as <-. constructor; auto.
Qed.

Lemma map_result_fixed {A : Type} (f : A -> Result A) (ys : list A) :
  Forall (fun y => f y = Ok y) ys -> map_result f ys = Ok ys.
Proof.
  induction 1 as [|y r Hy _ IH]; simpl; [reflexivity|].
  now rewrite Hy, IH.
Qed.

Lemma assoc_unique (key : string) (v : JsVal)
  (before after : list (string * JsVal)) :
  ~ In key (map fst before) ->
  Js.assoc key (before ++ (key, v) :: after) = Some v.
Proof.
  induction before as [|[k w] r IH]; simpl; intros Hfresh.
  - now rewrite String.eqb_refl.
  - destruct (String.eqb key k) eqn:Heq.
    + apply String.eqb_eq in Heq. subst. tauto.
    + apply IH. tauto.
Qed.

Section ValidatedFields.

Variable validate : JsVal -> JsVal -> Result JsVal.

(** With pairwise different keys, the object built is the list of the
    validated values, in the order of the schema. *)
Lemma validate_fields_result (data : JsVal) (es validated : list (string * JsVal))
  (r : JsVal) :
  NoDup (map fst validated ++ map fst es) ->
  Forall (fun kv => fst kv <> "__proto__") es ->
  validate_fields validate data es validated = Ok r ->
  exists vs,
    r = VObj (validated ++ vs)
    /\ map fst vs = map fst es
    /\ Forall2 (fun kv kv' =>
                  validate (Js.get data (fst kv)) (snd kv) = Ok (snd kv'))
         es vs.
Proof.
  revert validated. induction es as [|[k node] rest IH]; simpl;
    intros acc Hnd Hplain H.
  - injection H as <-. exists []. rewrite app_nil_r. auto.
  - destruct (Js.has_property data k); simpl in H; [|discriminate].
    destruct (validate (Js.get data k) node) as [v|e] eqn:Hv; simpl in H;
      [|discriminate].
    inversion Hplain as [|? ? Hkey Hrest]; subst. simpl in Hkey.
    rewrite obj_set_fresh in H.
    + destruct (IH (acc ++ [(k, v)])%list) as [vs [Hr [Hkeys Hall]]].
      * rewrite map_app. simpl. rewrite <- app_assoc. exact Hnd.
      * exact Hrest.
      * exact H.
      * exists ((k, v) :: vs). rewrite Hr, <- app_assoc. simpl.
        split; [reflexivity|]. split; [now rewrite Hkeys|].
        constructor; assumption.
    + assumption.
    + apply NoDup_remove_2 in Hnd. intros Hin. apply Hnd.
      apply in_or_app. now left.
Qed.

(** An object whose values validate to themselves validates to itself. *)
Lemma validate_fields_fixed (whole es validated vs : list (string * JsVal)) :
  whole = (validated ++ vs)%list ->
  NoDup (map fst whole) ->
  Forall (fun kv => fst kv <> "__proto__") es ->
  map fst vs = map fst es ->
  Forall2 (fun kv kv' => validate (snd kv') (snd kv) = Ok (snd kv')) es vs ->
  validate_fields validate (VObj whole) es validated = Ok (VObj whole).
Proof.
  revert validated vs. induction es as [|[k node] rest IH];
    intros acc vs Hwhole Hnd Hplain Hkeys Hall.
  - destruct vs; [|discriminate]. rewrite app_nil_r in Hwhole.
    subst. reflexivity.
  - destruct vs as [|[k' v] vs']; [discriminate|].
    inversion Hall as [|? ? ? ? Hv Hrest]; subst. simpl in Hv.
    inversion Hplain as [|? ? Hkey Hprest]; subst. simpl in Hkey.
    simpl in Hkeys. injection Hkeys as -> Hkeys.
    assert (Hfresh : ~ In k (map fst acc)).
    { rewrite map_app in Hnd. simpl in Hnd. apply NoDup_remove_2 in Hnd.
      intros Hin. apply Hnd. apply in_or_app. now left. }
    simpl. unfold Js.has_property, Js.get. simpl.
    rewrite (assoc_unique k v acc vs' Hfresh). simpl. rewrite Hv. simpl.
    rewrite obj_set_fresh
      by assumption.
    apply (IH (acc ++ [(k, v)])%list vs').
    + now rewrite <- app_assoc.
    + assumption.
    + assumption.
    + assumption.
    + assumption.
Qed.

End ValidatedFields.

Lemma stable_numbers_entries (vs es : list (string * JsVal))
  (whole : list (string * JsVal)) (before : list (string * JsVal)) :
  whole = (before ++ vs)%list ->
  NoDup (map fst whole) ->
  map fst vs = map fst es ->
  (fix all (es : list (string * JsVal)) : bool :=
     match es with
     | [] => true
     | (key, node) :: rest =>
         stable_numbers (Js.get (VObj whole) key) node && all rest
     end) es = true ->
  Forall2 (fun kv kv' => stable_numbers (snd kv') (snd kv) = true) es vs.
Proof.
  revert vs before. induction es as [|[k node] rest IH];
    intros vs before Hwhole Hnd Hkeys Hall.
  - destruct vs; [constructor|discriminate].
  - destruct vs as [|[k' v] vs']; [discriminate|].
    simpl in Hkeys. injection Hkeys as -> Hkeys.
    apply andb_prop in Hall. destruct Hall as [Hv Hrest].
    assert (Hfresh : ~ In k (map fst before)).
    { subst whole. rewrite map_app in Hnd. simpl in Hnd.
      apply NoDup_remove_2 in Hnd. intros Hin. apply Hnd.
      apply in_or_app. now left. }
    unfold Js.get in Hv. simpl in Hv. rewrite Hwhole in Hv.
    rewrite (assoc_unique k v before vs' Hfresh) in Hv.
    constructor; [exact Hv|].
    apply (IH vs' (before ++ [(k, v)])%list).
    + now rewrite <- app_assoc.
    + assumption.
    + assumption.
    + assumption.
Qed.

Lemma validateSchema_stable {host : Host} (schema : JsVal) :
  unique_keys schema = true ->
  proto_free schema = true ->
  forall data r,
    _validateSchema data schema = Ok r ->
    stable_numbers r schema = true ->
    _validateSchema r schema = Ok r.
Proof.
  induction schema as [| | | |annotation|elems IH|entries IH] using JsVal_ind;
    intros Hu Hp data r Hr Hsmall;
    try (simpl in Hr; injection Hr as <-; reflexivity).
  - (* an annotation *)
    simpl in *. destruct (Str.startsWith "type:" annotation) eqn:Htype;
      [|injection Hr as <-; reflexivity].
    apply (validateType_stable data); assumption.
  - (* an array of nodes *)
    simpl in Hr. destruct data as [| | | | |items|]; try discriminate Hr.
    destruct (map_result _ items) as [validated|e] eqn:Hmap; simpl in Hr;
      [|discriminate].
    injection Hr as <-. apply map_result_Forall2 in Hmap.
    simpl. rewrite map_result_fixed; [reflexivity|].
    destruct elems as [|first rest].
    + clear. induction validated; constructor; auto.
    + inversion IH as [|? ? IHfirst _]; subst.
      simpl in Hu. apply andb_prop in Hu. destruct Hu as [Hu _].
      simpl in Hp. apply andb_prop in Hp. destruct Hp as [Hp _].
      simpl in Hsmall. rewrite forallb_forall in Hsmall.
      clear IH. induction Hmap as [|x y xs ys Hxy _ IHrest];
        constructor.
      * apply (IHfirst Hu Hp x y Hxy). apply Hsmall. now left.
      * apply IHrest. intros z Hz. apply Hsmall. now right.
  - (* an object of nodes *)
    rewrite validateSchema_object_eq in Hr.
    destruct (Js.is_object data); [|discriminate].
    simpl in Hu. apply andb_prop in Hu. destruct Hu as [Hd Hvals].
    apply distinct_NoDup in Hd. apply unique_keys_entries in Hvals.
    pose proof (proto_free_declared _ Hp) as Hdecl.
    apply proto_free_entries in Hp.
    destruct (validate_fields_result _ data entries [] r Hd Hdecl Hr)
      as [vs [-> [Hkeys Hfirst]]].
    simpl app in *. rewrite validateSchema_object_eq. simpl Js.is_object.
    cbv iota.
    assert (Hnd : NoDup (map fst vs)) by (rewrite Hkeys; assumption).
    apply (validate_fields_fixed _ vs entries [] vs eq_refl Hnd Hdecl Hkeys).
    pose proof (stable_numbers_entries vs entries vs [] eq_refl Hnd Hkeys
                  Hsmall) as Hbelow.
    clear Hr Hsmall Hkeys Hnd Hd Hdecl.
    induction Hfirst as [|kv kv' es vs' Hkv _ IHrest]; [constructor|].
    inversion IH as [|? ? IHkv IHes]; subst.
    inversion Hvals as [|? ? Hukv Hues]; subst.
    inversion Hp as [|? ? Hpkv Hpes]; subst.
    inversion Hbelow as [|? ? ? ? Hbkv Hbes]; subst.
    constructor; [|apply IHrest; assumption].
    apply (IHkv Hukv Hpkv _ _ Hkv Hbkv).
Qed.

(** C8 does not hold as the specification states it: the integer [10^21] prints as
    [1e+21], which [parseInt] reads as [1]. *)
Lemma validateSchema_not_idempotent :
  ~ (forall (host : Host) (data schema r : JsVal),
        _validateSchema data schema = Ok r ->
        _validateSchema r schema = Ok r).
Proof.
  intros claim.
  specialize (claim Sample.host
                (VObj [("n", VStr SampleNumbers.sextillion_text)])
                (VObj [("n", VStr "type:integer")])
                (VObj [("n", SampleNumbers.sextillion)]) eq_refl).
  vm_compute in claim. discriminate claim.
Qed.

(** C8, amended: for every data value and every schema whose objects have
    pairwise different keys, none of which is [__proto__], if
    [validate(data, schema)] succeeds with [r] and every number of [r] at a
    leaf declared [number], [float], [integer] or [int] is held exactly by
    binary64 (at most 15 significant digits, a magnitude between [10^-300]
    and [10^300]), is not [-0] and, when the leaf is declared [integer] or
    [int], is below [10^21] in magnitude, then [validate(r, schema)]
    succeeds with [r] again. *)
Theorem validateSchema_idempotent :
  forall (host : Host) (data schema r : JsVal),
    unique_keys schema = true ->
    proto_free schema = true ->
    _validateSchema data schema = Ok r ->
    stable_numbers r schema = true ->
    _validateSchema r schema = Ok r.
Proof.
  intros host data schema r Hu Hp Hr Hsmall.
  exact (validateSchema_stable schema Hu Hp data r Hr Hsmall).
Qed.

Lemma validateSchema_idempotent_witness :
  _validateSchema (host := Sample.host) Sample.validated_person
    Sample.person_schema
  = Ok Sample.validated_person.
Proof.
  apply (validateSchema_idempotent Sample.host Sample.person
           Sample.person_schema Sample.validated_person);
    reflexivity.
Defined.

(** ** Examples *)

Example constructor_defaults :
  constructor (Sample.config None) = Ok (Sample.generator 3)
  /\ constructor
       {| cfg_apiKey := None; cfg_model := None; cfg_referer := None;
          cfg_appName := None; cfg_maxRetries := None; cfg_delimiter := None |}
     = Throw (mkError Error "OpenRouter API key is required").
Proof. split; reflexivity. Qed.

(** A declared key [__proto__] is validated and then lost: the assignment
    to the object under construction makes no property. *)
Example proto_key_is_not_copied :
  _validateSchema (host := Sample.host)
    (VObj [("__proto__", VStr "x"); ("a", VStr "1")])
    (VObj [("__proto__", VStr "type:string"); ("a", VStr "type:integer")])
  = Ok (VObj [("a", VNum (Num.of_Z 1))]).
Proof. reflexivity. Qed.

(** [-0] is read with its sign and printed without it. *)
Example negative_zero :
  Num.parseFloat "-0" = Num.Fin true EmptyString 0
  /\ Num.to_string (Num.parseFloat "-0") = "0"
  /\ Num.parseFloat (Num.to_string (Num.parseFloat "-0"))
     = Num.Fin false EmptyString 0.
Proof. repeat split; reflexivity. Qed.

Example coerce_literals :
  _validateType (host := Sample.host) (VStr "30") "type:integer" "age"
  = Ok (VNum (Num.of_Z 30))
  /\ _validateType (host := Sample.host) (VStr "TRUE") "type:boolean" "flag"
     = Ok (VBool true)
  /\ _validateType (host := Sample.host) (VStr "[1,2]") "type:array" "list"
     = Ok (VArr [VNum (Num.of_Z 1); VNum (Num.of_Z 2)])
  /\ _validateType (host := Sample.host) (VNum (Num.of_Z 7)) "type:string" "n"
     = Ok (VStr "7")
  /\ _validateType (host := Sample.host) (VStr "abc") "type:integer" "age"
     = Throw (field_error "age" "an integer")
  /\ _validateType (host := Sample.host) (VStr "yes") "type:unknown" "x"
     = Ok (VStr "yes").
Proof. repeat split; reflexivity. Qed.

Example validate_person :
  _validateSchema (host := Sample.host) Sample.person Sample.person_schema
  = Ok Sample.validated_person.
Proof. reflexivity. Qed.

Example number_texts :
  map (fun s => Num.to_string (Num.parseFloat s))
    ["42.5"; "0.000001"; "0.0000001"; "-12.50"; ".5e3"; "1e21"; "Infinity"]
  = ["42.5"; "0.000001"; "1e-7"; "-12.5"; "500"; "1e+21"; "Infinity"].
Proof. reflexivity. Qed.

Example integer_texts :
  Num.parseInt "0x1F" = Num.of_Z 31
  /\ Num.parseInt "  -42px" = Num.of_Z (-42)
  /\ Num.parseInt "3.5xyz" = Num.of_Z 3
  /\ Num.parseInt "0xyz" = Num.NaN
  /\ Num.parseInt SampleNumbers.sextillion_text = Num.Fin false "1" 21
  /\ Num.parseInt (Num.to_string (Num.Fin false "1" 21)) = Num.of_Z 1.
Proof. repeat split; reflexivity. Qed.

(* ------------------------------------------------------------------ *)
(** * Further properties *)
(* ------------------------------------------------------------------ *)

(** ** The outcomes of the retry loop *)

Section LoopOutcomes.

Context {host : Host}.
Variables (this : JsonGenerator) (endpoint : Endpoint).
Variables (schema : JsVal) (validators : list Validator).
Variables final user : string.

Let body := attempt_body this endpoint schema validators final user.
Let loop := attempts this endpoint schema validators final user.
Let request := request_of this final user.

Lemma loop_step n attempt lastError trace :
  loop (S n) attempt lastError trace
  = match body lastError trace with
    | (Ok result, trace) => (Ok result, trace)
    | (Throw error, trace) =>
        if (attempt =? maxRetries this - 1)%Z then (Throw error, trace)
        else loop n (attempt + 1)%Z (Some (message error)) trace
    end.
Proof. reflexivity. Qed.

Lemma body_trace lastError trace outcome trace' :
  body lastError trace = (outcome, trace') ->
  trace' = (trace ++ [request lastError])%list.
Proof.
  unfold body, attempt_body, send, request. intros Heq.
  injection Heq as _ <-. reflexivity.
Qed.

(** An attempt fails in one of five ways only. *)
Lemma body_failure lastError trace e trace' :
  body lastError trace = (Throw e, trace') ->
  endpoint (List.length trace) (request lastError) = FetchRejects e
  \/ (exists error_message statusText,
         endpoint (List.length trace) (request lastError)
         = FetchNotOk error_message statusText
         /\ e = provider_error error_message statusText)
  \/ (exists content,
         endpoint (List.length trace) (request lastError) = FetchOk content
         /\ (JSON_parse (_cleanJsonString content) = Throw e
             \/ exists parsed,
                 JSON_parse (_cleanJsonString content) = Ok parsed
                 /\ (_validateSchema parsed schema = Throw e
                     \/ exists result,
                         _validateSchema parsed schema = Ok result
                         /\ run_validators validators result = Throw e))).
Proof.
  unfold body, attempt_body, send, request.
  destruct (endpoint (List.length trace) (request_of this final user lastError))
    as [e0|m st|content]; simpl; intros Heq.
  - injection Heq as <- _. now left.
  - injection Heq as <- _. right. left. exists m, st. auto.
  - injection Heq as Hres _.
    right. right. exists content. split; [reflexivity|].
    destruct (JSON_parse (_cleanJsonString content)) as [parsed|e0];
      simpl in Hres; [|injection Hres as <-; now left].
    right. exists parsed. split; [reflexivity|].
    destruct (_validateSchema parsed schema) as [result|e0]; simpl in Hres;
      [|injection Hres as <-; now left].
    right. exists result. split; [reflexivity|].
    destruct (run_validators validators result) as [[]|e0]; simpl in Hres;
      [discriminate|injection Hres as <-; reflexivity].
Qed.

Lemma body_success lastError trace result trace' :
  body lastError trace = (Ok result, trace') ->
  exists content parsed,
    endpoint (List.length trace) (request lastError) = FetchOk content
    /\ JSON_parse (_cleanJsonString content) = Ok parsed
    /\ _validateSchema parsed schema = Ok result
    /\ run_validators validators result = Ok tt.
Proof.
  unfold body, attempt_body, send, request.
  destruct (endpoint (List.length trace) (request_of this final user lastError))
    as [e|m st|content]; simpl; intros Heq; try discriminate.
  injection Heq as Hres _.
  destruct (JSON_parse (_cleanJsonString content)) as [parsed|e] eqn:Hparse;
    simpl in Hres; [|discriminate].
  destruct (_validateSchema parsed schema) as [validated|e] eqn:Hvalid;
    simpl in Hres; [|discriminate].
  destruct (run_validators validators validated) as [[]|e] eqn:Hval;
    simpl in Hres; [|discriminate].
  injection Hres as <-. exists content, parsed. auto.
Qed.

(** What the loop returns, read backwards: a rejection closes a run of
    failures as long as the loop, a value comes from a successful attempt
    (or from a loop with nothing to run). *)
Lemma loop_outcome n :
  forall attempt lastError trace outcome trace',
    (attempt + Z.of_nat n = maxRetries this)%Z ->
    loop n attempt lastError trace = (outcome, trace') ->
    match outcome with
    | Throw e =>
        all_fail this endpoint schema validators final user
          n lastError trace e trace'
    | Ok result =>
        (n = 0 /\ result = VUndefined /\ trace' = trace)
        \/ exists j,
             j < n
             /\ succeeds_after this endpoint schema validators final user
                  j lastError trace result trace'
    end.
Proof.
  induction n as [|n IH]; intros attempt lastError trace outcome trace' Hsum.
  - intros Heq. injection Heq as <- <-. left. auto.
  - rewrite loop_step. destruct (body lastError trace) as [[result|e] t1] eqn:Hb.
    + intros Heq. injection Heq as <- <-. right. exists 0. split; [lia|].
      apply succeeds_now. exact Hb.
    + destruct (attempt =? maxRetries this - 1)%Z eqn:Hlast.
      * intros Heq. injection Heq as <- <-. apply Z.eqb_eq in Hlast.
        assert (n = 0) by lia. subst n. apply all_fail_last. exact Hb.
      * apply Z.eqb_neq in Hlast. intros Hrest.
        assert (Hn : n <> 0) by lia.
        specialize (IH (attempt + 1)%Z (Some (message e)) t1 outcome trace').
        assert (Hsum' : (attempt + 1 + Z.of_nat n = maxRetries this)%Z) by lia.
        specialize (IH Hsum' Hrest). destruct outcome as [result|e'].
        -- destruct IH as [[Hzero _]|[j [Hj Hrun]]]; [contradiction|].
           right. exists (S j). split; [lia|].
           eapply succeeds_later; eassumption.
        -- destruct n as [|n']; [contradiction|].
           eapply all_fail_next; eassumption.
Qed.

Lemma loop_succeeds j :
  forall attempt lastError trace result trace' n,
    succeeds_after this endpoint schema validators final user
      j lastError trace result trace' ->
    j < n ->
    (attempt + Z.of_nat n = maxRetries this)%Z ->
    loop n attempt lastError trace = (Ok result, trace').
Proof.
  induction j as [|j IH]; intros attempt lastError trace result trace' n Hrun Hj Hsum;
    inversion Hrun as [? ? ? ? Hb|? ? ? ? ? ? ? Hb Hrest]; subst;
    (destruct n as [|n]; [lia|]); rewrite loop_step; fold body in Hb;
    rewrite Hb; [reflexivity|].
  replace (attempt =? maxRetries this - 1)%Z with false
    by (symmetry; apply Z.eqb_neq; lia).
  apply (IH _ _ _ _ _ n Hrest); lia.
Qed.

Lemma succeeds_after_trace j :
  forall lastError trace result trace',
    succeeds_after this endpoint schema validators final user
      j lastError trace result trace' ->
    List.length trace' = List.length trace + S j.
Proof.
  induction j as [|j IH]; intros lastError trace result trace' Hrun;
    inversion Hrun as [? ? ? ? Hb|? ? ? ? ? ? ? Hb Hrest]; subst;
    fold body in Hb; apply body_trace in Hb; subst.
  - rewrite length_app. simpl. lia.
  - apply IH in Hrest. rewrite Hrest, length_app. simpl. lia.
Qed.

Lemma succeeds_after_validated j :
  forall lastError trace result trace',
    succeeds_after this endpoint schema validators final user
      j lastError trace result trace' ->
    exists content parsed,
      JSON_parse (_cleanJsonString content) = Ok parsed
      /\ _validateSchema parsed schema = Ok result
      /\ run_validators validators result = Ok tt.
Proof.
  induction j as [|j IH]; intros lastError trace result trace' Hrun;
    inversion Hrun as [? ? ? ? Hb|? ? ? ? ? ? ? Hb Hrest]; subst.
  - fold body in Hb. apply body_success in Hb.
    destruct Hb as [content [parsed [_ H]]]. eauto.
  - eapply IH. exact Hrest.
Qed.

Lemma all_fail_trace n :
  forall lastError trace e trace',
    all_fail this endpoint schema validators final user
      n lastError trace e trace' ->
    List.length trace' = List.length trace + n.
Proof.
  intros lastError trace e trace' Hall.
  induction Hall as [lastError trace e trace' Hb
                    |n lastError trace e trace' e' trace'' Hb _ IH];
    fold body in Hb; apply body_trace in Hb; subst.
  - rewrite length_app. simpl. lia.
  - rewrite IH, length_app. simpl. lia.
Qed.

(** The requests the loop adds to the trace. *)
Lemma loop_requests n :
  forall attempt lastError trace outcome trace',
    loop n attempt lastError trace = (outcome, trace') ->
    exists sent,
      trace' = (trace ++ sent)%list
      /\ List.length sent <= n
      /\ Forall (well_formed_request this final user) sent
      /\ (lastError = None ->
          forall first rest, sent = first :: rest -> req_system first = final).
Proof.
  assert (Hwf : forall lastError,
             well_formed_request this final user (request lastError)).
  { intros lastError. split; [reflexivity|]. split; [reflexivity|].
    eexists. reflexivity. }
  assert (Hfirst : forall (lastError : option string) sent,
             lastError = None ->
             forall first rest,
               request lastError :: sent = first :: rest ->
               req_system first = final).
  { intros lastError sent -> first rest Hsent. injection Hsent as <- _.
    simpl. unfold system_content. apply append_empty_r. }
  induction n as [|n IH]; intros attempt lastError trace outcome trace'.
  - intros Heq. injection Heq as _ <-. exists []. rewrite app_nil_r.
    split; [reflexivity|]. split; [simpl; lia|]. split; [constructor|].
    discriminate.
  - rewrite loop_step.
    destruct (body lastError trace) as [[result|e] t1] eqn:Hb;
      pose proof (body_trace _ _ _ _ Hb) as Ht1; subst t1.
    + intros Heq. injection Heq as _ <-. exists [request lastError].
      split; [reflexivity|]. split; [simpl; lia|].
      split; [constructor; [apply Hwf|constructor]|]. apply Hfirst.
    + destruct (attempt =? maxRetries this - 1)%Z.
      * intros Heq. injection Heq as _ <-. exists [request lastError].
        split; [reflexivity|]. split; [simpl; lia|].
        split; [constructor; [apply Hwf|constructor]|]. apply Hfirst.
      * intros Hrest. apply IH in Hrest.
        destruct Hrest as [sent [-> [Hlen [Hall _]]]].
        exists (request lastError :: sent).
        split; [now rewrite <- app_assoc|]. split; [simpl; lia|].
        split; [constructor; [apply Hwf|assumption]|]. apply Hfirst.
Qed.

End LoopOutcomes.

(** X1: for a schema with at least one field and [maxRetries] at least 1,
    [generate] resolves with [r] exactly when some attempt within
    [maxRetries] succeeds with [r] after the failure of every earlier one;
    [r] is then the validation of parsed, sanitized text, accepted by every
    custom validator, and one request was sent per attempt made. *)
Theorem generate_resolves_validated :
  forall (host : Host) (this : JsonGenerator) (endpoint : Endpoint)
    (p : GenerateParams) (t0 : list Request),
    is_schema (schema p) = true ->
    (1 <= maxRetries this)%Z ->
    exists user,
      _createStructuredPrompt default_example (prompt p) (schema p) = Ok user
      /\
      let final := string_or (systemPrompt p) (baseSystemPrompt (schema p)) in
      forall r t',
        (generate this endpoint p t0 = (Ok r, t')
         <-> exists j,
               (Z.of_nat j < maxRetries this)%Z
               /\ succeeds_after this endpoint (schema p) (customValidators p)
                    final user j None t0 r t')
        /\ (generate this endpoint p t0 = (Ok r, t') ->
            (exists content parsed,
                JSON_parse (_cleanJsonString content) = Ok parsed
                /\ _validateSchema parsed (schema p) = Ok r
                /\ run_validators (customValidators p) r = Ok tt)
            /\ List.length t0 < List.length t'
            /\ (Z.of_nat (List.length t')
                <= Z.of_nat (List.length t0) + maxRetries this)%Z).
Proof.
  intros host this endpoint p t0 Hs Hmax.
  destruct (generate_enters_loop this endpoint p t0 Hs) as [user [Huser Hgen]].
  exists user. split; [assumption|]. intros final r t'.
  assert (Hiff :
    generate this endpoint p t0 = (Ok r, t')
    <-> exists j,
          (Z.of_nat j < maxRetries this)%Z
          /\ succeeds_after this endpoint (schema p) (customValidators p)
               final user j None t0 r t').
  { rewrite Hgen. split.
    - intros Hloop.
      pose proof (loop_outcome this endpoint (schema p) (customValidators p)
                    final user (Z.to_nat (maxRetries this)) 0%Z None t0
                    (Ok r) t') as Hout.
      simpl in Hout.
      destruct Hout as [[Hzero _]|[j [Hj Hrun]]]; [lia|exact Hloop|lia|].
      exists j. split; [lia|assumption].
    - intros [j [Hj Hrun]].
      apply (loop_succeeds this endpoint (schema p) (customValidators p)
               final user j 0%Z None t0 r t' _ Hrun); lia. }
  split; [exact Hiff|]. intros Hres. apply Hiff in Hres.
  destruct Hres as [j [Hj Hrun]].
  pose proof (succeeds_after_trace _ _ _ _ _ _ _ _ _ _ _ Hrun) as Hlen.
  split; [|split; lia].
  eapply succeeds_after_validated. exact Hrun.
Qed.

Lemma generate_resolves_validated_witness :
  generate (host := Sample.host) (Sample.generator 3) Sample.recovering
    Sample.params []
  = (Ok Sample.validated_person, Sample.requests).
Proof.
  destruct (generate_resolves_validated Sample.host (Sample.generator 3)
              Sample.recovering Sample.params [] eq_refl)
    as [user [Huser Hgen]]; [simpl; lia|].
  vm_compute in Huser. injection Huser as <-.
  apply (proj1 (Hgen Sample.validated_person Sample.requests)).
  exists 2. split; [simpl; lia|].
  apply succeeds_later with (e := Sample.unexpected_token)
                            (trace' := firstn 1 Sample.requests);
    [vm_compute; reflexivity|].
  apply succeeds_later with (e := Sample.too_many_requests)
                            (trace' := firstn 2 Sample.requests);
    [vm_compute; reflexivity|].
  apply succeeds_now. vm_compute. reflexivity.
Defined.

(** X2: for a schema with at least one field, [generate] rejects with [e]
    exactly when [maxRetries] is at least 1 and every one of the [maxRetries]
    attempts fails, [e] being the error of the last one; exactly
    [maxRetries] requests were then sent. *)
Theorem generate_rejects_after_all_attempts :
  forall (host : Host) (this : JsonGenerator) (endpoint : Endpoint)
    (p : GenerateParams) (t0 : list Request),
    is_schema (schema p) = true ->
    exists user,
      _createStructuredPrompt default_example (prompt p) (schema p) = Ok user
      /\
      let final := string_or (systemPrompt p) (baseSystemPrompt (schema p)) in
      forall e t',
        (generate this endpoint p t0 = (Throw e, t')
         <-> (1 <= maxRetries this)%Z
             /\ all_fail this endpoint (schema p) (customValidators p)
                  final user (Z.to_nat (maxRetries this)) None t0 e t')
        /\ (generate this endpoint p t0 = (Throw e, t') ->
            Z.of_nat (List.length t')
            = (Z.of_nat (List.length t0) + maxRetries this)%Z).
Proof.
  intros host this endpoint p t0 Hs.
  destruct (generate_enters_loop this endpoint p t0 Hs) as [user [Huser Hgen]].
  exists user. split; [assumption|]. intros final e t'.
  assert (Hiff :
    generate this endpoint p t0 = (Throw e, t')
    <-> (1 <= maxRetries this)%Z
        /\ all_fail this endpoint (schema p) (customValidators p)
             final user (Z.to_nat (maxRetries this)) None t0 e t').
  { rewrite Hgen. split.
    - intros Hloop.
      destruct (Z_lt_le_dec (maxRetries this) 1) as [Hlow|Hok].
      + replace (Z.to_nat (maxRetries this)) with 0 in Hloop by lia.
        discriminate Hloop.
      + split; [assumption|].
        apply (loop_outcome this endpoint (schema p) (customValidators p)
                 final user (Z.to_nat (maxRetries this)) 0%Z None t0
                 (Throw e) t'); [lia|exact Hloop].
    - intros [Hmax Hall].
      apply (attempts_all_fail this endpoint (schema p) (customValidators p)
               final user _ _ _ _ _ Hall). lia. }
  split; [exact Hiff|]. intros Hres. apply Hiff in Hres.
  destruct Hres as [Hmax Hall].
  apply (all_fail_trace this endpoint (schema p) (customValidators p)
           final user) in Hall. lia.
Qed.

Lemma generate_rejects_after_all_attempts_witness :
  all_fail (host := Sample.host) (Sample.generator 3) Sample.failing
    Sample.person_schema [] "Answer in JSON." Sample.user_message
    3 None [] Sample.too_many_requests Sample.requests.
Proof.
  destruct (generate_rejects_after_all_attempts Sample.host
              (Sample.generator 3) Sample.failing Sample.params [] eq_refl)
    as [user [Huser Hgen]].
  vm_compute in Huser. injection Huser as <-.
  apply (proj1 (Hgen Sample.too_many_requests Sample.requests)).
  vm_compute. reflexivity.
Defined.

(** X3: whatever it returns, [generate] only adds requests to the trace, at
    most [maxRetries] of them; for a schema with at least one field each of
    them carries the model of the generator, the structured prompt as user
    message and a system message that starts with the final system prompt,
    and the first one carries the final system prompt alone. *)
Theorem generate_requests :
  forall (host : Host) (this : JsonGenerator) (endpoint : Endpoint)
    (p : GenerateParams) (t0 : list Request) (outcome : Result JsVal)
    (t' : list Request),
    generate this endpoint p t0 = (outcome, t') ->
    exists sent,
      t' = (t0 ++ sent)%list
      /\ (Z.of_nat (List.length sent) <= Z.max 0 (maxRetries this))%Z
      /\ (is_schema (schema p) = true ->
          exists user,
            _createStructuredPrompt default_example (prompt p) (schema p)
            = Ok user
            /\ let final :=
                 string_or (systemPrompt p) (baseSystemPrompt (schema p)) in
               Forall (well_formed_request this final user) sent
               /\ forall first rest,
                   sent = first :: rest -> req_system first = final).
Proof.
  intros host this endpoint p t0 outcome t' Hgen.
  destruct (is_schema (schema p)) eqn:Hs.
  - destruct (generate_enters_loop this endpoint p t0 Hs)
      as [user [Huser Hloop]].
    rewrite Hloop in Hgen.
    apply (loop_requests this endpoint (schema p) (customValidators p)) in Hgen.
    destruct Hgen as [sent [-> [Hlen [Hall Hfirst]]]].
    exists sent. split; [reflexivity|]. split; [lia|].
    intros _. exists user. split; [assumption|]. simpl. split; [assumption|].
    apply Hfirst. reflexivity.
  - unfold generate in Hgen.
    destruct (Js.Object_keys
                match schema p with
                | VUndefined => VObj []
                | s => s
                end) as [keys|e].
    + destruct (Nat.eqb (List.length keys) 0).
      * simpl in Hgen. injection Hgen as _ <-. exists [].
        rewrite app_nil_r. split; [reflexivity|]. split; [simpl; lia|].
        discriminate.
      * destruct (_createStructuredPrompt default_example (prompt p)
                    match schema p with
                    | VUndefined => VObj []
                    | s => s
                    end) as [user|e].
        -- apply (loop_requests this endpoint) in Hgen.
           destruct Hgen as [sent [-> [Hlen _]]].
           exists sent. split; [reflexivity|]. split; [lia|]. discriminate.
        -- injection Hgen as _ <-. exists []. rewrite app_nil_r.
           split; [reflexivity|]. split; [simpl; lia|]. discriminate.
    + injection Hgen as _ <-. exists []. rewrite app_nil_r.
      split; [reflexivity|]. split; [simpl; lia|]. discriminate.
Qed.

Lemma generate_requests_witness :
  exists sent,
    Sample.requests = ([] ++ sent)%list
    /\ (Z.of_nat (List.length sent) <= Z.max 0 3)%Z.
Proof.
  destruct (generate_requests Sample.host (Sample.generator 3)
              Sample.recovering Sample.params [] (Ok Sample.validated_person)
              Sample.requests)
    as [sent [Hsent [Hlen _]]]; [vm_compute; reflexivity|].
  exists sent. split; assumption.
Defined.

(** X4: an attempt fails with [e] exactly when its request has been sent,
    and is the one request added to the trace, and one of five things
    happened: the transport raised [e]; the response was not [ok] and [e] is
    the provider error built from the message of the body or else from the
    status text; the host raised [e] on parsing the sanitized text;
    validation raised [e]; or a custom validator refused the validated
    value with [e]. *)
Theorem attempt_failure_sources :
  forall (host : Host) (this : JsonGenerator) (endpoint : Endpoint)
    (schema : JsVal) (validators : list Validator) (final user : string)
    (lastError : option string) (trace : list Request) (e : JsError)
    (trace' : list Request),
    let request := request_of this final user lastError in
    let answer := endpoint (List.length trace) request in
    attempt_body this endpoint schema validators final user lastError trace
    = (Throw e, trace')
    <-> trace' = (trace ++ [request])%list
        /\ (answer = FetchRejects e
            \/ (exists error_message statusText,
                   answer = FetchNotOk error_message statusText
                   /\ e = provider_error error_message statusText)
            \/ (exists content,
                   answer = FetchOk content
                   /\ (JSON_parse (_cleanJsonString content) = Throw e
                       \/ exists parsed,
                           JSON_parse (_cleanJsonString content) = Ok parsed
                           /\ (_validateSchema parsed schema = Throw e
                               \/ exists result,
                                   _validateSchema parsed schema = Ok result
                                   /\ run_validators validators result
                                      = Throw e)))).
Proof.
  intros host this endpoint schema validators final user lastError trace e
    trace' request answer.
  split.
  - intros Hbody. split.
    + exact (body_trace this endpoint schema validators final user
               lastError trace (Throw e) trace' Hbody).
    + exact (body_failure this endpoint schema validators final user
               lastError trace e trace' Hbody).
  - intros [-> Hcase]. unfold attempt_body, send.
    fold request. fold answer.
    destruct Hcase as [Ha|[[m [st [Ha ->]]]|[content [Ha Hcase]]]];
      rewrite Ha; simpl; [reflexivity|reflexivity|].
    destruct Hcase as [Hp|[parsed [Hp Hcase]]]; rewrite Hp; simpl;
      [reflexivity|].
    destruct Hcase as [Hv|[result [Hv Hr]]]; rewrite Hv; simpl;
      [reflexivity|].
    rewrite Hr. reflexivity.
Qed.

Lemma attempt_failure_sources_witness :
  attempt_body (host := Sample.host) (Sample.generator 3) Sample.recovering
    Sample.person_schema [] "Answer in JSON." Sample.user_message
    (Some "Unexpected token s in JSON at position 0")
    (firstn 1 Sample.requests)
  = (Throw Sample.too_many_requests, firstn 2 Sample.requests).
Proof.
  apply (proj2 (attempt_failure_sources Sample.host (Sample.generator 3)
                  Sample.recovering Sample.person_schema []
                  "Answer in JSON." Sample.user_message
                  (Some "Unexpected token s in JSON at position 0")
                  (firstn 1 Sample.requests) Sample.too_many_requests
                  (firstn 2 Sample.requests))).
  split; [vm_compute; reflexivity|].
  right. left. exists VUndefined, "Too Many Requests".
  split; vm_compute; reflexivity.
Defined.

(** ** Schemas with a [null] field *)

Lemma formatField_null (example v : JsVal) :
  forall key path,
    formatField example key v path
    = (if has_null_field v then Throw Js.null_to_object
       else formatField example key v path)
    /\ (has_null_field v = false ->
        exists s, formatField example key v path = Ok s).
Proof.
  induction v as [| | | | |items IH|entries IH] using JsVal_ind;
    intros key path; simpl has_null_field.
  - split; [reflexivity|]. intros _. simpl. eexists. reflexivity.
  - split; [reflexivity|discriminate].
  - split; [reflexivity|]. intros _. simpl. eexists. reflexivity.
  - split; [reflexivity|]. intros _. simpl. eexists. reflexivity.
  - split; [reflexivity|]. intros _. simpl.
    destruct (Str.startsWith "type:" s); [|eauto].
    destruct (Str.startsWith "enum[" (type_name s)); eauto.
  - split; [reflexivity|]. intros _. simpl. eexists. reflexivity.
  - set (here := currentPath path key).
    set (any := (fix any (es : list (string * JsVal)) : bool :=
                   match es with
                   | [] => false
                   | (_, x) :: r => has_null_field x || any r
                   end)).
    set (each := (fix each (es : list (string * JsVal))
                    : Result (list string) :=
                    match es with
                    | [] => Ok []
                    | (k, v) :: rest =>
                        p <- formatField example k v here ;;
                        ps <- each rest ;; Ok (p :: ps)
                    end)).
    assert (Hparts :
      (any entries = true -> each entries = Throw Js.null_to_object)
      /\ (any entries = false -> exists parts, each entries = Ok parts)).
    { induction entries as [|[k v] rest IHrest]; simpl.
      - split; [discriminate|eauto].
      - inversion IH as [|? ? Hv Hrest]; subst. simpl in Hv.
        destruct (Hv k here) as [Hnull Hok].
        destruct (IHrest Hrest) as [Hany Hnone].
        destruct (has_null_field v) eqn:Hhas; simpl.
        + split; [|discriminate]. intros _. now rewrite Hnull.
        + destruct (Hok eq_refl) as [s Hs]. rewrite Hs. simpl. split.
          * intros Hr. now rewrite (Hany Hr).
          * intros Hr. destruct (Hnone Hr) as [ps Hps]. rewrite Hps.
            simpl. eauto. }
    destruct Hparts as [Hany Hnone].
    change (formatField example key (VObj entries) path)
      with (parts <- each entries ;; Ok (Str.join ", " parts)).
    destruct (any entries) eqn:Hhas.
    + split; [|discriminate]. now rewrite (Hany eq_refl).
    + split; [reflexivity|]. intros _.
      destruct (Hnone eq_refl) as [parts Hparts]. rewrite Hparts.
      simpl. eauto.
Qed.

Lemma createStructuredPrompt_null (example : JsVal) (userPrompt : string)
  (entries : list (string * JsVal)) :
  (has_null_field (VObj entries) = true ->
   _createStructuredPrompt example userPrompt (VObj entries)
   = Throw Js.null_to_object)
  /\ (has_null_field (VObj entries) = false ->
      exists s, _createStructuredPrompt example userPrompt (VObj entries)
                = Ok s).
Proof.
  unfold _createStructuredPrompt. simpl.
  induction entries as [|[k v] rest IH]; simpl.
  - split; [discriminate|eauto].
  - destruct (formatField_null example v k EmptyString) as [Hnull Hok].
    destruct IH as [Hany Hnone].
    destruct (has_null_field v) eqn:Hhas; simpl.
    + split; [|discriminate]. intros _. now rewrite Hnull.
    + destruct (Hok eq_refl) as [s Hs]. rewrite Hs. simpl. split.
      * intros Hr. specialize (Hany Hr).
        destruct (map_result
                    (fun kv => formatField example (fst kv) (snd kv)
                                 EmptyString) rest) as [ps|e];
          simpl in *; [discriminate|congruence].
      * intros Hr. destruct (Hnone Hr) as [s' Hs'].
        destruct (map_result
                    (fun kv => formatField example (fst kv) (snd kv)
                                 EmptyString) rest) as [ps|e];
          simpl in *; [eauto|discriminate].
Qed.

(** X5: [_createStructuredPrompt] fails on an object schema exactly when a
    field, at any depth of nested objects, is [null]; [generate] then
    rejects with the [TypeError] of [Object.entries] before it sends any
    request, whatever [maxRetries], the endpoint and the validators are. *)
Theorem generate_null_field :
  forall (host : Host) (this : JsonGenerator) (endpoint : Endpoint)
    (p : GenerateParams) (t0 : list Request)
    (entries : list (string * JsVal)),
    schema p = VObj entries ->
    entries <> [] ->
    (has_null_field (VObj entries) = true ->
     _createStructuredPrompt default_example (prompt p) (VObj entries)
     = Throw Js.null_to_object
     /\ generate this endpoint p t0 = (Throw Js.null_to_object, t0))
    /\ (has_null_field (VObj entries) = false ->
        exists user,
          _createStructuredPrompt default_example (prompt p) (VObj entries)
          = Ok user).
Proof.
  intros host this endpoint p t0 entries Hschema Hne.
  destruct (createStructuredPrompt_null default_example (prompt p) entries)
    as [Hnull Hok].
  split; [|exact Hok]. intros Hhas. split; [exact (Hnull Hhas)|].
  unfold generate. rewrite Hschema.
  destruct entries as [|kv rest]; [congruence|].
  simpl Js.Object_keys. cbv iota. simpl List.length. simpl Nat.eqb. cbv iota.
  now rewrite (Hnull Hhas).
Qed.

Lemma generate_null_field_witness :
  generate (host := Sample.host) (Sample.generator 3) Sample.recovering
    {| prompt := "p"; schema := SampleValidators.null_schema;
       systemPrompt := None; customValidators := [] |} []
  = (Throw Js.null_to_object, []).
Proof.
  refine (proj2 (proj1 (generate_null_field Sample.host (Sample.generator 3)
                          Sample.recovering
                          {| prompt := "p";
                             schema := SampleValidators.null_schema;
                             systemPrompt := None;
                             customValidators := [] |} []
                          [("name", VStr "type:string");
                           ("address", VObj [("zip", VNull)])]
                          eq_refl _) eq_refl)).
  discriminate.
Defined.

(** ** Custom validators *)

(** X6: the custom validators run in the order given and stop at the first
    one that does not accept the result: its error text is the message
    raised (the empty text when it gives none), the error it throws is
    raised as it is, and the validators after it are not consulted; if all
    accept, the loop ends normally. *)
Theorem run_validators_first_refusal :
  forall (result : JsVal) (before after : list Validator) (v : Validator),
    Forall (accepts result) before ->
    (forall error,
        v result = Verdict false error ->
        run_validators (before ++ v :: after) result
        = Throw (mkError Error (default error EmptyString)))
    /\ (forall e,
          v result = ValidatorThrows e ->
          run_validators (before ++ v :: after) result = Throw e)
    /\ run_validators before result = Ok tt.
Proof.
  intros result before after v Hall.
  induction Hall as [|w rest [error Hw] _ IH]; simpl.
  - split; [|split; [|reflexivity]].
    + intros error ->. reflexivity.
    + intros e ->. reflexivity.
  - rewrite Hw. simpl. exact IH.
Qed.

Lemma run_validators_first_refusal_witness :
  run_validators
    [SampleValidators.named; SampleValidators.never; SampleValidators.adult]
    Sample.validated_person
  = Throw (mkError Error "never valid").
Proof.
  refine (proj1 (run_validators_first_refusal Sample.validated_person
                   [SampleValidators.named] [SampleValidators.adult]
                   SampleValidators.never _)
            (Some "never valid") eq_refl).
  constructor; [|constructor]. exists (Some "Name is required"). reflexivity.
Defined.

(** ** The shape of validated data *)

Lemma keys_eqb_refl (l : list string) : keys_eqb l l = true.
Proof. induction l; simpl; [reflexivity|]. now rewrite String.eqb_refl. Qed.

Lemma parseInt_integer (s : string) :
  Num.isNaN (Num.parseInt s) = false -> is_integer (Num.parseInt s) = true.
Proof.
  destruct (parseInt_cases s) as [->|[neg [ds [Hds ->]]]]; [discriminate|].
  intros _. destruct (mk_num_cases neg ds 0 Hds) as [->|[ds' [j [-> _]]]].
  - reflexivity.
  - simpl. apply Z.leb_le. lia.
Qed.

Lemma validateType_conforms {host : Host} (data : JsVal) (type key : string)
  (r : JsVal) :
  _validateType data type key = Ok r -> leaf_conforms type r = true.
Proof.
  unfold _validateType, leaf_conforms.
  destruct (Str.startsWith "type:" type); simpl negb; cbv iota;
    [|reflexivity].
  set (kind := Str.toLowerCase (type_name type)).
  destruct (is_one_of kind ["string"; "str"]).
  { intros H. injection H as <-. reflexivity. }
  destruct (is_one_of kind ["number"; "float"]).
  { destruct (Num.isNaN (Js.parseFloat data)) eqn:Hnan; [discriminate|].
    intros H. injection H as <-. now rewrite Hnan. }
  destruct (is_one_of kind ["integer"; "int"]).
  { destruct (Num.isNaN (Js.parseInt data)) eqn:Hnan; [discriminate|].
    intros H. injection H as <-. apply parseInt_integer. exact Hnan. }
  destruct (is_one_of kind ["boolean"; "bool"]).
  { intros H. destruct data as [| |b|n|s|items|entries];
      try discriminate H.
    - injection H as <-. reflexivity.
    - destruct (String.eqb (Str.toLowerCase s) "true").
      { injection H as <-. reflexivity. }
      destruct (String.eqb (Str.toLowerCase s) "false");
        [injection H as <-; reflexivity|discriminate]. }
  destruct (is_one_of kind ["array"; "list"]).
  { intros H.
    assert (Harr : exists items, r = VArr items).
    { destruct data as [| |b|n|s|items|entries];
        try (destruct (JSON_parse _) as [[| | | | |parsed|]|];
             try discriminate H; injection H as <-; eauto).
      injection H as <-. eauto. }
    destruct Harr as [items ->]. reflexivity. }
  destruct (Str.startsWith "enum[" (type_name type)).
  { destruct (Js.includes (enum_values (type_name type)) data) eqn:Hin;
      [|discriminate].
    intros H. injection H as <-. exact Hin. }
  reflexivity.
Qed.

Lemma conforms_entries (vs es whole before : list (string * JsVal)) :
  whole = (before ++ vs)%list ->
  NoDup (map fst whole) ->
  map fst vs = map fst es ->
  Forall2 (fun kv kv' => conforms (snd kv') (snd kv) = true) es vs ->
  (fix all (es : list (string * JsVal)) : bool :=
     match es with
     | [] => true
     | (key, node) :: rest =>
         conforms (Js.get (VObj whole) key) node && all rest
     end) es = true.
Proof.
  revert vs before. induction es as [|[k node] rest IH];
    intros vs before Hwhole Hnd Hkeys Hall; [reflexivity|].
  destruct vs as [|[k' v] vs']; [discriminate|].
  simpl in Hkeys. injection Hkeys as -> Hkeys.
  inversion Hall as [|? ? ? ? Hv Hrest]; subst. simpl in Hv.
  assert (Hfresh : ~ In k (map fst before)).
  { rewrite map_app in Hnd. simpl in Hnd.
    apply NoDup_remove_2 in Hnd. intros Hin. apply Hnd.
    apply in_or_app. now left. }
  apply andb_true_intro. split.
  - unfold Js.get. simpl. now rewrite (assoc_unique k v before vs' Hfresh).
  - apply (IH vs' (before ++ [(k, v)])%list).
    + now rewrite <- app_assoc.
    + assumption.
    + assumption.
    + assumption.
Qed.

Lemma validateSchema_conforms {host : Host} (schema : JsVal) :
  unique_keys schema = true ->
  proto_free schema = true ->
  forall data r,
    _validateSchema data schema = Ok r -> conforms r schema = true.
Proof.
  induction schema as [| | | |annotation|elems IH|entries IH] using JsVal_ind;
    intros Hu Hp data r Hr; try reflexivity.
  - simpl in *. destruct (Str.startsWith "type:" annotation) eqn:Htype.
    + apply (validateType_conforms data annotation "field"). assumption.
    + unfold leaf_conforms. now rewrite Htype.
  - simpl in Hr. destruct data as [| | | | |items|]; try discriminate Hr.
    destruct (map_result _ items) as [validated|e] eqn:Hmap; simpl in Hr;
      [|discriminate].
    injection Hr as <-. apply map_result_Forall2 in Hmap. simpl.
    destruct elems as [|first rest]; [reflexivity|].
    inversion IH as [|? ? IHfirst _]; subst.
    simpl in Hu. apply andb_prop in Hu. destruct Hu as [Hu _].
    simpl in Hp. apply andb_prop in Hp. destruct Hp as [Hp _].
    apply forallb_forall. intros y Hy.
    clear IH. induction Hmap as [|x y' xs ys Hxy _ IHrest];
      [contradiction|].
    destruct Hy as [->|Hy]; [exact (IHfirst Hu Hp x y Hxy)|auto].
  - rewrite validateSchema_object_eq in Hr.
    destruct (Js.is_object data); [|discriminate].
    simpl in Hu. apply andb_prop in Hu. destruct Hu as [Hd Hvals].
    apply distinct_NoDup in Hd. apply unique_keys_entries in Hvals.
    pose proof (proto_free_declared _ Hp) as Hdecl.
    apply proto_free_entries in Hp.
    destruct (validate_fields_result _ data entries [] r Hd Hdecl Hr)
      as [vs [-> [Hkeys Hfirst]]].
    simpl app. simpl conforms. rewrite Hkeys, keys_eqb_refl. simpl andb.
    assert (Hnd : NoDup (map fst vs)) by (rewrite Hkeys; assumption).
    apply (conforms_entries vs entries vs [] eq_refl Hnd Hkeys).
    clear Hr Hkeys Hnd Hd Hdecl.
    induction Hfirst as [|kv kv' es vs' Hkv _ IHrest]; [constructor|].
    inversion IH as [|? ? IHkv IHes]; subst.
    inversion Hvals as [|? ? Hukv Hues]; subst.
    inversion Hp as [|? ? Hpkv Hpes]; subst.
    constructor; [|apply IHrest; assumption].
    exact (IHkv Hukv Hpkv _ _ Hkv).
Qed.

(** X7: for a schema whose objects have pairwise different keys, none of
    which is [__proto__], and whatever the data, a successful validation
    returns a value of the shape of the
    schema: the declared keys in the declared order, arrays of validated
    elements, and at each leaf the native type its annotation names (a
    string, a number that is not [NaN], a number with no digit after the
    point, a boolean, an array, an option of the enumeration). *)
Theorem validateSchema_result_shape :
  forall (host : Host) (data schema r : JsVal),
    unique_keys schema = true ->
    proto_free schema = true ->
    _validateSchema data schema = Ok r ->
    conforms r schema = true.
Proof.
  intros host data schema r Hu Hp Hr.
  exact (validateSchema_conforms schema Hu Hp data r Hr).
Qed.

Lemma validateSchema_result_shape_witness :
  _validateSchema (host := Sample.host) SampleShapes.team_data
    SampleShapes.team_schema
  = Ok SampleShapes.team_result
  /\ conforms SampleShapes.team_result SampleShapes.team_schema = true.
Proof.
  split; [reflexivity|].
  apply (validateSchema_result_shape Sample.host SampleShapes.team_data
           SampleShapes.team_schema SampleShapes.team_result);
    reflexivity.
Defined.

(** ** Arrays, element by element *)

Lemma map_result_ok {A B : Type} (f : A -> Result B) (l : list A)
  (ys : list B) :
  Forall2 (fun x y => f x = Ok y) l ys -> map_result f l = Ok ys.
Proof.
  induction 1 as [|x y xs ys Hxy _ IH]; simpl; [reflexivity|].
  now rewrite Hxy, IH.
Qed.

Lemma map_result_failure {A B : Type} (f : A -> Result B) (l : list A)
  (e : JsError) :
  map_result f l = Throw e
  <-> exists before x after,
        l = (before ++ x :: after)%list
        /\ Forall (fun y => exists v, f y = Ok v) before
        /\ f x = Throw e.
Proof.
  split.
  - induction l as [|x r IH]; simpl; [discriminate|].
    destruct (f x) as [y|e'] eqn:Hx; simpl.
    + destruct (map_result f r) as [ys|e'']; simpl; [discriminate|].
      intros H. injection H as ->.
      destruct (IH eq_refl) as [before [x' [after [-> [Hall Hx']]]]].
      exists (x :: before), x', after. split; [reflexivity|].
      split; [|assumption]. constructor; eauto.
    + intros H. injection H as ->. exists [], x, r.
      split; [reflexivity|]. split; [constructor|assumption].
  - intros [before [x [after [-> [Hall Hx]]]]].
    induction Hall as [|y ys [v Hv] _ IH]; simpl.
    + now rewrite Hx.
    + rewrite Hv. simpl. now rewrite IH.
Qed.

(** X8: against an array schema only the first element of the schema
    counts, and it is applied to every element of the data: validation
    succeeds exactly with the array, of the same length, of the validated
    elements; it fails exactly with [Expected an array] when the data is not
    an array, or with the error, unchanged, of the first element that is
    refused. *)
Theorem validateSchema_array_elementwise :
  forall (host : Host) (first : JsVal) (others : list JsVal) (data : JsVal),
    (forall r,
        _validateSchema data (VArr (first :: others)) = Ok r
        <-> exists items validated,
              data = VArr items /\ r = VArr validated
              /\ Forall2 (fun item v => _validateSchema item first = Ok v)
                   items validated)
    /\ (forall e,
          _validateSchema data (VArr (first :: others)) = Throw e
          <-> ((forall items, data <> VArr items)
               /\ e = mkError Error "Expected an array")
              \/ exists before item after,
                   data = VArr (before ++ item :: after)
                   /\ Forall (element_passes first) before
                   /\ _validateSchema item first = Throw e).
Proof.
  intros host first others data. split.
  - intros r. split.
    + destruct data as [| | | | |items|]; simpl; try discriminate.
      destruct (map_result _ items) as [validated|e] eqn:Hmap; simpl;
        [|discriminate].
      intros H. injection H as <-. exists items, validated.
      split; [reflexivity|]. split; [reflexivity|].
      apply map_result_Forall2 in Hmap. exact Hmap.
    + intros [items [validated [-> [-> Hall]]]]. simpl.
      now rewrite (map_result_ok _ items validated Hall).
  - intros e. split.
    + destruct data as [| | | | |items|];
        try (simpl; intros H; injection H as <-; left;
             split; [discriminate|reflexivity]).
      simpl.
      destruct (map_result (fun item => _validateSchema item first) items)
        as [validated|e'] eqn:Hmap; simpl; [discriminate|].
      intros H. injection H as ->. right.
      apply map_result_failure in Hmap.
      destruct Hmap as [before [x [after [-> [Hall Hx]]]]].
      exists before, x, after. split; [reflexivity|]. split; assumption.
    + intros [[Hnot ->]|[before [item [after [-> [Hall Hitem]]]]]].
      * destruct data as [| | | | |items|]; try reflexivity.
        exfalso. exact (Hnot items eq_refl).
      * simpl.
        assert (Hmap : map_result (fun item => _validateSchema item first)
                         (before ++ item :: after) = Throw e).
        { apply map_result_failure. exists before, item, after.
          split; [reflexivity|]. split; assumption. }
        now rewrite Hmap.
Qed.

Lemma validateSchema_array_elementwise_witness :
  _validateSchema (host := Sample.host)
    (VArr [VStr "4"; VNum (Num.of_Z 5); VBool true]) SampleOrder.pairs_schema
  = Throw (field_error "field" "an integer").
Proof.
  apply (proj2 (validateSchema_array_elementwise Sample.host
                  (VStr "type:integer") [VStr "type:boolean"]
                  (VArr [VStr "4"; VNum (Num.of_Z 5); VBool true]))).
  right. exists [VStr "4"; VNum (Num.of_Z 5)], (VBool true), [].
  split; [reflexivity|]. split.
  - repeat constructor; eexists; reflexivity.
  - reflexivity.
Defined.

(** ** Objects, field by field *)

Lemma validate_fields_failure {host : Host} (data : JsVal)
  (es validated : list (string * JsVal)) (e : JsError) :
  validate_fields _validateSchema data es validated = Throw e
  <-> exists before key node after,
        es = (before ++ (key, node) :: after)%list
        /\ Forall (field_passes data) before
        /\ field_fails data key node e.
Proof.
  split.
  - revert validated. induction es as [|[k sv] rest IH]; simpl;
      intros acc; [discriminate|].
    destruct (Js.has_property data k) eqn:Hk; simpl.
    + destruct (_validateSchema (Js.get data k) sv) as [v|e'] eqn:Hv; simpl.
      * intros H.
        destruct (IH _ H) as [before [key [node [after [-> [Hall Hf]]]]]].
        exists ((k, sv) :: before), key, node, after.
        split; [reflexivity|]. split; [|assumption].
        constructor; [|assumption]. split; [assumption|]. simpl. eauto.
      * intros H. injection H as ->. exists [], k, sv, rest.
        split; [reflexivity|]. split; [constructor|]. right. auto.
    + intros H. injection H as <-. exists [], k, sv, rest.
      split; [reflexivity|]. split; [constructor|]. left. auto.
  - intros [before [key [node [after [-> [Hall Hf]]]]]]. revert validated.
    induction Hall as [|[k sv] bs [Hk [v Hv]] _ IH]; simpl; intros acc.
    + destruct Hf as [[Hk ->]|[Hk Hv]].
      * now rewrite Hk.
      * rewrite Hk. simpl. now rewrite Hv.
    + simpl in Hk, Hv. rewrite Hk, Hv. simpl. apply IH.
Qed.

(** X9: for an object schema none of whose keys, at any depth, names a
    member that objects or arrays inherit, validation fails exactly with
    [Expected an object] when the data is neither an object nor an array, or
    at the first declared field, in the order of the schema, that is absent
    from the data or whose value is refused, with
    [Missing required field: <key>] or with the error of the value,
    unchanged; the declared fields after it are not looked at. *)
Theorem validateSchema_first_failing_field :
  forall (host : Host) (data : JsVal) (entries : list (string * JsVal))
    (e : JsError),
    plain_keys (VObj entries) = true ->
    _validateSchema data (VObj entries) = Throw e
    <-> (Js.is_object data = false
         /\ e = mkError Error "Expected an object")
        \/ (Js.is_object data = true
            /\ exists before key node after,
                 entries = (before ++ (key, node) :: after)%list
                 /\ Forall (field_passes data) before
                 /\ field_fails data key node e).
Proof.
  intros host data entries e _. rewrite validateSchema_object_eq.
  destruct (Js.is_object data).
  - rewrite validate_fields_failure. split.
    + intros H. right. split; [reflexivity|exact H].
    + intros [[H _]|[_ H]]; [discriminate|exact H].
  - split.
    + intros H. injection H as <-. left. split; reflexivity.
    + intros [[_ ->]|[H _]]; [reflexivity|discriminate].
Qed.

Lemma validateSchema_first_failing_field_witness :
  _validateSchema (host := Sample.host)
    (VObj [("name", VStr "Ada"); ("age", VStr "old")])
    (VObj [("name", VStr "type:string"); ("age", VStr "type:integer");
           ("city", VStr "type:string")])
  = Throw (field_error "field" "an integer").
Proof.
  apply (proj2 (validateSchema_first_failing_field Sample.host
                  (VObj [("name", VStr "Ada"); ("age", VStr "old")])
                  [("name", VStr "type:string"); ("age", VStr "type:integer");
                   ("city", VStr "type:string")]
                  (field_error "field" "an integer") eq_refl)).
  right. split; [reflexivity|].
  exists [("name", VStr "type:string")], "age", (VStr "type:integer"),
    [("city", VStr "type:string")].
  split; [reflexivity|]. split.
  - constructor; [|constructor]. split; [reflexivity|].
    eexists. reflexivity.
  - right. split; reflexivity.
Defined.

(** ** The order of the fields of the data *)

Lemma assoc_In_keys (key : string) (v : JsVal) (l : list (string * JsVal)) :
  Js.assoc key l = Some v -> In key (map fst l).
Proof.
  induction l as [|[k w] r IH]; simpl; [discriminate|].
  destruct (String.eqb key k) eqn:Heq.
  - apply String.eqb_eq in Heq. auto.
  - auto.
Qed.

Lemma assoc_Permutation (key : string) (l l' : list (string * JsVal)) :
  Permutation l l' -> NoDup (map fst l) -> Js.assoc key l = Js.assoc key l'.
Proof.
  induction 1 as [|[k v] l l' Hperm IH|[k1 v1] [k2 v2] l|l l' l'' H1 IH1 H2 IH2];
    intros Hnd.
  - reflexivity.
  - simpl. simpl in Hnd. inversion Hnd; subst.
    destruct (String.eqb key k); [reflexivity|auto].
  - simpl. simpl in Hnd. inversion Hnd as [|? ? Hfresh _]; subst.
    destruct (String.eqb key k1) eqn:H1; destruct (String.eqb key k2) eqn:H2;
      try reflexivity.
    apply String.eqb_eq in H1, H2. subst. exfalso. apply Hfresh.
    simpl. auto.
  - rewrite IH1 by assumption. apply IH2.
    apply (Permutation_NoDup (l := map fst l)); [|assumption].
    apply Permutation_map. assumption.
Qed.

(** X10: the order in which the data lists its fields does not matter:
    two objects that hold the same fields in any order validate to the same
    result or fail with the same error; so do, when no declared key names a
    member that objects or arrays inherit, two values that agree on the
    declared keys. *)
Theorem validateSchema_field_order :
  forall (host : Host) (fields fields' entries : list (string * JsVal)),
    NoDup (map fst fields) ->
    Permutation fields fields' ->
    _validateSchema (VObj fields) (VObj entries)
    = _validateSchema (VObj fields') (VObj entries)
    /\ (forall other,
          forallb plain_key (map fst entries) = true ->
          Js.is_object other = true ->
          (forall key, In key (map fst entries) ->
                       Js.own_property (VObj fields) key
                       = Js.own_property other key) ->
          _validateSchema (VObj fields) (VObj entries)
          = _validateSchema other (VObj entries)).
Proof.
  intros host fields fields' entries Hnd Hperm. split.
  - rewrite !validateSchema_object_eq. simpl Js.is_object. cbv iota.
    apply validate_fields_agree. intros key _. simpl.
    apply assoc_Permutation; assumption.
  - intros other _ Hobj Hagree. rewrite !validateSchema_object_eq.
    rewrite Hobj. simpl Js.is_object. cbv iota.
    apply validate_fields_agree. assumption.
Qed.

Lemma validateSchema_field_order_witness :
  _validateSchema (host := Sample.host) (VObj SampleOrder.fields)
    SampleOrder.schema
  = _validateSchema (host := Sample.host) (VObj SampleOrder.shuffled)
      SampleOrder.schema
  /\ _validateSchema (host := Sample.host) (VObj SampleOrder.shuffled)
       SampleOrder.schema
     = Ok (VObj [("name", VStr "Ada"); ("age", VNum (Num.of_Z 36))]).
Proof.
  split; [|reflexivity].
  refine (proj1 (validateSchema_field_order Sample.host SampleOrder.fields
                   SampleOrder.shuffled
                   [("name", VStr "type:string"); ("age", VStr "type:integer")]
                   _ _)).
  - repeat constructor; simpl; intuition discriminate.
  - unfold SampleOrder.fields, SampleOrder.shuffled.
    apply Permutation_sym.
    apply (perm_trans (l' := [("age", VStr "36"); ("city", VStr "London");
                              ("name", VStr "Ada")])).
    + apply perm_swap.
    + apply (perm_trans (l' := [("age", VStr "36"); ("name", VStr "Ada");
                                ("city", VStr "London")])).
      * apply perm_skip. apply perm_swap.
      * apply perm_swap.
Defined.

(** ** What the sanitizer leaves *)

Lemma remove_fences_zero (c : ascii) (r : string) :
  remove_fences 0 (String c r)
  = match match_fence (String c r) with
    | Some n => remove_fences (n - 1) r
    | None => String c (remove_fences 0 r)
    end.
Proof. reflexivity. Qed.

Lemma match_fence_none (s : string) :
  match_fence s = None -> String.prefix "```" s = false.
Proof.
  intros Hm. destruct (String.prefix "```" s) eqn:Hp; [|reflexivity].
  rewrite prefix_fence in Hp.
  destruct s as [|a [|b [|c r]]]; try discriminate Hp.
  apply andb_prop in Hp. destruct Hp as [Hab Hc].
  apply andb_prop in Hab. destruct Hab as [Ha Hb].
  apply Ascii.eqb_eq in Ha, Hb, Hc. subst a b c.
  unfold match_fence in Hm.
  change (Str.strip_prefix "```"
            (String Str.backtick (String Str.backtick (String Str.backtick r))))
    with (Some r) in Hm.
  cbv iota in Hm. destruct (Str.strip_prefix "json" r); discriminate Hm.
Qed.

Lemma remove_fences_head (s : string) :
  begins_with is_backtick s = false ->
  begins_with is_backtick (remove_fences 0 s) = false.
Proof.
  destruct s as [|c r]; [reflexivity|]. intros Hc.
  change (is_backtick c = false) in Hc. rewrite remove_fences_step.
  - exact Hc.
  - rewrite prefix_fence. destruct r as [|b [|c' r']]; try reflexivity.
    now rewrite Hc.
Qed.

Lemma remove_fences_no_fence_head (s : string) :
  String.prefix "```" s = false ->
  String.prefix "```" (remove_fences 0 s) = false.
Proof.
  intros Hp. destruct s as [|a r]; [reflexivity|].
  rewrite (remove_fences_step a r Hp).
  destruct (is_backtick a) eqn:Ha.
  2:{ rewrite prefix_fence. destruct (remove_fences 0 r) as [|b [|c t]];
        try reflexivity. now rewrite Ha. }
  destruct r as [|b r']; [now rewrite prefix_fence|].
  destruct (is_backtick b) eqn:Hb.
  2:{ assert (Hr : String.prefix "```" (String b r') = false).
      { rewrite prefix_fence. destruct r' as [|c [|d t]]; try reflexivity.
        now rewrite Hb. }
      rewrite (remove_fences_step b r' Hr). rewrite prefix_fence.
      destruct (remove_fences 0 r') as [|c t]; [reflexivity|].
      rewrite Hb. now rewrite andb_false_r. }
  assert (Hr' : begins_with is_backtick r' = false).
  { rewrite prefix_fence in Hp. destruct r' as [|c t]; [reflexivity|].
    rewrite Ha, Hb in Hp. exact Hp. }
  assert (Hr : String.prefix "```" (String b r') = false).
  { rewrite prefix_fence. destruct r' as [|c [|d t]]; try reflexivity.
    simpl in Hr'. rewrite Hr'. now rewrite andb_false_r. }
  rewrite (remove_fences_step b r' Hr). rewrite prefix_fence.
  pose proof (remove_fences_head r' Hr') as Hhead.
  destruct (remove_fences 0 r') as [|c t]; [reflexivity|].
  simpl in Hhead. rewrite Hhead. now rewrite andb_false_r.
Qed.

Lemma remove_fences_no_fence (s : string) :
  forall skip, Str.contains "```" (remove_fences skip s) = false.
Proof.
  induction s as [|c r IH]; intros skip; [destruct skip; reflexivity|].
  destruct skip as [|k]; [|exact (IH k)].
  pose proof (remove_fences_no_fence_head (String c r)) as Hhead.
  rewrite remove_fences_zero in *.
  destruct (match_fence (String c r)) as [n|] eqn:Hm; [apply IH|].
  rewrite contains_cons, (IH 0).
  rewrite (Hhead (match_fence_none _ Hm)). reflexivity.
Qed.

Lemma prefix_drop_suffix_while (p : ascii -> bool) (n s : string) :
  String.prefix n (Str.drop_suffix_while p s) = true ->
  String.prefix n s = true.
Proof.
  revert s. induction n as [|a n' IH]; intros s; [now rewrite !prefix_empty|].
  destruct s as [|c r]; [simpl; trivial|].
  change (Str.drop_suffix_while p (String c r))
    with (if Str.all_chars p (String c r) then EmptyString
          else String c (Str.drop_suffix_while p r)).
  destruct (Str.all_chars p (String c r)); [discriminate|].
  rewrite !prefix_cons. intros H. apply andb_prop in H.
  destruct H as [-> H]. simpl. auto.
Qed.

Lemma drop_suffix_while_cons (p : ascii -> bool) (c : ascii) (r : string) :
  Str.drop_suffix_while p (String c r)
  = if Str.all_chars p (String c r) then EmptyString
    else String c (Str.drop_suffix_while p r).
Proof. reflexivity. Qed.

Lemma contains_drop_suffix_while (p : ascii -> bool) (a : ascii)
  (n s : string) :
  Str.contains (String a n) s = false ->
  Str.contains (String a n) (Str.drop_suffix_while p s) = false.
Proof.
  induction s as [|c r IH]; [trivial|].
  rewrite contains_cons. intros H. apply orb_false_elim in H.
  destruct H as [Hp Hr].
  pose proof (prefix_drop_suffix_while p (String a n) (String c r)) as Hpre.
  rewrite drop_suffix_while_cons in *.
  destruct (Str.all_chars p (String c r)); [reflexivity|].
  rewrite contains_cons, (IH Hr), orb_false_r.
  destruct (String.prefix (String a n) (String c (Str.drop_suffix_while p r)));
    [|reflexivity].
  specialize (Hpre eq_refl). congruence.
Qed.

Lemma contains_trimStart (n s : string) :
  Str.contains n s = false -> Str.contains n (Str.trimStart s) = false.
Proof.
  induction s as [|c r IH]; [trivial|]. intros H. simpl Str.trimStart.
  destruct (Str.is_whitespace c); [|exact H].
  rewrite contains_cons in H. apply orb_false_elim in H. apply IH, H.
Qed.

(** X11: whatever the text, what the sanitizer returns holds no run of three
    backticks: every fence marker is removed, and removing one never joins
    the backticks around it into a new one. *)
Theorem cleanJsonString_no_fence :
  forall s : string, Str.contains "```" (_cleanJsonString s) = false.
Proof.
  intros s. unfold _cleanJsonString, Str.trim, Str.trimEnd,
    remove_trailing_backticks.
  apply contains_drop_suffix_while, contains_trimStart,
    contains_drop_suffix_while, remove_fences_no_fence.
Qed.

(** ** Enumerations *)

(** X12: when the text between the brackets of [type:enum[...]] holds no
    [type:], a value is accepted exactly when it is a string equal to one of
    the comma-separated options, trimmed, and it is returned unchanged; every
    other value, a number or a boolean that prints as an option included, is
    refused with a message that lists all the options. *)
Theorem enum_accepts_listed_strings :
  forall (host : Host) (body : string) (value : JsVal) (key : string),
    Str.contains "type:" body = false ->
    let options := map Str.trim (Str.split "," body) in
    (forall r,
        _validateType value ("type:enum[" ++ body ++ "]") key = Ok r
        <-> r = value /\ exists s, value = VStr s /\ In s options)
    /\ ((forall s, value = VStr s -> ~ In s options) ->
        _validateType value ("type:enum[" ++ body ++ "]") key
        = Throw (field_error key ("one of: " ++ Str.join ", " options))).
Proof.
  intros host body value key Hbody options.
  rewrite (validateType_enum_options body value key Hbody).
  fold options. split.
  - intros r. split.
    + destruct (Js.includes options value) eqn:Hin; [|discriminate].
      intros H. injection H as <-. split; [reflexivity|].
      destruct value as [| | | |s| |]; try discriminate Hin.
      exists s. split; [reflexivity|]. apply existsb_eqb_In. exact Hin.
    + intros [-> [s [-> Hin]]]. simpl.
      apply existsb_eqb_In in Hin. now rewrite Hin.
  - intros Hnone. destruct (Js.includes options value) eqn:Hin; [|reflexivity].
    destruct value as [| | | |s| |]; try discriminate Hin.
    apply existsb_eqb_In in Hin. exfalso. exact (Hnone s eq_refl Hin).
Qed.

Lemma enum_accepts_listed_strings_witness :
  _validateType (host := Sample.host) (VStr "green")
    "type:enum[red, green ,blue]" "color" = Ok (VStr "green")
  /\ _validateType (host := Sample.host) (VNum (Num.of_Z 1))
       "type:enum[1,2]" "level"
     = Throw (field_error "level" "one of: 1, 2").
Proof.
  split.
  - apply (proj1 (enum_accepts_listed_strings Sample.host "red, green ,blue"
                    (VStr "green") "color" eq_refl) (VStr "green")).
    split; [reflexivity|]. exists "green". split; [reflexivity|].
    right. left. reflexivity.
  - apply (proj2 (enum_accepts_listed_strings Sample.host "1,2"
                    (VNum (Num.of_Z 1)) "level" eq_refl)).
    intros s Hs. discriminate Hs.
Defined.

(** ** The examples of the prompt *)

(** X13: for a field of kind [number], [int] or [bool] the prompt shows the
    value ["example_text"], the default example having no entry of these
    names, and validation refuses that very value for the field: the
    template of the prompt does not conform to the schema it describes. *)
Theorem prompt_example_of_alias_refused :
  forall (host : Host) (kind key path : string),
    In kind ["number"; "int"; "bool"] ->
    formatField default_example key (VStr ("type:" ++ kind)) path
    = Ok (example_text_entry path key)
    /\ exists e,
         _validateType (VStr "example_text") ("type:" ++ kind) key = Throw e.
Proof.
  intros host kind key path Hkind. simpl in Hkind.
  destruct Hkind as [<-|[<-|[<-|[]]]]; (split; [reflexivity|]);
    eexists; reflexivity.
Qed.

Lemma prompt_example_of_alias_refused_witness :
  formatField default_example "age" (VStr "type:number") EmptyString
  = Ok (example_text_entry EmptyString "age")
  /\ exists e,
       _validateType (host := Sample.host) (VStr "example_text") "type:number"
         "age" = Throw e.
Proof.
  apply (prompt_example_of_alias_refused Sample.host "number" "age"
           EmptyString).
  left. reflexivity.
Defined.

(** ** The delimiter *)

Lemma attempts_with_delimiter {host : Host} (this : JsonGenerator)
  (d : string) (endpoint : Endpoint) (schema : JsVal)
  (validators : list Validator) (final user : string) (n : nat) :
  forall attempt lastError trace,
    attempts (with_delimiter this d) endpoint schema validators final user n
      attempt lastError trace
    = attempts this endpoint schema validators final user n attempt lastError
        trace.
Proof.
  induction n as [|n IH]; intros attempt lastError trace; [reflexivity|].
  rewrite (loop_step (with_delimiter this d)), (loop_step this).
  change (attempt_body (with_delimiter this d) endpoint schema validators
            final user lastError trace)
    with (attempt_body this endpoint schema validators final user lastError
            trace).
  destruct (attempt_body this endpoint schema validators final user lastError
              trace) as [[result|error] trace'].
  - reflexivity.
  - change (maxRetries (with_delimiter this d)) with (maxRetries this).
    destruct (attempt =? maxRetries this - 1)%Z; [reflexivity|apply IH].
Qed.

(** X14: [generate] computes the wrapped schema and never uses it: the
    delimiter of the generator has no influence on the requests sent nor on
    the outcome. *)
Theorem generate_ignores_delimiter :
  forall (host : Host) (this : JsonGenerator) (d : string)
    (endpoint : Endpoint) (p : GenerateParams) (trace : list Request),
    generate (with_delimiter this d) endpoint p trace
    = generate this endpoint p trace.
Proof.
  intros host this d endpoint p trace. unfold generate.
  destruct (Js.Object_keys _) as [keys|e]; [|reflexivity].
  destruct (Nat.eqb (List.length keys) 0); [reflexivity|].
  destruct (_createStructuredPrompt default_example (prompt p) _)
    as [user|e]; [|reflexivity].
  change (maxRetries (with_delimiter this d)) with (maxRetries this).
  apply attempts_with_delimiter.
Qed.

(** ** What [generate] resolves with *)

(** X15: for a schema with at least one field, whose objects have pairwise
    different keys none of which is [__proto__], and [maxRetries] at least
    1, whatever the endpoint answers, a
    value [generate] resolves with has the shape of the schema (the declared
    keys in the declared order, a value of the annotated type at every leaf)
    and is accepted by every custom validator. *)
Theorem generate_result_conforms :
  forall (host : Host) (this : JsonGenerator) (endpoint : Endpoint)
    (p : GenerateParams) (t0 t' : list Request) (r : JsVal),
    is_schema (schema p) = true ->
    unique_keys (schema p) = true ->
    proto_free (schema p) = true ->
    (1 <= maxRetries this)%Z ->
    generate this endpoint p t0 = (Ok r, t') ->
    conforms r (schema p) = true
    /\ run_validators (customValidators p) r = Ok tt.
Proof.
  intros host this endpoint p t0 t' r Hs Hu Hp Hmax Hgen.
  destruct (generate_enters_loop this endpoint p t0 Hs) as [user [_ Heq]].
  rewrite Heq in Hgen.
  pose proof (loop_outcome this endpoint (schema p) (customValidators p)
                (string_or (systemPrompt p) (baseSystemPrompt (schema p)))
                user (Z.to_nat (maxRetries this)) 0%Z None t0
                (Ok r) t') as Hout.
  simpl in Hout.
  destruct Hout as [[Hzero _]|[j [_ Hrun]]]; [lia|exact Hgen|lia|].
  apply succeeds_after_validated in Hrun.
  destruct Hrun as [content [parsed [_ [Hvalid Hrun]]]].
  split; [|exact Hrun].
  exact (validateSchema_conforms (schema p) Hu Hp parsed r Hvalid).
Qed.

Lemma generate_result_conforms_witness :
  conforms Sample.validated_person (schema Sample.params) = true
  /\ run_validators (customValidators Sample.params) Sample.validated_person
     = Ok tt.
Proof.
  apply (generate_result_conforms Sample.host (Sample.generator 3)
           Sample.recovering Sample.params [] Sample.requests
           Sample.validated_person).
  - reflexivity.
  - reflexivity.
  - reflexivity.
  - simpl. lia.
  - vm_compute. reflexivity.
Defined.
